(** * datasetutils.py: the cleaning-and-aggregation pipeline

    A shallow embedding of [src/datasetutils.py] and the properties its
    specification states about it.

    Conventions of the embedding.
    - A pandas [DataFrame] is a list of column labels with their dtype and a
      list of rows; a row carries its index label and a finite map from
      column label to cell.  Column labels are taken to be distinct.
    - A cell is a Python scalar: an [int], a [float], a [str], or the
      missing value [np.nan].  A [np.float64] that is not NaN is the
      rational it denotes; what is computed on floats is rounded to the
      nearest [binary64] number; the infinities are outside the model.
    - A Python exception is a value of [PyError]; a function that can raise
      returns a [result].
    - [os.listdir], [open], [pd.read_csv] and [sys.stdout.write] are the
      effects of the loaders; they are recorded in a trace of events. *)

From Stdlib Require Import QArith Ascii String.
From stdpp Require Import gmap strings list fin_maps pretty.

Local Open Scope string_scope.

(** ** Python values and exceptions *)

Inductive PyError :=
  | KeyError (key : string)
  | ValueError (arg : string)
  | TypeError
  | AttributeError (attr : string)
  | NameError (name : string)
  | OSError (path : string)
  | Unsupported (what : string).

Inductive result (A : Type) :=
  | Ok (a : A)
  | Raise (e : PyError).
Arguments Ok {A} a.
Arguments Raise {A} e.

Definition rbind {A B} (m : result A) (f : A → result B) : result B :=
  match m with
  | Ok a => f a
  | Raise e => Raise e
  end.

Notation "x ←? m ; k" := (rbind m (λ x, k))
  (at level 20, m at level 100, k at level 200, only parsing, right associativity).

(** [[f(x) for x in l]], stopping at the first exception. *)
Fixpoint mapR {A B} (f : A → result B) (l : list A) : result (list B) :=
  match l with
  | [] => Ok []
  | x :: l' => y ←? f x; ys ←? mapR f l'; Ok (y :: ys)
  end.

(** [for x in l: acc = f(acc, x)], stopping at the first exception. *)
Fixpoint foldR {A S} (f : S → A → result S) (l : list A) (acc : S) : result S :=
  match l with
  | [] => Ok acc
  | x :: l' => acc' ←? f acc x; foldR f l' acc'
  end.

Inductive cell :=
  | VInt (z : Z)
  | VFloat (q : Q)
  | VStr (s : string)
  | VNaN.

Global Instance cell_inhabited : Inhabited cell := populate VNaN.

(** The dtype of a column: [int64], [float64] or [object]. *)
Inductive dtype := int64 | float64 | object.

(** The types named by the catalog: [np.float64], [object] and [str]. *)
Inductive pytype := np_float64 | py_object | py_str.

Definition dtype_of (t : pytype) : dtype :=
  match t with
  | np_float64 => float64
  | py_object | py_str => object
  end.

(** ** Strings *)

(** [pat in s] *)
Fixpoint contains (pat s : string) : bool :=
  String.prefix pat s ||
  match s with
  | EmptyString => false
  | String _ s' => contains pat s'
  end.

(** [s.endswith(suffix)] *)
Definition endswith (s suffix : string) : bool :=
  let n := String.length s in
  let k := String.length suffix in
  (k <=? n)%nat && String.eqb (String.substring (n - k) k s) suffix.

(** [s[a:b]] for non-negative [a] and [b]; a short string gives a short
    (possibly empty) slice, as in Python. *)
Definition py_slice (a b : nat) (s : string) : string :=
  String.substring a (b - a) s.

(** ** [np.float64] arithmetic

    The result of an operation on floats is that of the exact operation
    rounded to the nearest [binary64] number, ties to the even mantissa
    (IEEE 754, 53 bits of precision, exponents from -1074 to 971).  A
    result that rounds beyond the largest finite float is an infinity,
    which a cell cannot hold: it is reported as [None]. *)

(** The integer nearest to [n / d], ties to even, for [0 <= n] and
    [0 < d]. *)
Definition nearest_even (n d : Z) : Z :=
  let m := (n / d)%Z in
  let r := (n mod d)%Z in
  if (2 * r <? d)%Z then m
  else if (d <? 2 * r)%Z then (m + 1)%Z
  else if Z.even m then m else (m + 1)%Z.

(** [2^k <= a / d], for [0 < a] and [0 < d]. *)
Definition above_pow2 (a d k : Z) : bool :=
  if (0 <=? k)%Z then (d * 2 ^ k <=? a)%Z else (d <=? a * 2 ^ (- k))%Z.

(** [q] rounded to [binary64]: with [2^k <= |q| < 2^(k+1)] the unit in the
    last place is [2^e] for [e = max (k - 52) (-1074)], and the result is
    the nearest multiple of it. *)
Definition round64 (q : Q) : option Q :=
  let q := Qred q in
  let a := Z.abs (Qnum q) in
  let d := Zpos (Qden q) in
  if (a =? 0)%Z then Some 0%Q
  else
    let k := (Z.log2 a - Z.log2 d)%Z in
    let k := if above_pow2 a d k then k else (k - 1)%Z in
    let e := Z.max (k - 52) (-1074) in
    let m := if (0 <=? e)%Z then nearest_even a (d * 2 ^ e)
             else nearest_even (a * 2 ^ (- e)) d in
    if (2 ^ 1024 <=? m * 2 ^ e)%Z then None
    else Some (Qred (Qmake (Z.sgn (Qnum q) * m * 2 ^ Z.max e 0)
                       (Z.to_pos (2 ^ Z.max (- e) 0)))).

Definition fadd (x y : Q) : option Q := round64 (x + y).
Definition fsub (x y : Q) : option Q := round64 (x - y).
Definition fdiv (x y : Q) : option Q := round64 (x / y).

(** A float from an option: an infinity is not covered. *)
Definition finite (o : option Q) : result cell :=
  match o with
  | Some q => Ok (VFloat q)
  | None => Raise (Unsupported "inf")
  end.

(** ** [float(s)]

    The numeric literals of Python: optional white space around an optional
    sign and [digits[.digits][e[sign]digits]] or [.digits[e[sign]digits]],
    or [nan].  The literals [inf], [infinity] and the digit separator [_]
    are not covered: they are reported as [Unsupported], and so is a number
    too large for a float, which is an infinity.  The number is rounded to
    the nearest float. *)

Definition is_digit (c : ascii) : bool :=
  let n := nat_of_ascii c in (48 <=? n)%nat && (n <=? 57)%nat.

Definition digit_value (c : ascii) : Z := Z.of_nat (nat_of_ascii c - 48).

Definition is_space (c : ascii) : bool :=
  let n := nat_of_ascii c in
  (n =? 32)%nat || ((9 <=? n)%nat && (n <=? 13)%nat) || ((28 <=? n)%nat && (n <=? 31)%nat).

Definition to_lower (c : ascii) : ascii :=
  let n := nat_of_ascii c in
  if (65 <=? n)%nat && (n <=? 90)%nat then ascii_of_nat (n + 32) else c.

Fixpoint lstrip (l : list ascii) : list ascii :=
  match l with
  | c :: l' => if is_space c then lstrip l' else l
  | [] => []
  end.

Definition strip (l : list ascii) : list ascii := rev (lstrip (rev (lstrip l))).

Definition read_sign (l : list ascii) : bool * list ascii :=
  match l with
  | "-"%char :: r => (true, r)
  | "+"%char :: r => (false, r)
  | _ => (false, l)
  end.

(** Reads a run of digits: the value accumulated on [acc], the number of
    digits read on top of [n], and the rest. *)
Fixpoint read_digits (l : list ascii) (acc : Z) (n : nat) : Z * nat * list ascii :=
  match l with
  | c :: r =>
      if is_digit c then read_digits r (10 * acc + digit_value c)%Z (S n)
      else (acc, n, l)
  | [] => (acc, n, l)
  end.

Definition read_exponent (l : list ascii) : option Z :=
  match l with
  | [] => Some 0%Z
  | c :: r =>
      if Ascii.eqb (to_lower c) "e" then
        let '(neg, r1) := read_sign r in
        let '(v, n, r2) := read_digits r1 0 0 in
        match n, r2 with
        | S _, [] => Some (if neg then (- v)%Z else v)
        | _, _ => None
        end
      else None
  end.

(** [m * 10^e] *)
Definition scale10 (m e : Z) : Q :=
  if (0 <=? e)%Z then inject_Z (m * 10 ^ e)
  else Qred (Qmake m (Z.to_pos (10 ^ (- e)))).

Definition read_number (l : list ascii) : option Q :=
  let '(ip, ni, r1) := read_digits l 0 0 in
  let '(m, nf, r2) :=
    match r1 with
    | "."%char :: r => read_digits r ip 0
    | _ => (ip, 0%nat, r1)
    end in
  if (ni + nf =? 0)%nat then None
  else e ← read_exponent r2; Some (scale10 m (e - Z.of_nat nf)).

Definition float_of_string (s : string) : result cell :=
  let '(neg, r) := read_sign (strip (list_ascii_of_string s)) in
  let w := string_of_list_ascii (map to_lower r) in
  if String.eqb w "nan" then Ok VNaN
  else if String.eqb w "inf" || String.eqb w "infinity" then Raise (Unsupported "inf")
  else if existsb (Ascii.eqb "_") r then Raise (Unsupported "_")
  else match read_number r with
       | Some q => finite (round64 (if neg then Qopp q else q))
       | None => Raise (ValueError s)
       end.

(** ** The column catalog *)

Definition keyword_type_map : gmap string pytype :=
  list_to_map
    [ ("unixtimestamp", np_float64);
      ("hhmmss", py_object);
      ("R_BauBGb-P_SUM", np_float64);
      ("E_GLOBAL", np_float64);
      ("T_AMB", np_float64);
      ("P_AIR", np_float64);
      ("YYYYMMDD", py_str);
      ("AEZ-P_SUM", np_float64);
      ("R_BauTGb-P_SUM", np_float64);
      ("PV_SolarLog_30kW-P_SUM", np_float64);
      ("PV_120kW-P_SUM", np_float64);
      ("R_BauBGa-P_SUM", np_float64);
      ("R_Bau_TGa-P_SUM", np_float64);
      ("E_BauXa-P_SUM", np_float64);
      ("E_BauXb-P_SUM", np_float64) ].

Definition value_limits : gmap string (Z * Z) :=
  list_to_map
    [ ("AEZ-P_SUM", (5, 75)%Z);
      ("R_BauBGa-P_SUM", (5, 60)%Z);
      ("R_BauBGb-P_SUM", (5, 40)%Z);
      ("R_Bau_TGa-P_SUM", (25, 250)%Z);
      ("R_BauTGb-P_SUM", (35, 275)%Z);
      ("PV_120kW-P_SUM", (0, 120)%Z) ].

(** ** Data frames *)

Record DataFrame := mkDataFrame {
  columns : list (string * dtype);
  rows : list (nat * gmap string cell)
}.

(** [pd.DataFrame()] *)
Definition empty_frame : DataFrame := mkDataFrame [] [].

Definition column_names (df : DataFrame) : list string := (columns df).*1.

Definition has_column (df : DataFrame) (col : string) : bool :=
  bool_decide (col ∈ column_names df).

Definition column_dtype (df : DataFrame) (col : string) : option dtype :=
  (λ p, p.2.2) <$> list_find (λ c, c.1 = col) (columns df).

(** [pd.isna(v)] *)
Definition isna (v : cell) : bool :=
  match v with
  | VNaN => true
  | _ => false
  end.

(** The cell of a row under a column label; a label the row does not hold
    reads as missing. *)
Definition cell_at (r : gmap string cell) (col : string) : cell := r !!! col.

(** [df.applymap(f)] *)
Definition applymap (f : cell → cell) (df : DataFrame) : DataFrame :=
  mkDataFrame (columns df) (map (λ ir, (ir.1, f <$> ir.2)) (rows df)).

(** [df.dropna()]: the rows with no missing value in any column; labels are
    kept. *)
Definition row_complete (cols : list string) (r : gmap string cell) : bool :=
  forallb (λ c, negb (isna (cell_at r c))) cols.

Definition dropna (df : DataFrame) : DataFrame :=
  mkDataFrame (columns df)
    (List.filter (λ ir, row_complete (column_names df) ir.2) (rows df)).

(** [df[cols]]: the frame restricted to the labels [cols], in that order. *)
Definition select_columns (df : DataFrame) (cols : list string) : result DataFrame :=
  cs ←? mapR (λ c, match column_dtype df c with
                   | Some dt => Ok (c, dt)
                   | None => Raise (KeyError c)
                   end) cols;
  Ok (mkDataFrame cs
        (map (λ ir, (ir.1, list_to_map (map (λ c, (c, cell_at ir.2 c)) cols))) (rows df))).

(** The column list after [df[col] = ...]: an existing label keeps its place
    and takes the new dtype, a new label is appended. *)
Definition set_dtype (col : string) (dt : dtype) (cs : list (string * dtype))
    : list (string * dtype) :=
  if bool_decide (col ∈ cs.*1)
  then map (λ c, if bool_decide (c.1 = col) then (col, dt) else c) cs
  else (cs ++ [(col, dt)])%list.

(** [df[dst] = f(df[src])] for a cell-wise [f]: the right-hand side is
    evaluated on every row (any exception aborts the statement) and stored
    under [dst] with dtype [dt]. *)
Definition assign_column (src dst : string) (dt : dtype) (f : cell → result cell)
    (df : DataFrame) : result DataFrame :=
  if has_column df src then
    rs ←? mapR (λ ir, v ←? f (cell_at ir.2 src); Ok (ir.1, <[dst := v]> ir.2)) (rows df);
    Ok (mkDataFrame (set_dtype dst dt (columns df)) rs)
  else Raise (KeyError src).

(** [df[p(df[col])] = np.nan] for a cell-wise test [p]: every row whose cell
    under [col] passes the test has all its cells replaced by NaN.  (pandas
    stores an [int64] column that receives a NaN as [float64]; the cells of
    the other rows keep their values, and the loaders only get here after
    every selected column was converted, so this change of dtype is left
    out.) *)
Definition nan_row (r : gmap string cell) : gmap string cell := (λ _, VNaN) <$> r.

Definition set_nan_where (p : cell → result bool) (col : string) (df : DataFrame)
    : result DataFrame :=
  if has_column df col then
    rs ←? mapR (λ ir, b ←? p (cell_at ir.2 col);
                      Ok (if b : bool then (ir.1, nan_row ir.2) else ir)) (rows df);
    Ok (mkDataFrame (columns df) rs)
  else Raise (KeyError col).

Definition Qlt_bool (x y : Q) : bool := negb (Qle_bool y x).

(** [v < lim] and [v > lim] on a cell: a comparison with NaN is false, a
    comparison of a [str] with a number raises. *)
Definition cell_lt (lim : Z) (v : cell) : result bool :=
  match v with
  | VInt z => Ok (z <? lim)%Z
  | VFloat q => Ok (Qlt_bool q (inject_Z lim))
  | VNaN => Ok false
  | VStr _ => Raise TypeError
  end.

Definition cell_gt (lim : Z) (v : cell) : result bool :=
  match v with
  | VInt z => Ok (lim <? z)%Z
  | VFloat q => Ok (Qlt_bool (inject_Z lim) q)
  | VNaN => Ok false
  | VStr _ => Raise TypeError
  end.

(** ** The record sanitizer *)

Section Sanitizer.

(** [repr] of a float: the text Python prints for it.  The pipeline only
    looks for a marker in it and stores it when a float is cast to [str];
    everything below holds whatever this text is. *)
Variable float_repr : Q → string.

(** ["{}".format(val)], which is also [str(val)]. *)
Definition py_format (val : cell) : string :=
  match val with
  | VInt z => pretty z
  | VFloat q => float_repr q
  | VStr s => s
  | VNaN => "nan"
  end.

Definition contains_error (val : cell) : cell :=
  if contains "err" (py_format val) then VNaN else val.

(** [x.astype(t)] on one cell. *)
Definition astype (t : pytype) (v : cell) : result cell :=
  match t with
  | np_float64 =>
      match v with
      | VInt z => finite (round64 (inject_Z z))
      | VFloat _ | VNaN => Ok v
      | VStr s => float_of_string s
      end
  | py_str => Ok (VStr (py_format v))
  | py_object => Ok v
  end.

Definition apply_type_conversion (df : DataFrame) (col_of_interest : list string)
    : result DataFrame :=
  foldR (λ df col,
           if has_column df col then
             match keyword_type_map !! col with
             | Some t => assign_column col col (dtype_of t) (astype t) df
             | None => Raise (KeyError col)
             end
           else Raise (KeyError col))
        col_of_interest df.

Definition apply_limits (df : DataFrame) (col_of_interest : list string)
    : result DataFrame :=
  foldR (λ df col,
           match value_limits !! col with
           | Some (lo, hi) =>
               df1 ←? set_nan_where (cell_lt lo) col df;
               set_nan_where (cell_gt hi) col df1
           | None => Ok df
           end)
        col_of_interest df.

(** The five steps both loaders run on the frame of one file: tag the
    errors, drop the incomplete rows, convert the types, apply the limits,
    drop the incomplete rows. *)
Definition sanitize (col_of_interest : list string) (df_tmp : DataFrame)
    : result DataFrame :=
  let df_tmp := applymap contains_error df_tmp in
  let df_tmp := dropna df_tmp in
  df_tmp ←? apply_type_conversion df_tmp col_of_interest;
  df_tmp ←? apply_limits df_tmp col_of_interest;
  Ok (dropna df_tmp).

End Sanitizer.

(** ** The time-key deriver *)

(** [s.str[a:b]] on one cell of an [object] column: the slice of a [str],
    NaN for anything else. *)
Definition str_slice (a b : nat) (v : cell) : cell :=
  match v with
  | VStr s => VStr (py_slice a b s)
  | _ => VNaN
  end.

(** [df[dst] = df[src].str[a:b].astype(np.float64)]; the [.str] accessor is
    refused on a column that is not of dtype [object]. *)
Definition assign_slice (src dst : string) (a b : nat) (df : DataFrame) : result DataFrame :=
  match column_dtype df src with
  | None => Raise (KeyError src)
  | Some object =>
      assign_column src dst float64
        (λ v, match str_slice a b v with
              | VStr s => float_of_string s
              | w => Ok w
              end) df
  | Some _ => Raise (AttributeError "str")
  end.

Definition add_time_columns (df : DataFrame) : result DataFrame :=
  df ←? assign_slice "YYYYMMDD" "Month" 4 6 df;
  df ←? assign_slice "YYYYMMDD" "Day" 6 8 df;
  assign_slice "hhmmss" "Hour" 0 2 df.

(** ** [groupby(keys, as_index=False).mean()] *)

(** The order of the group keys: numbers by value, strings by code point,
    tuples lexicographically. *)
Definition cell_compare (x y : cell) : comparison :=
  match x, y with
  | VInt a, VInt b => (a ?= b)%Z
  | VInt a, VFloat b => (inject_Z a ?= b)%Q
  | VFloat a, VInt b => (a ?= inject_Z b)%Q
  | VFloat a, VFloat b => (a ?= b)%Q
  | VStr s, VStr t => String.compare s t
  | VNaN, VNaN => Eq
  | (VInt _ | VFloat _), _ => Lt
  | _, (VInt _ | VFloat _) => Gt
  | VStr _, VNaN => Lt
  | VNaN, VStr _ => Gt
  end.

Fixpoint key_compare (k1 k2 : list cell) : comparison :=
  match k1, k2 with
  | [], [] => Eq
  | [], _ :: _ => Lt
  | _ :: _, [] => Gt
  | x :: k1', y :: k2' =>
      match cell_compare x y with
      | Eq => key_compare k1' k2'
      | c => c
      end
  end.

Definition key_eqb (k1 k2 : list cell) : bool :=
  match key_compare k1 k2 with
  | Eq => true
  | _ => false
  end.

(** The key of a row: its cells under the grouping labels. *)
Definition row_key (keys : list string) (r : gmap string cell) : list cell :=
  map (cell_at r) keys.

(** The distinct keys in order of first appearance. *)
Fixpoint distinct_keys (ks : list (list cell)) : list (list cell) :=
  match ks with
  | [] => []
  | k :: ks' => k :: List.filter (λ k', negb (key_eqb k k')) (distinct_keys ks')
  end.

Fixpoint insert_key (k : list cell) (l : list (list cell)) : list (list cell) :=
  match l with
  | [] => [k]
  | k' :: l' =>
      match key_compare k k' with
      | Gt => k' :: insert_key k l'
      | _ => k :: l
      end
  end.

Definition sort_keys (l : list (list cell)) : list (list cell) :=
  foldr insert_key [] l.

(** The numeric value of a cell, if it has one. *)
Definition cell_number (v : cell) : option Q :=
  match v with
  | VInt z => Some (inject_Z z)
  | VFloat q => Some q
  | _ => None
  end.

(** How pandas adds up the values of a group, in the order of the rows:
    one float addition per value (pandas up to 1.2), or the same with the
    rounding error of each addition carried into the next one (Kahan's
    compensated summation, pandas from 1.3 on). *)
Inductive summation := plain_summation | compensated_summation.
Existing Class summation.

Definition plain_sum (qs : list Q) : option Q :=
  fold_left (λ acc val, sumx ← acc; fadd sumx val) qs (Some 0%Q).

Definition compensated_sum (qs : list Q) : option Q :=
  fst <$>
  fold_left (λ acc val,
               '(sumx, compensation) ← acc;
               y ← fsub val compensation;
               t ← fadd sumx y;
               d ← fsub t sumx;
               compensation ← fsub d y;
               Some (t, compensation))
    qs (Some (0%Q, 0%Q)).

(** The float mean of floats: their sum divided by their count. *)
Definition float_mean {sch : summation} (qs : list Q) : option Q :=
  sumx ← match sch with
         | plain_summation => plain_sum qs
         | compensated_summation => compensated_sum qs
         end;
  fdiv sumx (inject_Z (Z.of_nat (length qs))).

(** The mean of a column over a group: missing values are skipped, the
    numbers are taken as floats, and a group with no number has mean NaN. *)
Definition mean {sch : summation} (vs : list cell) : result cell :=
  match omap cell_number vs with
  | [] => Ok VNaN
  | q :: qs =>
      match mapM round64 (q :: qs) with
      | Some fs => finite (float_mean fs)
      | None => Raise (Unsupported "inf")
      end
  end.

Definition is_numeric (dt : dtype) : bool :=
  match dt with
  | int64 | float64 => true
  | object => false
  end.

(** The rows of a group: those whose key is the group's. *)
Definition group_rows (keys : list string) (k : list cell)
    (rs : list (nat * gmap string cell)) : list (nat * gmap string cell) :=
  List.filter (λ ir, key_eqb k (row_key keys ir.2)) rs.

(** The columns that are averaged: the numeric ones that are not keys. *)
Definition value_columns (keys : list string) (df : DataFrame) : list string :=
  (List.filter (λ c, is_numeric c.2 && negb (bool_decide (c.1 ∈ keys))) (columns df)).*1.

Definition group_row {sch : summation} (keys vals : list string)
    (rs : list (nat * gmap string cell)) (k : list cell) : result (gmap string cell) :=
  ms ←? mapR (λ c, m ←? mean (map (λ ir, cell_at ir.2 c) (group_rows keys k rs));
                   Ok (c, m)) vals;
  Ok (list_to_map (zip keys k ++ ms)%list).

(** [df.groupby(keys, as_index=False).mean()]: one row per distinct key, in
    the order of the keys; the key columns come first, then the mean of every
    numeric column, computed in [float64]; columns that are not numeric are
    left out; rows with a missing key belong to no group; the result is
    indexed 0, 1, ... *)
Definition groupby_mean {sch : summation} (keys : list string) (df : DataFrame)
    : result DataFrame :=
  kcs ←? mapR (λ c, match column_dtype df c with
                    | Some dt => Ok (c, dt)
                    | None => Raise (KeyError c)
                    end) keys;
  let rs := List.filter (λ ir, forallb (λ v, negb (isna v)) (row_key keys ir.2)) (rows df) in
  let vals := value_columns keys df in
  let ks := sort_keys (distinct_keys (map (λ ir, row_key keys ir.2) rs)) in
  groups ←? mapR (group_row keys vals rs) ks;
  Ok (mkDataFrame (kcs ++ map (λ c, (c, float64)) vals)%list
        (imap (λ i r, (i, r)) groups)).

(** ** [pd.concat] *)

(** A row extended to the labels [cs]: a label it does not hold is filled
    with NaN. *)
Definition fill_row (cs : list string) (r : gmap string cell) : gmap string cell :=
  foldr (λ c r, match r !! c with
                | Some _ => r
                | None => <[c := VNaN]> r
                end) r cs.

(** [pd.concat([a, b], ignore_index=...)]: the union of the columns, those
    of [a] first, a column of both keeping the dtype it has in [a]; the rows
    of [a] followed by the rows of [b]; with [ignore_index] the rows are
    relabelled 0, 1, ... *)
Definition concat (a b : DataFrame) (ignore_index : bool) : DataFrame :=
  let cs := (columns a ++
             List.filter (λ c, negb (bool_decide (c.1 ∈ column_names a))) (columns b))%list in
  let rs := map (λ ir, (ir.1, fill_row cs.*1 ir.2)) (rows a ++ rows b)%list in
  mkDataFrame cs (if ignore_index then imap (λ i ir, (i, ir.2)) rs else rs).

(** ** The loaders *)

(** What a loader does to the outside world, in order. *)
Inductive event :=
  | EvListdir (directory : string)
  | EvOpen (file : string)
  | EvReadCsv (file : string)
  | EvClose (file : string)
  | EvStdout (text : string).

(** The file system as the loaders see it: [os.listdir], [open], and what
    [pd.read_csv(file, sep=';', dtype={'hhmmss': object}, engine='python')]
    returns for a path. *)
Record FileSystem := mkFileSystem {
  fs_listdir : string → result (list string);
  fs_open : string → result unit;
  fs_read_csv : string → result DataFrame
}.

(** A computation with effects: the events it emitted and its outcome. *)
Definition io (A : Type) : Type := list event * result A.

Definition io_ret {A} (a : A) : io A := ([], Ok a).

Definition io_bind {A B} (m : io A) (f : A → io B) : io B :=
  match m with
  | (t, Ok a) => let '(t', r) := f a in ((t ++ t')%list, r)
  | (t, Raise e) => (t, Raise e)
  end.

Notation "x ←! m ; k" := (io_bind m (λ x, k))
  (at level 20, m at level 100, k at level 200, only parsing, right associativity).

Definition io_lift {A} (r : result A) : io A := ([], r).

Definition io_do {A} (ev : event) (r : result A) : io A := ([ev], r).

Fixpoint foldIO {A S} (f : S → A → io S) (l : list A) (acc : S) : io S :=
  match l with
  | [] => io_ret acc
  | x :: l' => acc' ←! f acc x; foldIO f l' acc'
  end.

Definition stdout_write (text : string) : io unit := io_do (EvStdout text) (Ok tt).

(** [os.path.join(directory, filename)] on a POSIX system. *)
Definition path_join (directory filename : string) : string :=
  if String.prefix "/" filename then filename
  else if String.eqb directory EmptyString || endswith directory "/" then directory +:+ filename
  else directory +:+ "/" +:+ filename.

Definition CR : string := String (ascii_of_nat 13) EmptyString.
Definition LF : string := String (ascii_of_nat 10) EmptyString.

Section Loaders.

Context {sch : summation}.
Variable float_repr : Q → string.
Variable fs : FileSystem.

(** [with open(file) as f: body]: the file is closed on every exit. *)
Definition with_open {A} (file : string) (body : io A) : io A :=
  _ ←! io_do (EvOpen file) (fs_open fs file);
  let '(t, r) := body in ((t ++ [EvClose file])%list, r).

Definition read_csv (file : string) : io DataFrame :=
  io_do (EvReadCsv file) (fs_read_csv fs file).

(** One turn of the loop of [load_dataset_from_directory_partial]. *)
Definition partial_step (directory : string) (col_of_interest : list string)
    (directory_list : list string) (st : DataFrame * nat) (filename : string)
    : io (DataFrame * nat) :=
  let '(big_df, file_cnt) := st in
  if endswith filename ".csv" then
    let file_cnt := S file_cnt in
    let file := path_join directory filename in
    with_open file (
      df_tmp ←! read_csv file;
      df_tmp ←! io_lift (select_columns df_tmp col_of_interest);
      df_tmp ←! io_lift (sanitize float_repr col_of_interest df_tmp);
      let big_df := concat big_df df_tmp true in
      _ ←! stdout_write (pretty file_cnt +:+ " of " +:+ pretty (length directory_list));
      _ ←! stdout_write CR;
      io_ret (big_df, file_cnt))
  else io_ret st.

Definition load_dataset_from_directory_partial (directory : string)
    (col_of_interest : list string) : io DataFrame :=
  let big_df := empty_frame in
  let file_cnt := 0%nat in
  directory_list ←! io_do (EvListdir directory) (fs_listdir fs directory);
  st ←! foldIO (partial_step directory col_of_interest directory_list)
          directory_list (big_df, file_cnt);
  _ ←! stdout_write LF;
  io_ret st.1.

(** One turn of the loop of
    [load_dataset_from_directory_partial_average_hours]. *)
Definition average_hours_step (directory : string) (col_of_interest : list string)
    (directory_list : list string) (st : DataFrame * nat) (filename : string)
    : io (DataFrame * nat) :=
  let '(big_df, file_cnt) := st in
  if endswith filename ".csv" then
    let file_cnt := S file_cnt in
    let file := path_join directory filename in
    with_open file (
      df_tmp ←! read_csv file;
      df_tmp ←! io_lift (select_columns df_tmp col_of_interest);
      df_tmp ←! io_lift (sanitize float_repr col_of_interest df_tmp);
      df_tmp ←! io_lift (add_time_columns df_tmp);
      df_tmp ←! io_lift (groupby_mean ["Hour"; "YYYYMMDD"] df_tmp);
      let big_df := concat big_df df_tmp true in
      _ ←! stdout_write (pretty file_cnt +:+ " of " +:+ pretty (length directory_list));
      _ ←! stdout_write CR;
      io_ret (big_df, file_cnt))
  else io_ret st.

Definition load_dataset_from_directory_partial_average_hours (directory : string)
    (col_of_interest : list string) : io DataFrame :=
  let big_df := empty_frame in
  let file_cnt := 0%nat in
  directory_list ←! io_do (EvListdir directory) (fs_listdir fs directory);
  st ←! foldIO (average_hours_step directory col_of_interest directory_list)
          directory_list (big_df, file_cnt);
  _ ←! stdout_write LF;
  io_ret st.1.

Definition load_multiple_datasets_average_hours (direcotries : list string)
    (col_of_interest : list string) : io DataFrame :=
  let df_ret := empty_frame in
  foldIO (λ df_ret d,
            df_tmp ←! load_dataset_from_directory_partial_average_hours d col_of_interest;
            io_ret (concat df_ret df_tmp false))
         direcotries df_ret.

End Loaders.

(** ** [convert_timestamp_to_string] *)

(** The objects a module-level name can be bound to. *)
Inductive pyobject :=
  | PyModule (name : string)
  | PyClass (name : string)
  | PyFunction (name : string)
  | PyDict
  | PyBuiltin (name : string).

(** The namespace of the module once it is imported: the four [import]
    statements, the two dictionaries and the [def]s, in source order. *)
Definition module_globals : gmap string pyobject :=
  list_to_map
    [ ("np", PyModule "numpy");
      ("os", PyModule "os");
      ("pd", PyModule "pandas");
      ("sys", PyModule "sys");
      ("keyword_type_map", PyDict);
      ("value_limits", PyDict);
      ("apply_type_conversion", PyFunction "apply_type_conversion");
      ("add_time_columns", PyFunction "add_time_columns");
      ("contains_error", PyFunction "contains_error");
      ("apply_limits", PyFunction "apply_limits");
      ("load_dataset_from_directory_partial",
         PyFunction "load_dataset_from_directory_partial");
      ("load_dataset_from_directory_partial_average_hours",
         PyFunction "load_dataset_from_directory_partial_average_hours");
      ("load_multiple_datasets_average_hours",
         PyFunction "load_multiple_datasets_average_hours");
      ("convert_timestamp_to_string", PyFunction "convert_timestamp_to_string");
      ("get_hour", PyFunction "get_hour");
      ("get_yyyymmdd", PyFunction "get_yyyymmdd");
      ("load_pickled_sql_data", PyFunction "load_pickled_sql_data") ].

(** The built-in functions and types of Python 3 (the exception classes,
    builtins too, are left out: none of them is looked up here). *)
Definition builtin_names : list string :=
  [ "abs"; "aiter"; "all"; "anext"; "any"; "ascii"; "bin"; "bool"; "breakpoint";
    "bytearray"; "bytes"; "callable"; "chr"; "classmethod"; "compile"; "complex";
    "delattr"; "dict"; "dir"; "divmod"; "enumerate"; "eval"; "exec"; "filter";
    "float"; "format"; "frozenset"; "getattr"; "globals"; "hasattr"; "hash";
    "help"; "hex"; "id"; "input"; "int"; "isinstance"; "issubclass"; "iter";
    "len"; "list"; "locals"; "map"; "max"; "memoryview"; "min"; "next"; "object";
    "oct"; "open"; "ord"; "pow"; "print"; "property"; "range"; "repr"; "reversed";
    "round"; "set"; "setattr"; "slice"; "sorted"; "staticmethod"; "str"; "sum";
    "super"; "tuple"; "type"; "vars"; "zip"; "__import__" ].

(** The lookup of a free name in a function body: the module's globals,
    then the builtins, else [NameError]. *)
Definition load_global (globals : gmap string pyobject) (name : string) : result pyobject :=
  match globals !! name with
  | Some o => Ok o
  | None =>
      if bool_decide (name ∈ builtin_names) then Ok (PyBuiltin name)
      else Raise (NameError name)
  end.

Record datetime := mkDatetime {
  year : Z; month : Z; day : Z; hour : Z; minute : Z; second : Z
}.

(** The proleptic Gregorian date of a day count from 1970-01-01. *)
Definition civil_from_days (days : Z) : Z * Z * Z :=
  let z := (days + 719468)%Z in
  let era := (z / 146097)%Z in
  let doe := (z - era * 146097)%Z in
  let yoe := ((doe - doe / 1460 + doe / 36524 - doe / 146096) / 365)%Z in
  let doy := (doe - (365 * yoe + yoe / 4 - yoe / 100))%Z in
  let mp := ((5 * doy + 2) / 153)%Z in
  let d := (doy - (153 * mp + 2) / 5 + 1)%Z in
  let m := (if (mp <? 10)%Z then mp + 3 else mp - 9)%Z in
  ((if (m <=? 2)%Z then yoe + era * 400 + 1 else yoe + era * 400)%Z, m, d).

(** [unixtime + 800 + 2639]: exact on an [int], two float additions on a
    float; a [str] cannot be added to a number. *)
Definition shift_timestamp (unixtime : cell) : result cell :=
  match unixtime with
  | VInt z => Ok (VInt (z + 800 + 2639))
  | VFloat q => finite (x ← fadd q 800; fadd x 2639)
  | VNaN => Ok VNaN
  | VStr _ => Raise TypeError
  end.

(** The integer nearest to a rational, ties to even. *)
Definition round_to_even (q : Q) : Z :=
  (Z.sgn (Qnum q) * nearest_even (Z.abs (Qnum q)) (Zpos (Qden q)))%Z.

(** The whole seconds [utcfromtimestamp] reads from its argument.  A float
    is split into its integer and fractional parts, the fraction is taken
    to microseconds with one float multiplication and rounded to the nearest
    integer, ties to even; a full million of them carries into the seconds,
    a negative number of them borrows from the seconds.  The microseconds
    themselves are not printed by [strftime]. *)
Definition timestamp_seconds (t : cell) : result Z :=
  match t with
  | VInt z => Ok z
  | VFloat q =>
      let intpart := Z.quot (Qnum q) (Zpos (Qden q)) in
      match round64 ((q - inject_Z intpart) * 1000000) with
      | Some floatpart =>
          let us := round_to_even floatpart in
          if (1000000 <=? us)%Z then Ok (intpart + 1)%Z
          else if (us <? 0)%Z then Ok (intpart - 1)%Z
          else Ok intpart
      | None => Raise (Unsupported "inf")
      end
  | VNaN => Raise (ValueError "cannot convert float NaN to integer")
  | VStr _ => Raise TypeError
  end.

(** [datetime.utcfromtimestamp(t)] for a whole number of seconds. *)
Definition utcfromtimestamp (t : Z) : result datetime :=
  let '(y, m, d) := civil_from_days (t / 86400) in
  let s := (t mod 86400)%Z in
  if ((1 <=? y) && (y <=? 9999))%Z
  then Ok (mkDatetime y m d (s / 3600) (s mod 3600 / 60) (s mod 60))
  else Raise (ValueError "year is out of range").

Definition pad2 (n : Z) : string :=
  if (n <? 10)%Z then "0" +:+ pretty n else pretty n.

(** [dt.strftime('%Y-%m-%d %H:%M:%S')], as the C library of Linux prints
    it: the year without leading zeros, so with fewer than four digits
    below the year 1000, the other fields with two digits. *)
Definition strftime (dt : datetime) : string :=
  pretty (year dt) +:+ "-" +:+ pad2 (month dt) +:+ "-" +:+ pad2 (day dt) +:+ " "
  +:+ pad2 (hour dt) +:+ ":" +:+ pad2 (minute dt) +:+ ":" +:+ pad2 (second dt).

(** The function as written: the name [datetime] is looked up when the body
    runs, and [utcfromtimestamp] is an attribute of the class
    [datetime.datetime]. *)
Definition convert_timestamp_to_string (globals : gmap string pyobject) (unixtime : cell)
    : result string :=
  o ←? load_global globals "datetime";
  match o with
  | PyClass "datetime.datetime" =>
      t ←? shift_timestamp unixtime;
      seconds ←? timestamp_seconds t;
      dt ←? utcfromtimestamp seconds;
      Ok (strftime dt)
  | _ => Raise (AttributeError "utcfromtimestamp")
  end.

(** ** [get_hour], [get_yyyymmdd] and [load_pickled_sql_data] *)

(** [int(s)] for a text: optional white space around an optional sign and
    decimal digits.  The digit separator [_] is not covered: it is reported
    as [Unsupported]. *)
Definition int_of_string (s : string) : result Z :=
  let '(neg, r) := read_sign (strip (list_ascii_of_string s)) in
  if existsb (Ascii.eqb "_") r then Raise (Unsupported "_")
  else
    let '(v, n, rest) := read_digits r 0 0 in
    match n, rest with
    | S _, [] => Ok (if neg then (- v)%Z else v)
    | _, _ => Raise (ValueError s)
    end.

Definition get_hour (tstring : string) : result Z :=
  int_of_string (py_slice 11 13 tstring).

Definition get_yyyymmdd (tstring : string) : result Z :=
  int_of_string (py_slice 0 4 tstring +:+ py_slice 5 7 tstring +:+ py_slice 8 10 tstring).

(** The file [load_pickled_sql_data] opens, whatever its argument is. *)
Definition pickle_path : string := "C:\workspace\testfetch.pckl".

Section PickledImport.

Variable fs : FileSystem.

(** What [pickle.load(fin)] returns, and what lines 188 to 201 make of it
    (the array, the renamed frame, the time columns and the hourly means):
    [numpy] arrays and unpickling are not modelled, the two are left open,
    and what is stated of the function holds whatever they are. *)
Variable unpickled : Type.
Variable pickle_load : pyobject → io unpickled.
Variable frame_of_unpickled : unpickled → io DataFrame.

Definition load_pickled_sql_data (globals : gmap string pyobject) (input_file : string)
    : io DataFrame :=
  data ←! with_open fs pickle_path (
            pickle ←! io_lift (load_global globals "pickle");
            pickle_load pickle);
  frame_of_unpickled data.

End PickledImport.

(** * Vocabulary of the specification *)

(** ** Rows *)

(** A frame operation acts row by row as [g] when it keeps the labels and
    sends the cells of every row through [g]. *)
Definition rowwise (g : gmap string cell → result (gmap string cell))
    (rs rs' : list (nat * gmap string cell)) : Prop :=
  Forall2 (λ ir ir', ir'.1 = ir.1 ∧ g ir.2 = Ok ir'.2) rs rs'.

(** A value is within a declared range, or missing. *)
Definition within (lo hi : Z) (v : cell) : Prop :=
  v = VNaN ∨ ∃ q, cell_number v = Some q ∧ (inject_Z lo <= q <= inject_Z hi)%Q.

(** A cell already has the type the catalog declares. *)
Definition has_type (t : pytype) (v : cell) : Prop :=
  match t with
  | np_float64 => ∃ q, v = VFloat q
  | py_str => ∃ s, v = VStr s
  | py_object => True
  end.

Section RowVocabulary.

Variable float_repr : Q → string.

(** What [apply_type_conversion] does to one row. *)
Definition convert_row (cols : list string) (r : gmap string cell)
    : result (gmap string cell) :=
  foldR (λ r col,
           match keyword_type_map !! col with
           | Some t => v ←? astype float_repr t (cell_at r col); Ok (<[col := v]> r)
           | None => Raise (KeyError col)
           end) cols r.

(** What [apply_limits] does to one row. *)
Definition limit_row (cols : list string) (r : gmap string cell)
    : result (gmap string cell) :=
  foldR (λ r col,
           match value_limits !! col with
           | Some (lo, hi) =>
               b ←? cell_lt lo (cell_at r col);
               let r1 := if b : bool then nan_row r else r in
               b ←? cell_gt hi (cell_at r1 col);
               Ok (if b : bool then nan_row r1 else r1)
           | None => Ok r
           end) cols r.

(** What [sanitize] does to one row of a frame with column labels [names]:
    [None] when the row is dropped. *)
Definition sanitize_row (names cols : list string) (r : gmap string cell)
    : result (option (gmap string cell)) :=
  let r1 := contains_error float_repr <$> r in
  if row_complete names r1 then
    r2 ←? convert_row cols r1;
    r3 ←? limit_row cols r2;
    Ok (if row_complete names r3 then Some r3 else None)
  else Ok None.

(** The row of the cleaned batch that a row of the raw frame becomes, if it
    survives. *)
Definition cleaned_row (names cols : list string) (ir : nat * gmap string cell)
    : option (nat * gmap string cell) :=
  match sanitize_row names cols ir.2 with
  | Ok (Some r') => Some (ir.1, r')
  | _ => None
  end.

(** A row with no error marker and no missing value, whose selected cells
    have the declared types and lie within the declared ranges. *)
Definition clean_row (names cols : list string) (r : gmap string cell) : Prop :=
  (∀ c v, r !! c = Some v →
     contains "err" (py_format float_repr v) = false ∧ isna v = false)
  ∧ (∀ c, c ∈ names → is_Some (r !! c))
  ∧ (∀ c t, c ∈ cols → keyword_type_map !! c = Some t → has_type t (cell_at r c))
  ∧ (∀ c lo hi, c ∈ cols → value_limits !! c = Some (lo, hi) →
       ∃ q, cell_at r c = VFloat q ∧ (inject_Z lo <= q <= inject_Z hi)%Q).

(** An already-clean batch over the selected columns [cols]: the selected
    columns are columns of the batch, known to the catalog and of the dtype
    the catalog declares, and every row is clean. *)
Definition clean_frame (cols : list string) (df : DataFrame) : Prop :=
  (∀ c, c ∈ cols → c ∈ column_names df ∧ is_Some (keyword_type_map !! c))
  ∧ (∀ c dt t, (c, dt) ∈ columns df → c ∈ cols →
       keyword_type_map !! c = Some t → dt = dtype_of t)
  ∧ (∀ i r, (i, r) ∈ rows df → clean_row (column_names df) cols r).

End RowVocabulary.

(** ** Frames *)

(** Every row holds a cell under every column label. *)
Definition wf_frame (df : DataFrame) : Prop :=
  Forall (λ r : gmap string cell, ∀ c, c ∈ column_names df → is_Some (r !! c))
    (rows df).*2.

(** A frame that is either [pd.DataFrame()] or has the column labels [N]. *)
Definition shaped (N : list string) (df : DataFrame) : Prop :=
  wf_frame df ∧ (column_names df = N ∨ (columns df = [] ∧ rows df = [])).

(** The files a loader reads: the names of the listing that end in ".csv",
    in the order of the listing. *)
Definition csv_files (directory_list : list string) : list string :=
  List.filter (λ f, endswith f ".csv") directory_list.

Section FileVocabulary.

Context {sch : summation}.
Variable float_repr : Q → string.
Variable fs : FileSystem.

(** The cleaned batch of one file. *)
Definition file_frame (cols : list string) (file : string) : result DataFrame :=
  _ ←? fs_open fs file;
  df ←? fs_read_csv fs file;
  df ←? select_columns df cols;
  sanitize float_repr cols df.

(** The aggregated batch of one file. *)
Definition file_frame_average_hours (cols : list string) (file : string)
    : result DataFrame :=
  df ←? file_frame cols file;
  df ←? add_time_columns df;
  groupby_mean ["Hour"; "YYYYMMDD"] df.

End FileVocabulary.

(** ** The time key and the groups *)

(** The aggregation key of the loaders. *)
Definition hour_keys : list string := ["Hour"; "YYYYMMDD"].

Definition all_digits (s : string) : bool :=
  forallb is_digit (list_ascii_of_string s).

(** The number a string of decimal digits denotes. *)
Definition digits_value (s : string) : Z :=
  fold_left (λ acc c, 10 * acc + digit_value c)%Z (list_ascii_of_string s) 0%Z.

(** The number in [s[a:b]] for a [str] cell [s]. *)
Definition slice_number (a b : nat) (v : cell) : cell :=
  match v with
  | VStr s => VFloat (inject_Z (digits_value (py_slice a b s)))
  | _ => VNaN
  end.

(** A row with its three derived columns. *)
Definition with_time_key (r : gmap string cell) : gmap string cell :=
  <["Hour" := slice_number 0 2 (cell_at r "hhmmss")]>
    (<["Day" := slice_number 6 8 (cell_at r "YYYYMMDD")]>
       (<["Month" := slice_number 4 6 (cell_at r "YYYYMMDD")]> r)).

(** The date and time cells of a row are an 8-character and a 6-character
    string with digits in the three slices. *)
Definition well_timed (r : gmap string cell) : Prop :=
  ∃ d t, cell_at r "YYYYMMDD" = VStr d ∧ cell_at r "hhmmss" = VStr t
         ∧ String.length d = 8%nat ∧ String.length t = 6%nat
         ∧ all_digits (py_slice 4 6 d) = true
         ∧ all_digits (py_slice 6 8 d) = true
         ∧ all_digits (py_slice 0 2 t) = true.




(** A rational that is a float: rounding leaves it as it is. *)
Definition is_float64 (q : Q) : Prop := ∃ q', round64 q = Some q' ∧ q' == q.



(** No two keys of the list are the same. *)
Fixpoint pairwise_distinct (l : list (list cell)) : Prop :=
  match l with
  | [] => True
  | k :: l' => Forall (λ k', key_eqb k k' = false) l' ∧ pairwise_distinct l'
  end.

(** The dtype the catalog gives a column. *)
Definition catalog_dtype (c : string) : dtype :=
  match keyword_type_map !! c with
  | Some t => dtype_of t
  | None => object
  end.

(** The columns of a cleaned batch over the selected columns [cols]. *)
Definition cleaned_columns (cols : list string) : list (string * dtype) :=
  map (λ c, (c, catalog_dtype c)) cols.

(** The columns once the time key is added. *)
Definition timed_columns (cols : list string) : list (string * dtype) :=
  set_dtype "Hour" float64
    (set_dtype "Day" float64 (set_dtype "Month" float64 (cleaned_columns cols))).

(** The column labels of an aggregated batch. *)
Definition aggregated_names (cols : list string) : list string :=
  (hour_keys ++
   value_columns hour_keys (mkDataFrame (timed_columns cols) []))%list.

(** ** Vocabulary of the further properties *)

(** The row lies within the limits of every selected range column: each
    of its cells under such a column is missing or a number between the two
    limits, both included. *)
Definition row_within (cols : list string) (r : gmap string cell) : Prop :=
  ∀ c lo hi, c ∈ cols → value_limits !! c = Some (lo, hi) → within lo hi (cell_at r c).

(** ** Traces *)

(** The events of one file that was loaded: [k] files read so far, [n]
    names in the listing. *)
Definition file_events (k n : nat) (file : string) : list event :=
  [EvOpen file; EvReadCsv file; EvStdout (pretty k +:+ " of " +:+ pretty n);
   EvStdout CR; EvClose file].

(** The files a trace opens, reads or closes. *)
Definition touched (tr : list event) : list string :=
  omap (λ e, match e with
             | EvOpen p | EvReadCsv p | EvClose p => Some p
             | _ => None
             end) tr.

Definition opened (tr : list event) : list string :=
  omap (λ e, match e with EvOpen p => Some p | _ => None end) tr.

Definition closed (tr : list event) : list string :=
  omap (λ e, match e with EvClose p => Some p | _ => None end) tr.

Definition open_succeeds (fs : FileSystem) (file : string) : bool :=
  match fs_open fs file with
  | Ok _ => true
  | Raise _ => false
  end.

(** One turn of the loop of either loader, by cases on what happens to the
    file; [F] is what the file contributes once it is open. *)
Definition loader_step (fs : FileSystem) (F : string → result DataFrame)
    (directory : string) (directory_list : list string) (st : DataFrame * nat)
    (filename : string) : io (DataFrame * nat) :=
  if endswith filename ".csv" then
    let file := path_join directory filename in
    match fs_open fs file with
    | Raise e => ([EvOpen file], Raise e)
    | Ok _ =>
        match F file with
        | Ok df =>
            (file_events (S st.2) (length directory_list) file,
             Ok (concat st.1 df true, S st.2))
        | Raise e => ([EvOpen file; EvReadCsv file; EvClose file], Raise e)
        end
    end
  else ([], Ok st).

(** Either loader, with [F] for what a file contributes. *)
Definition loader_view (fs : FileSystem) (F : string → result DataFrame)
    (directory : string) : io DataFrame :=
  directory_list ←! io_do (EvListdir directory) (fs_listdir fs directory);
  st ←! foldIO (loader_step fs F directory directory_list) directory_list
          (empty_frame, 0%nat);
  _ ←! stdout_write LF;
  io_ret st.1.

(** The keys of a list come in strictly ascending order. *)
Fixpoint ascending (l : list (list cell)) : Prop :=
  match l with
  | k :: l' =>
      match l' with
      | k' :: _ => key_compare k k' = Lt
      | [] => True
      end ∧ ascending l'
  | [] => True
  end.



(** ** Example data *)

(** A decimal rendering of a float, used to run the pipeline on examples:
    the integer part, a point, and the decimal digits up to the sixth. *)
Definition decimal_repr (q : Q) : string :=
  let n := Qnum q in
  let d := Zpos (Qden q) in
  let a := Z.abs n in
  let frac := ((a mod d) * 1000000 / d)%Z in
  (if (n <? 0)%Z then "-" else EmptyString) +:+ pretty (a / d)%Z +:+ "." +:+ pretty frac.

Definition example_cols : list string :=
  ["AEZ-P_SUM"; "R_BauBGa-P_SUM"; "YYYYMMDD"; "hhmmss"].

(** A row as [pd.read_csv] returns it: the measurements of a column that
    holds an error marker somewhere are text, the date is an integer, the
    time of day is text. *)
Definition raw_row (aez bga : string) (date : Z) (time : string) : gmap string cell :=
  list_to_map [("AEZ-P_SUM", VStr aez); ("R_BauBGa-P_SUM", VStr bga);
               ("YYYYMMDD", VInt date); ("hhmmss", VStr time)].

Definition raw_columns : list (string * dtype) :=
  [("AEZ-P_SUM", object); ("R_BauBGa-P_SUM", object);
   ("YYYYMMDD", int64); ("hhmmss", object)].

Definition example_raw : DataFrame :=
  mkDataFrame raw_columns
    [ (0%nat, raw_row "10.0" "30.0" 20230615 "093000");
      (1%nat, raw_row "20.0" "31.0" 20230615 "094500");
      (2%nat, raw_row "err_timeout" "31.0" 20230615 "094500");
      (3%nat, raw_row "80.0" "31.0" 20230615 "094500");
      (4%nat, raw_row "30.0" "31.0" 20230615 "084500") ].

Definition example_raw_b : DataFrame :=
  mkDataFrame raw_columns [ (0%nat, raw_row "50.0" "30.0" 20230615 "093000") ].

Definition cleaned_row_of (aez bga : Q) (date time : string) : gmap string cell :=
  list_to_map [("AEZ-P_SUM", VFloat aez); ("R_BauBGa-P_SUM", VFloat bga);
               ("YYYYMMDD", VStr date); ("hhmmss", VStr time)].

Definition example_cleaned : DataFrame :=
  mkDataFrame
    [("AEZ-P_SUM", float64); ("R_BauBGa-P_SUM", float64);
     ("YYYYMMDD", object); ("hhmmss", object)]
    [ (0%nat, cleaned_row_of 10 30 "20230615" "093000");
      (1%nat, cleaned_row_of 20 31 "20230615" "094500");
      (4%nat, cleaned_row_of 30 31 "20230615" "084500") ].

Definition aggregated_row_of (h : Q) (date : string) (aez bga m d : Q)
    : gmap string cell :=
  list_to_map [("Hour", VFloat h); ("YYYYMMDD", VStr date); ("AEZ-P_SUM", VFloat aez);
               ("R_BauBGa-P_SUM", VFloat bga); ("Month", VFloat m); ("Day", VFloat d)].

Definition aggregated_columns : list (string * dtype) :=
  [("Hour", float64); ("YYYYMMDD", object); ("AEZ-P_SUM", float64);
   ("R_BauBGa-P_SUM", float64); ("Month", float64); ("Day", float64)].

Definition example_aggregated : DataFrame :=
  mkDataFrame aggregated_columns
    [ (0%nat, aggregated_row_of 8 "20230615" 30 31 6 15);
      (1%nat, aggregated_row_of 9 "20230615" 15 (61 # 2) 6 15) ].

(** Two directories: "dirA" holds two ".csv" files and a text file, "dirB"
    holds nothing. *)
Definition example_fs : FileSystem :=
  mkFileSystem
    (λ d, if String.eqb d "dirA" then Ok ["a.csv"; "notes.txt"; "b.csv"]
          else if String.eqb d "dirB" then Ok []
          else Raise (OSError d))
    (λ _, Ok tt)
    (λ f, if String.eqb f "dirA/a.csv" then Ok example_raw
          else if String.eqb f "dirA/b.csv" then Ok example_raw_b
          else Raise (OSError f)).

(** The frame of an outcome, for the examples. *)
Definition frame_of (r : result DataFrame) : DataFrame :=
  match r with
  | Ok df => df
  | Raise _ => empty_frame
  end.

(** The cleaned example with its time key. *)
Definition example_timed : DataFrame :=
  mkDataFrame
    (columns example_cleaned ++ [("Month", float64); ("Day", float64); ("Hour", float64)])%list
    (map (λ ir, (ir.1, with_time_key ir.2)) (rows example_cleaned)).

(** A batch that is already clean. *)
Definition clean_example : DataFrame :=
  mkDataFrame [("AEZ-P_SUM", float64); ("YYYYMMDD", object)]
    [ (0%nat, list_to_map [("AEZ-P_SUM", VFloat 10); ("YYYYMMDD", VStr "20230615")]) ].

(** A file with a column the catalog does not list. *)
Definition unlisted_frame : DataFrame :=
  mkDataFrame [("AEZ-P_SUM", float64); ("Sensor_X", float64)]
    [ (0%nat, list_to_map [("AEZ-P_SUM", VFloat 10); ("Sensor_X", VFloat 1)]) ].

Definition unlisted_fs : FileSystem :=
  mkFileSystem
    (λ d, if String.eqb d "data" then Ok ["day1.csv"] else Ok [])
    (λ _, Ok tt)
    (λ _, Ok unlisted_frame).






(** The pandas of the examples adds the values up plainly. *)
Definition example_summation : summation := plain_summation.

(** * Properties *)

(** ** Row-wise views of the frame operations *)



Lemma rbind_Ok {A B} (m : result A) (f : A → result B) (b : B) :
  rbind m f = Ok b → ∃ a, m = Ok a ∧ f a = Ok b.
Proof. destruct m as [a|e]; simpl; [eauto | discriminate]. Qed.

Ltac inv_ok :=
  repeat match goal with
  | H : rbind _ _ = Ok _ |- _ =>
      let a := fresh "a" in let Ha := fresh "Ha" in
      apply rbind_Ok in H as (a & Ha & H)
  | H : Ok _ = Ok _ |- _ => injection H as H
  | H : Raise _ = Ok _ |- _ => discriminate H
  end.

Lemma mapR_Forall2 {A B} (f : A → result B) (l : list A) (l' : list B) :
  mapR f l = Ok l' → Forall2 (λ x y, f x = Ok y) l l'.
Proof.
  revert l'. induction l as [|x l IH]; intros l' H; simpl in H.
  - inv_ok. subst. constructor.
  - inv_ok. subst. constructor; auto.
Qed.

Lemma Forall2_mapR {A B} (f : A → result B) (l : list A) (l' : list B) :
  Forall2 (λ x y, f x = Ok y) l l' → mapR f l = Ok l'.
Proof.
  induction 1 as [|x y l l' Hxy _ IH]; simpl; [done|].
  by rewrite Hxy, IH.
Qed.

Lemma rowwise_compose g h rs1 rs2 rs3 :
  rowwise g rs1 rs2 → rowwise h rs2 rs3 →
  rowwise (λ r, rbind (g r) h) rs1 rs3.
Proof.
  unfold rowwise. intros H1 H2.
  eapply Forall2_trans; [|exact H1|exact H2].
  intros ir1 ir2 ir3 [E1 G1] [E2 G2]. split; [congruence|].
  by rewrite G1.
Qed.

Lemma rowwise_refl rs : rowwise Ok rs rs.
Proof. unfold rowwise. induction rs; constructor; auto. Qed.

Lemma rowwise_ext g h rs rs' :
  (∀ r, g r = h r) → rowwise g rs rs' → rowwise h rs rs'.
Proof.
  unfold rowwise. intros E H. eapply Forall2_impl; [exact H|].
  intros ir ir' [? ?]. split; [done|]. by rewrite <- E.
Qed.

(** A fold of row-wise steps is row-wise. *)
Lemma rowwise_foldR (step : DataFrame → string → result DataFrame)
    (g : string → gmap string cell → result (gmap string cell)) cols :
  (∀ df col df', step df col = Ok df' → rowwise (g col) (rows df) (rows df')) →
  ∀ df df', foldR step cols df = Ok df' →
  rowwise (foldR (λ r c, g c r) cols) (rows df) (rows df').
Proof.
  intros Hstep. induction cols as [|c cols IH]; intros df df' H; simpl in H.
  - inv_ok. subst. apply rowwise_refl.
  - inv_ok. eapply rowwise_ext; [|eapply rowwise_compose; [eapply Hstep, Ha|eapply IH, H]].
    done.
Qed.

Lemma assign_column_rows src dst dt f df df' :
  assign_column src dst dt f df = Ok df' →
  rowwise (λ r, v ←? f (cell_at r src); Ok (<[dst := v]> r)) (rows df) (rows df')
  ∧ columns df' = set_dtype dst dt (columns df).
Proof.
  unfold assign_column. destruct (has_column df src); [|discriminate].
  intros H. inv_ok. subst df'. simpl. split; [|done].
  apply mapR_Forall2 in Ha. unfold rowwise.
  eapply Forall2_impl; [exact Ha|]. intros ir ir' E. simpl in E.
  inv_ok. subst ir'. simpl. by rewrite Ha0.
Qed.

Lemma set_nan_where_rows p col df df' :
  set_nan_where p col df = Ok df' →
  rowwise (λ r, b ←? p (cell_at r col); Ok (if b : bool then nan_row r else r))
    (rows df) (rows df')
  ∧ columns df' = columns df.
Proof.
  unfold set_nan_where. destruct (has_column df col); [|discriminate].
  intros H. inv_ok. subst df'. simpl. split; [|done].
  apply mapR_Forall2 in Ha. unfold rowwise.
  eapply Forall2_impl; [exact Ha|]. intros ir ir' E. simpl in E.
  inv_ok. subst ir'. rewrite Ha0. simpl. by destruct a0, ir.
Qed.

Lemma set_dtype_names col dt cs :
  col ∈ cs.*1 → (set_dtype col dt cs).*1 = cs.*1.
Proof.
  intros Hin. unfold set_dtype. rewrite bool_decide_eq_true_2 by done.
  clear Hin. induction cs as [|[c d] cs IH]; [done|].
  change ((if bool_decide (c = col) then (col, dt) else (c, d)).1 ::
          (map (λ c, if bool_decide (c.1 = col) then (col, dt) else c) cs).*1
          = c :: cs.*1).
  rewrite IH. f_equal. by case_bool_decide.
Qed.

Lemma has_column_true df col : has_column df col = true ↔ col ∈ column_names df.
Proof. unfold has_column. apply bool_decide_eq_true. Qed.

Section SanitizerFacts.

Variable float_repr : Q → string.

Lemma apply_type_conversion_rows cols : ∀ df df',
  apply_type_conversion float_repr df cols = Ok df' →
  rowwise (convert_row float_repr cols) (rows df) (rows df').
Proof.
  unfold apply_type_conversion, convert_row. apply rowwise_foldR.
  intros df col df' H.
  destruct (has_column df col); [|discriminate].
  destruct (keyword_type_map !! col) as [t|]; [|discriminate].
  by apply assign_column_rows in H as [H _].
Qed.

Lemma apply_type_conversion_names cols : ∀ df df',
  apply_type_conversion float_repr df cols = Ok df' →
  column_names df' = column_names df.
Proof.
  unfold apply_type_conversion.
  induction cols as [|c cols IH]; intros df df' H; simpl in H.
  - by inv_ok; subst.
  - inv_ok. rewrite (IH _ _ H).
    destruct (has_column df c) eqn:Hc; [|discriminate].
    destruct (keyword_type_map !! c) as [t|]; [|discriminate].
    apply assign_column_rows in Ha as [_ Ha]. unfold column_names. rewrite Ha.
    apply set_dtype_names. by apply has_column_true.
Qed.

Lemma apply_limits_rows cols : ∀ df df',
  apply_limits df cols = Ok df' →
  rowwise (limit_row cols) (rows df) (rows df').
Proof.
  unfold apply_limits, limit_row. apply rowwise_foldR.
  intros df col df' H.
  destruct (value_limits !! col) as [[lo hi]|].
  - inv_ok. apply set_nan_where_rows in Ha as [Ha _].
    apply set_nan_where_rows in H as [H _].
    eapply rowwise_ext; [|eapply rowwise_compose; [exact Ha|exact H]].
    intros r. simpl. by destruct (cell_lt lo (cell_at r col)).
  - inv_ok. subst. apply rowwise_refl.
Qed.

Lemma apply_limits_columns cols : ∀ df df',
  apply_limits df cols = Ok df' → columns df' = columns df.
Proof.
  unfold apply_limits.
  induction cols as [|c cols IH]; intros df df' H; simpl in H.
  - by inv_ok; subst.
  - inv_ok. rewrite (IH _ _ H).
    destruct (value_limits !! c) as [[lo hi]|].
    + inv_ok. apply set_nan_where_rows in Ha as [_ Ha].
      apply set_nan_where_rows in Ha0 as [_ Ha0]. congruence.
    + by inv_ok; subst.
Qed.

Lemma sanitize_rows_aux names cols (l0 l3 l4 : list (nat * gmap string cell)) :
  rowwise (convert_row float_repr cols)
    (List.filter (λ ir, row_complete names ir.2)
       (map (λ ir, (ir.1, contains_error float_repr <$> ir.2)) l0)) l3 →
  rowwise (limit_row cols) l3 l4 →
  List.filter (λ ir, row_complete names ir.2) l4 = omap (cleaned_row float_repr names cols) l0.
Proof.
  revert l3 l4. induction l0 as [|[i r] l0 IH]; intros l3 l4 H3 H4; simpl in *.
  - inversion H3; subst. inversion H4; subst. done.
  - unfold cleaned_row at 1, sanitize_row. simpl.
    destruct (row_complete names (contains_error float_repr <$> r)) eqn:Hc.
    + inversion H3 as [|? [i3 r3] ? l3' [E3 C3] H3']; subst.
      inversion H4 as [|? [i4 r4] ? l4' [E4 C4] H4']; subst.
      simpl in *. subst. rewrite C3. simpl. rewrite C4. simpl.
      destruct (row_complete names r4); simpl; rewrite (IH _ _ H3' H4'); done.
    + by apply IH with l3.
Qed.

Lemma sanitize_rows cols df out :
  sanitize float_repr cols df = Ok out →
  rows out = omap (cleaned_row float_repr (column_names df) cols) (rows df)
  ∧ column_names out = column_names df.
Proof.
  unfold sanitize. intros H. inv_ok. subst out.
  pose proof (apply_type_conversion_rows _ _ _ Ha) as H3.
  pose proof (apply_type_conversion_names _ _ _ Ha) as N3.
  pose proof (apply_limits_rows _ _ _ Ha0) as H4.
  pose proof (apply_limits_columns _ _ _ Ha0) as N4.
  assert (column_names a0 = column_names df) as N.
  { unfold column_names in *. rewrite N4. exact N3. }
  split; [|exact N].
  simpl. rewrite N. by eapply sanitize_rows_aux.
Qed.

End SanitizerFacts.

(** ** Facts about single rows *)

Lemma cell_at_lookup (r : gmap string cell) c v :
  r !! c = Some v → cell_at r c = v.
Proof. unfold cell_at. intros H. by rewrite lookup_total_alt, H. Qed.

Lemma cell_at_present (r : gmap string cell) c :
  isna (cell_at r c) = false → r !! c = Some (cell_at r c).
Proof.
  unfold cell_at. rewrite lookup_total_alt.
  destruct (r !! c) as [v|]; simpl; [done|discriminate].
Qed.

Lemma cell_at_insert (r : gmap string cell) c v : cell_at (<[c := v]> r) c = v.
Proof. apply cell_at_lookup, lookup_insert_eq. Qed.

Lemma cell_at_insert_ne (r : gmap string cell) c c' v :
  c ≠ c' → cell_at (<[c := v]> r) c' = cell_at r c'.
Proof. intros H. unfold cell_at. by rewrite !lookup_total_alt, lookup_insert_ne. Qed.

Lemma cell_at_nan_row r c : cell_at (nan_row r) c = VNaN.
Proof.
  unfold cell_at, nan_row. rewrite lookup_total_alt, lookup_fmap.
  by destruct (r !! c).
Qed.

Lemma cell_at_fmap (f : cell → cell) (r : gmap string cell) c :
  f VNaN = VNaN → cell_at (f <$> r) c = f (cell_at r c).
Proof.
  intros Hf. unfold cell_at. rewrite !lookup_total_alt, lookup_fmap.
  by destruct (r !! c).
Qed.

Lemma row_complete_spec names (r : gmap string cell) :
  row_complete names r = true ↔ ∀ c, c ∈ names → isna (cell_at r c) = false.
Proof.
  unfold row_complete. rewrite forallb_forall. split.
  - intros H c Hc. apply negb_true_iff, H. by apply list_elem_of_In.
  - intros H c Hc. apply negb_true_iff, H. by apply list_elem_of_In.
Qed.

Lemma Qlt_bool_false x y : Qlt_bool x y = false → (y <= x)%Q.
Proof.
  unfold Qlt_bool. intros H. apply negb_false_iff in H. by apply Qle_bool_iff.
Qed.

Lemma Qlt_bool_true x y : Qlt_bool x y = true → (x < y)%Q.
Proof.
  unfold Qlt_bool. intros H. apply negb_true_iff in H.
  apply Qnot_le_lt. intros Hle. apply Qle_bool_iff in Hle. congruence.
Qed.

Lemma limit_row_cases cols : ∀ r r',
  limit_row cols r = Ok r' → r' = r ∨ r' = nan_row r.
Proof.
  assert (Hnn : ∀ r, nan_row (nan_row r) = nan_row r).
  { intros r. unfold nan_row. by rewrite <- map_fmap_compose. }
  unfold limit_row. induction cols as [|c cols IH]; intros r r' H; simpl in H.
  - inv_ok. by left.
  - inv_ok. destruct (IH _ _ H) as [->| ->]; clear IH H.
    + destruct (value_limits !! c) as [[lo hi]|]; inv_ok; subst.
      * destruct a0, a1; rewrite ?Hnn; auto.
      * auto.
    + destruct (value_limits !! c) as [[lo hi]|]; inv_ok; subst.
      * destruct a0, a1; rewrite ?Hnn; auto.
      * auto.
Qed.

Lemma within_limit_row lo hi cols r r' c :
  limit_row cols r = Ok r' → within lo hi (cell_at r c) → within lo hi (cell_at r' c).
Proof.
  intros H Hw. destruct (limit_row_cases _ _ _ H) as [->| ->]; [done|].
  left. apply cell_at_nan_row.
Qed.

Lemma limit_row_within cols c lo hi : ∀ r r',
  limit_row cols r = Ok r' → c ∈ cols → value_limits !! c = Some (lo, hi) →
  within lo hi (cell_at r' c).
Proof.
  induction cols as [|c0 cols IH]; intros r r' H Hc Hl.
  - by apply elem_of_nil in Hc.
  - change (limit_row (c0 :: cols) r) with
      (r1 ←? (match value_limits !! c0 with
              | Some (lo, hi) =>
                  b ←? cell_lt lo (cell_at r c0);
                  let r1 := if b : bool then nan_row r else r in
                  b ←? cell_gt hi (cell_at r1 c0);
                  Ok (if b : bool then nan_row r1 else r1)
              | None => Ok r
              end); limit_row cols r1) in H.
    apply rbind_Ok in H as (r1 & Hstep & H).
    destruct (decide (c = c0)) as [->|Hne].
    + eapply within_limit_row; [exact H|]. rewrite Hl in Hstep. clear H IH Hc.
      apply rbind_Ok in Hstep as (b1 & Hb1 & Hstep). simpl in Hstep.
      apply rbind_Ok in Hstep as (b2 & Hb2 & Hstep). injection Hstep as <-.
      destruct b2; [left; apply cell_at_nan_row|].
      destruct b1; [left; apply cell_at_nan_row|].
      destruct (cell_at r c0) as [z|q| |] eqn:E; simpl in *.
      * injection Hb1 as Hb1. injection Hb2 as Hb2.
        right. exists (inject_Z z). split; [done|].
        apply Z.ltb_ge in Hb1, Hb2. rewrite <- !Zle_Qle. done.
      * injection Hb1 as Hb1. injection Hb2 as Hb2.
        right. exists q. split; [done|].
        split; by apply Qlt_bool_false.
      * discriminate.
      * by left.
    + apply elem_of_cons in Hc as [?|Hc]; [done|]. by eapply IH.
Qed.

Lemma finite_Ok o v : finite o = Ok v → ∃ q, o = Some q ∧ v = VFloat q.
Proof. destruct o as [q|]; simpl; intros H; [injection H as <-; eauto|discriminate]. Qed.

Lemma float_of_string_shape s v :
  float_of_string s = Ok v → v = VNaN ∨ ∃ q, v = VFloat q.
Proof.
  unfold float_of_string.
  destruct (read_sign _) as [neg r].
  destruct (String.eqb _ "nan"); [intros H; injection H as <-; by left|].
  destruct (_ || _); [discriminate|].
  destruct (existsb _ r); [discriminate|].
  destruct (read_number r) as [q|]; [|discriminate].
  intros H. apply finite_Ok in H as (q' & _ & ->). eauto.
Qed.

Section RowFacts.

Variable float_repr : Q → string.

Lemma astype_idempotent t x v :
  astype float_repr t x = Ok v → astype float_repr t v = Ok v.
Proof.
  destruct t; simpl.
  - destruct x as [z|q|s|]; intros H.
    + by apply finite_Ok in H as (q & _ & ->).
    + by injection H as <-.
    + by destruct (float_of_string_shape _ _ H) as [->|[q ->]].
    + by injection H as <-.
  - intros H. by inv_ok; subst.
  - intros H. by inv_ok; subst.
Qed.

Lemma astype_float_shape x v :
  astype float_repr np_float64 x = Ok v → v = VNaN ∨ ∃ q, v = VFloat q.
Proof.
  destruct x as [z|q|s|]; simpl; intros H.
  - apply finite_Ok in H as (q & _ & ->). eauto.
  - inv_ok. subst. eauto.
  - by apply float_of_string_shape in H.
  - inv_ok. subst. eauto.
Qed.

Lemma convert_row_step c0 cols r r' :
  convert_row float_repr (c0 :: cols) r = Ok r' →
  ∃ t v, keyword_type_map !! c0 = Some t
         ∧ astype float_repr t (cell_at r c0) = Ok v
         ∧ convert_row float_repr cols (<[c0 := v]> r) = Ok r'.
Proof.
  unfold convert_row. simpl. intros H.
  apply rbind_Ok in H as (r1 & Hstep & H).
  destruct (keyword_type_map !! c0) as [t|]; [|discriminate].
  apply rbind_Ok in Hstep as (v & Hv & Hstep). injection Hstep as <-.
  eauto.
Qed.

Lemma convert_row_fixed c t cols : ∀ r r',
  keyword_type_map !! c = Some t →
  convert_row float_repr cols r = Ok r' →
  c ∉ cols ∨ astype float_repr t (cell_at r c) = Ok (cell_at r c) →
  cell_at r' c = cell_at r c.
Proof.
  induction cols as [|c0 cols IH]; intros r r' Ht H Hc.
  - unfold convert_row in H. simpl in H. by inv_ok; subst.
  - apply convert_row_step in H as (t0 & v & Ht0 & Hv & H).
    destruct (decide (c0 = c)) as [->|Hne].
    + destruct Hc as [Hc|Hc]; [by rewrite not_elem_of_cons in Hc; destruct Hc|].
      assert (t0 = t) as -> by congruence.
      assert (v = cell_at r c) as -> by congruence.
      rewrite (IH _ _ Ht H); rewrite cell_at_insert; auto.
    + rewrite (IH _ _ Ht H); rewrite cell_at_insert_ne by done; [done|].
      destruct Hc as [Hc|Hc]; [|by right].
      left. rewrite not_elem_of_cons in Hc. tauto.
Qed.

Lemma convert_row_cell c t cols : ∀ r r',
  keyword_type_map !! c = Some t →
  convert_row float_repr cols r = Ok r' →
  c ∈ cols →
  astype float_repr t (cell_at r c) = Ok (cell_at r' c).
Proof.
  induction cols as [|c0 cols IH]; intros r r' Ht H Hc.
  - by apply elem_of_nil in Hc.
  - apply convert_row_step in H as (t0 & v & Ht0 & Hv & H).
    destruct (decide (c0 = c)) as [->|Hne].
    + assert (t0 = t) as -> by congruence.
      rewrite (convert_row_fixed c t _ _ _ Ht H), cell_at_insert; [done|].
      right. rewrite cell_at_insert. by eapply astype_idempotent.
    + apply elem_of_cons in Hc as [?|Hc]; [congruence|].
      rewrite <- (cell_at_insert_ne r c0 c v) by done. by apply IH.
Qed.

Lemma convert_row_in_catalog cols : ∀ r r' c,
  convert_row float_repr cols r = Ok r' → c ∈ cols → is_Some (keyword_type_map !! c).
Proof.
  induction cols as [|c0 cols IH]; intros r r' c H Hc.
  - by apply elem_of_nil in Hc.
  - apply convert_row_step in H as (t0 & v & Ht0 & Hv & H).
    apply elem_of_cons in Hc as [->|Hc]; [eauto|]. by eapply IH.
Qed.

(** The cells of a row that survives the error tagging are the cells it
    had, and none of them carries the marker. *)
Lemma tagged_cell r c :
  isna (cell_at (contains_error float_repr <$> r) c) = false →
  cell_at (contains_error float_repr <$> r) c = cell_at r c
  ∧ contains "err" (py_format float_repr (cell_at r c)) = false
  ∧ isna (cell_at r c) = false.
Proof.
  rewrite cell_at_fmap by done. unfold contains_error.
  destruct (contains "err" (py_format float_repr (cell_at r c))); [discriminate|].
  auto.
Qed.

(** What a surviving row went through. *)
Lemma sanitize_row_Some names cols r r' :
  sanitize_row float_repr names cols r = Ok (Some r') →
  ∃ r1 r2,
    r1 = contains_error float_repr <$> r
    ∧ row_complete names r1 = true
    ∧ convert_row float_repr cols r1 = Ok r2
    ∧ limit_row cols r2 = Ok r'
    ∧ row_complete names r' = true.
Proof.
  unfold sanitize_row.
  destruct (row_complete names (contains_error float_repr <$> r)) eqn:Hc;
    [|discriminate].
  intros H. apply rbind_Ok in H as (r2 & H2 & H).
  apply rbind_Ok in H as (r3 & H3 & H).
  destruct (row_complete names r3) eqn:Hc3; [|discriminate].
  injection H as <-. eauto 10.
Qed.

End RowFacts.

Lemma limits_are_floats c lo hi :
  value_limits !! c = Some (lo, hi) → keyword_type_map !! c = Some np_float64.
Proof.
  intros H.
  assert (map_Forall (λ c _, keyword_type_map !! c = Some np_float64) value_limits) as HF.
  { unfold value_limits. repeat (apply map_Forall_insert_2; [reflexivity|]).
    apply map_Forall_empty. }
  exact (HF _ _ H).
Qed.

Lemma NoDup_labels_eq {A} (l : list (nat * A)) i a b :
  NoDup l.*1 → (i, a) ∈ l → (i, b) ∈ l → a = b.
Proof.
  induction l as [|[j x] l IH]; intros Hnd Ha Hb.
  - by apply elem_of_nil in Ha.
  - apply NoDup_cons in Hnd as [Hj Hnd].
    apply elem_of_cons in Ha as [Ha|Ha]; apply elem_of_cons in Hb as [Hb|Hb].
    + congruence.
    + injection Ha as -> ->. destruct Hj. apply list_elem_of_fmap. by exists (j, b).
    + injection Hb as -> ->. destruct Hj. apply list_elem_of_fmap. by exists (j, a).
    + by apply IH.
Qed.

Section CleanedBatch.

Variable float_repr : Q → string.

Lemma apply_type_conversion_has_columns cols : ∀ df df' c,
  apply_type_conversion float_repr df cols = Ok df' → c ∈ cols →
  c ∈ column_names df.
Proof.
  induction cols as [|c0 cols IH]; intros df df' c H Hc.
  - by apply elem_of_nil in Hc.
  - unfold apply_type_conversion in H. simpl in H.
    apply rbind_Ok in H as (df1 & Hstep & H).
    destruct (has_column df c0) eqn:Hc0; [|discriminate].
    apply elem_of_cons in Hc as [->|Hc]; [by apply has_column_true|].
    destruct (keyword_type_map !! c0) as [t|]; [|discriminate].
    apply assign_column_rows in Hstep as [_ Hstep].
    pose proof (IH df1 df' c H Hc) as Hin.
    unfold column_names in *. rewrite Hstep, set_dtype_names in Hin; [done|].
    by apply has_column_true.
Qed.

Lemma sanitize_has_columns cols df out c :
  sanitize float_repr cols df = Ok out → c ∈ cols → c ∈ column_names df.
Proof.
  unfold sanitize. intros H Hc.
  apply rbind_Ok in H as (df3 & H3 & _).
  by apply (apply_type_conversion_has_columns _ _ _ _ H3) in Hc.
Qed.

(** The cell of a surviving row under one column of the frame. *)
Lemma sanitize_row_cell names cols r r' c :
  sanitize_row float_repr names cols r = Ok (Some r') → c ∈ names →
  contains "err" (py_format float_repr (cell_at r c)) = false
  ∧ isna (cell_at r c) = false
  ∧ r' !! c = Some (cell_at r' c)
  ∧ isna (cell_at r' c) = false
  ∧ (c ∉ cols → cell_at r' c = cell_at r c)
  ∧ (c ∈ cols → ∀ t, keyword_type_map !! c = Some t →
       astype float_repr t (cell_at r c) = Ok (cell_at r' c))
  ∧ (c ∈ cols → ∀ lo hi, value_limits !! c = Some (lo, hi) →
       within lo hi (cell_at r' c)).
Proof.
  intros H Hc.
  apply sanitize_row_Some in H as (r1 & r2 & -> & Hc1 & H2 & H3 & Hc3).
  pose proof (proj1 (row_complete_spec _ _) Hc1 c Hc) as Hn1.
  pose proof (proj1 (row_complete_spec _ _) Hc3 c Hc) as Hn3.
  destruct (tagged_cell float_repr r c Hn1) as (E1 & Herr & Hn0).
  assert (cell_at r' c = cell_at r2 c) as E3.
  { destruct (limit_row_cases _ _ _ H3) as [->| ->]; [done|].
    by rewrite cell_at_nan_row in Hn3. }
  repeat split; auto.
  - by apply cell_at_present.
  - intros Hnc. rewrite E3, <- E1.
    destruct (decide (is_Some (keyword_type_map !! c))) as [[t Ht]|Hno].
    + eapply convert_row_fixed; eauto.
    + clear -H2 Hnc. revert H2. generalize (contains_error float_repr <$> r).
      induction cols as [|c0 cols IH]; intros r1 H2.
      * unfold convert_row in H2. simpl in H2. by inv_ok; subst.
      * apply convert_row_step in H2 as (t0 & v & Ht0 & Hv & H2).
        rewrite not_elem_of_cons in Hnc. destruct Hnc as [Hne Hnc].
        rewrite (IH Hnc _ H2). by apply cell_at_insert_ne.
  - intros Hcols t Ht. rewrite E3, <- E1. by eapply convert_row_cell.
  - intros Hcols lo hi Hl. by eapply limit_row_within.
Qed.

Lemma sanitize_elem_of cols df out i r' :
  sanitize float_repr cols df = Ok out → (i, r') ∈ rows out →
  ∃ r, (i, r) ∈ rows df
       ∧ sanitize_row float_repr (column_names df) cols r = Ok (Some r').
Proof.
  intros H Hin. apply sanitize_rows in H as [Hr _]. rewrite Hr in Hin.
  apply list_elem_of_omap in Hin as ([i0 r] & Hin & Hc).
  unfold cleaned_row in Hc. simpl in Hc.
  destruct (sanitize_row float_repr (column_names df) cols r) as [[r0|]|] eqn:E;
    try discriminate.
  injection Hc as -> ->. eauto.
Qed.

(** C1. Range enforcement: every row of the cleaned batch holds, in every
    selected column with a declared range, a number between the two limits;
    and a row of the raw batch whose number in such a column is below the
    minimum or above the maximum has no row in the cleaned batch at all. *)
Theorem range_enforcement cols df out c lo hi :
  sanitize float_repr cols df = Ok out →
  c ∈ cols → value_limits !! c = Some (lo, hi) →
  (∀ i r', (i, r') ∈ rows out →
     ∃ q, r' !! c = Some (VFloat q) ∧ (inject_Z lo <= q <= inject_Z hi)%Q)
  ∧ (NoDup (rows df).*1 →
     ∀ i r q, (i, r) ∈ rows df →
       astype float_repr np_float64 (cell_at r c) = Ok (VFloat q) →
       (q < inject_Z lo ∨ inject_Z hi < q)%Q →
       i ∉ (rows out).*1).
Proof.
  intros H Hc Hl.
  pose proof (sanitize_has_columns _ _ _ _ H Hc) as Hn.
  pose proof (limits_are_floats _ _ _ Hl) as Ht.
  assert (∀ i r r', (i, r) ∈ rows df → (i, r') ∈ rows out →
            sanitize_row float_repr (column_names df) cols r = Ok (Some r') →
            ∃ q, r' !! c = Some (VFloat q)
                 ∧ astype float_repr np_float64 (cell_at r c) = Ok (VFloat q)
                 ∧ (inject_Z lo <= q <= inject_Z hi)%Q) as Hrow.
  { intros i r r' _ _ Hs.
    destruct (sanitize_row_cell _ _ _ _ c Hs Hn) as (_ & _ & Hp & Hna & _ & Hconv & Hw).
    specialize (Hconv Hc _ Ht). specialize (Hw Hc _ _ Hl).
    destruct (astype_float_shape _ _ _ Hconv) as [E|[q E]]; rewrite E in *;
      [discriminate|].
    exists q. repeat split; auto;
      destruct Hw as [?|(q' & Hq' & Hlo & Hhi)]; try discriminate;
      by injection Hq' as ->. }
  split.
  - intros i r' Hin.
    destruct (sanitize_elem_of _ _ _ _ _ H Hin) as (r & Hr & Hs).
    destruct (Hrow _ _ _ Hr Hin Hs) as (q & ? & _ & ?). eauto.
  - intros Hnd i r q Hr Hq Hout Hin.
    apply list_elem_of_fmap in Hin as ([i' r'] & -> & Hin). simpl in *.
    destruct (sanitize_elem_of _ _ _ _ _ H Hin) as (r0 & Hr0 & Hs).
    assert (r0 = r) as -> by (eapply NoDup_labels_eq; eauto).
    destruct (Hrow _ _ _ Hr Hin Hs) as (q' & _ & Hq' & Hlo & Hhi).
    assert (q' = q) as -> by congruence.
    destruct Hout as [Hout|Hout].
    + by apply Qlt_not_le in Hout.
    + by apply Qlt_not_le in Hout.
Qed.

(** C2. Error-marker elimination: a row of the raw batch with a cell, in
    any column, whose text contains "err" has no row in the cleaned batch;
    and the tagging step returns a cell whose text does not contain "err" as
    it is. *)
Theorem error_marker_elimination cols df out :
  sanitize float_repr cols df = Ok out →
  (NoDup (rows df).*1 →
   ∀ i r c, (i, r) ∈ rows df → c ∈ column_names df →
     contains "err" (py_format float_repr (cell_at r c)) = true →
     i ∉ (rows out).*1)
  ∧ (∀ v, contains "err" (py_format float_repr v) = false →
       contains_error float_repr v = v)
  ∧ (∀ i r c, (i, r) ∈ rows df →
       contains "err" (py_format float_repr (cell_at r c)) = false →
       ∃ r1, (i, r1) ∈ rows (applymap (contains_error float_repr) df)
             ∧ cell_at r1 c = cell_at r c).
Proof.
  intros H. split; [|split].
  - intros Hnd i r c Hr Hc Herr Hin.
    apply list_elem_of_fmap in Hin as ([i' r'] & -> & Hin). simpl in *.
    destruct (sanitize_elem_of _ _ _ _ _ H Hin) as (r0 & Hr0 & Hs).
    assert (r0 = r) as -> by (eapply NoDup_labels_eq; eauto).
    destruct (sanitize_row_cell _ _ _ _ c Hs Hc) as (Hno & _). congruence.
  - intros v Hv. unfold contains_error. by rewrite Hv.
  - intros i r c Hr Hv.
    exists (contains_error float_repr <$> r). split.
    + unfold applymap. simpl. apply list_elem_of_In, in_map_iff.
      exists (i, r). split; [done|]. by apply list_elem_of_In.
    + rewrite cell_at_fmap by done. unfold contains_error. by rewrite Hv.
Qed.

End CleanedBatch.

(** ** Outcomes of effectful computations *)

Lemma io_bind_snd {A B} (m : io A) (f : A → io B) :
  (io_bind m f).2 = rbind m.2 (λ a, (f a).2).
Proof. destruct m as [t [a|e]]; simpl; [|done]. by destruct (f a). Qed.

Lemma foldIO_snd {A S} (f : S → A → io S) (l : list A) : ∀ acc,
  (foldIO f l acc).2 = foldR (λ s x, (f s x).2) l acc.
Proof.
  induction l as [|x l IH]; intros acc; simpl; [done|].
  rewrite io_bind_snd. destruct (f acc x).2; simpl; [apply IH|done].
Qed.

Lemma foldR_app {A S} (f : S → A → result S) (l1 l2 : list A) : ∀ acc,
  foldR f (l1 ++ l2)%list acc = rbind (foldR f l1 acc) (foldR f l2).
Proof.
  induction l1 as [|x l1 IH]; intros acc; simpl; [done|].
  destruct (f acc x); simpl; [apply IH|done].
Qed.

Lemma foldR_ext {A S} (f g : S → A → result S) (l : list A) :
  (∀ s x, f s x = g s x) → ∀ acc, foldR f l acc = foldR g l acc.
Proof.
  intros E. induction l as [|x l IH]; intros acc; simpl; [done|].
  rewrite E. destruct (g acc x); simpl; auto.
Qed.

(** ** Concatenation of frames of one shape *)

Lemma fill_row_id cs (r : gmap string cell) :
  (∀ c, c ∈ cs → is_Some (r !! c)) → fill_row cs r = r.
Proof.
  unfold fill_row. induction cs as [|c cs IH]; intros H; simpl; [done|].
  rewrite IH by (intros c' Hc'; apply H; by right).
  destruct (H c) as [v Hv]; [by left|]. by rewrite Hv.
Qed.

Lemma relabel_values (rs : list (nat * gmap string cell)) :
  (imap (λ i ir, (i, ir.2)) rs).*2 = rs.*2.
Proof.
  change (imap (λ i ir, (i, ir.2)) rs) with (imap (λ i ir, (id i, ir.2)) rs).
  generalize (@id nat). induction rs as [|ir rs IH]; intros g; [done|].
  rewrite imap_cons, !fmap_cons. simpl. f_equal. apply (IH (g ∘ S)).
Qed.

Lemma fill_rows_id cs (rs : list (nat * gmap string cell)) :
  Forall (λ r : gmap string cell, ∀ c, c ∈ cs → is_Some (r !! c)) rs.*2 →
  map (λ ir, (ir.1, fill_row cs ir.2)) rs = rs.
Proof.
  induction rs as [|[i r] rs IH]; intros H; [done|].
  rewrite fmap_cons in H. apply Forall_cons in H as [Hr H].
  simpl. rewrite IH by done. by rewrite fill_row_id.
Qed.

Lemma filter_new_columns_nil (names : list string) (cs : list (string * dtype)) :
  cs.*1 ⊆ names →
  List.filter (λ c, negb (bool_decide (c.1 ∈ names))) cs = [].
Proof.
  induction cs as [|[c d] cs IH]; intros H; [done|].
  cbn [List.filter]. rewrite bool_decide_eq_true_2.
  - cbn [negb]. apply IH. intros x Hx. apply H. rewrite fmap_cons. by right.
  - apply H. rewrite fmap_cons. by left.
Qed.

Lemma filter_new_columns_all (cs : list (string * dtype)) :
  List.filter (λ c, negb (bool_decide (c.1 ∈ @nil string))) cs = cs.
Proof.
  induction cs as [|[c d] cs IH]; [done|].
  cbn [List.filter]. rewrite bool_decide_eq_false_2 by apply not_elem_of_nil.
  cbn [negb]. by rewrite IH.
Qed.

Lemma concat_shaped N a b ig :
  shaped N a → shaped N b →
  shaped N (concat a b ig)
  ∧ (rows (concat a b ig)).*2 = ((rows a).*2 ++ (rows b).*2)%list
  ∧ (ig = false → rows (concat a b ig) = (rows a ++ rows b)%list).
Proof.
  intros [Wa Sa] [Wb Sb].
  set (cs := (columns a ++
              List.filter (λ c, negb (bool_decide (c.1 ∈ column_names a))) (columns b))%list).
  assert (Forall (λ r : gmap string cell, ∀ c, c ∈ cs.*1 → is_Some (r !! c))
            (rows a ++ rows b)%list.*2
          ∧ (cs.*1 = N ∨ (cs = [] ∧ (rows a ++ rows b)%list = []))) as [Hwf Hcs].
  { unfold wf_frame in Wa, Wb. rewrite fmap_app. subst cs.
    destruct Sa as [Na|[Ca Ra]].
    - destruct Sb as [Nb|[Cb Rb]].
      + rewrite filter_new_columns_nil, app_nil_r
          by (unfold column_names in *; by rewrite Na, Nb).
        split; [|by left]. apply Forall_app. split; [done|].
        unfold column_names in *. by rewrite Na, <- Nb.
      + rewrite Cb, Rb. simpl. rewrite !app_nil_r. split; [done|by left].
    - unfold column_names. rewrite Ca, Ra. simpl.
      rewrite filter_new_columns_all. split; [done|].
      destruct Sb as [Nb|[Cb Rb]]; [by left|right]. by rewrite Cb, Rb. }
  assert (map (λ ir, (ir.1, fill_row cs.*1 ir.2)) (rows a ++ rows b)%list
          = (rows a ++ rows b)%list) as Hfill by (by apply fill_rows_id).
  assert ((rows (concat a b ig)).*2 = (rows a ++ rows b)%list.*2) as Hval.
  { unfold concat. fold cs. simpl. rewrite Hfill.
    destruct ig; [apply relabel_values|done]. }
  split; [|split].
  - split.
    + unfold wf_frame. rewrite Hval. exact Hwf.
    + unfold column_names, concat. fold cs. simpl.
      destruct Hcs as [?|[-> E]]; [by left|right].
      split; [done|]. rewrite Hfill, E. by destruct ig.
  - by rewrite Hval, fmap_app.
  - intros ->. unfold concat. fold cs. simpl. exact Hfill.
Qed.

Lemma shaped_empty N : shaped N empty_frame.
Proof. split; [by constructor|by right]. Qed.

(** ** What one file contributes *)

Section FileFrames.

Context {sch : summation}.
Variable float_repr : Q → string.
Variable fs : FileSystem.

Lemma with_open_snd {A} file (body : io A) :
  (with_open fs file body).2 = rbind (fs_open fs file) (λ _, body.2).
Proof.
  unfold with_open. rewrite io_bind_snd. simpl.
  destruct (fs_open fs file); simpl; [|done]. by destruct body.
Qed.

Lemma partial_step_snd directory cols dl st filename :
  (partial_step float_repr fs directory cols dl st filename).2 =
  if endswith filename ".csv"
  then df ←? file_frame float_repr fs cols (path_join directory filename);
       Ok (concat st.1 df true, S st.2)
  else Ok st.
Proof.
  unfold partial_step, file_frame. destruct st as [big n].
  destruct (endswith filename ".csv"); [|done].
  rewrite with_open_snd. unfold read_csv, io_lift, io_do, stdout_write.
  destruct (fs_open fs _); simpl; [|done].
  destruct (fs_read_csv fs _) as [df|]; simpl; [|done].
  destruct (select_columns df cols) as [df1|]; simpl; [|done].
  by destruct (sanitize float_repr cols df1).
Qed.

Lemma average_hours_step_snd directory cols dl st filename :
  (average_hours_step float_repr fs directory cols dl st filename).2 =
  if endswith filename ".csv"
  then df ←? file_frame_average_hours float_repr fs cols (path_join directory filename);
       Ok (concat st.1 df true, S st.2)
  else Ok st.
Proof.
  unfold average_hours_step, file_frame_average_hours, file_frame.
  destruct st as [big n].
  destruct (endswith filename ".csv"); [|done].
  rewrite with_open_snd. unfold read_csv, io_lift, io_do, stdout_write.
  destruct (fs_open fs _); simpl; [|done].
  destruct (fs_read_csv fs _) as [df|]; simpl; [|done].
  destruct (select_columns df cols) as [df1|]; simpl; [|done].
  destruct (sanitize float_repr cols df1) as [df2|]; simpl; [|done].
  destruct (add_time_columns df2) as [df3|]; simpl; [|done].
  by destruct (groupby_mean _ df3).
Qed.

(** The loop of a loader appends, to what it has, the frames of the files
    it reads. *)
Lemma loop_collects (F : string → result DataFrame) N dl :
  (∀ f a, F f = Ok a → shaped N a) →
  ∀ st st', shaped N st.1 →
    foldR (λ st f, if endswith f ".csv"
                   then df ←? F f; Ok (concat st.1 df true, S st.2)
                   else Ok st) dl st = Ok st' →
    ∃ frames,
      Forall2 (λ f a, F f = Ok a) (csv_files dl) frames
      ∧ shaped N st'.1
      ∧ (rows st'.1).*2 = ((rows st.1).*2 ++ mjoin (map (λ a, (rows a).*2) frames))%list.
Proof.
  intros HF. induction dl as [|f dl IH]; intros st st' Hs H; simpl in H.
  - injection H as <-. exists []. split; [constructor|]. split; [done|].
    simpl. by rewrite app_nil_r.
  - apply rbind_Ok in H as (st1 & Hstep & H).
    unfold csv_files. cbn [List.filter].
    destruct (endswith f ".csv").
    + apply rbind_Ok in Hstep as (a & Ha & Hstep). injection Hstep as <-.
      destruct (concat_shaped N st.1 a true Hs (HF _ _ Ha)) as (Hs1 & Hv1 & _).
      destruct (IH (concat st.1 a true, S st.2) st' Hs1 H) as (frames & HF2 & Hs' & Hv).
      exists (a :: frames). split; [by constructor|]. split; [done|].
      cbn [fst snd] in Hv. rewrite Hv, Hv1. cbn [map mjoin]. by rewrite <- app_assoc.
    + injection Hstep as <-. by apply IH.
Qed.

Lemma select_columns_names df cols df' :
  select_columns df cols = Ok df' → column_names df' = cols.
Proof.
  unfold select_columns. intros H.
  apply rbind_Ok in H as (cs & Hcs & H). injection H as <-.
  unfold column_names. simpl. apply mapR_Forall2 in Hcs.
  induction Hcs as [|c p cols cs Hp _ IH]; [done|].
  rewrite fmap_cons, IH. f_equal.
  destruct (column_dtype df c); [|discriminate]. by injection Hp as <-.
Qed.

(** Every row of a cleaned batch holds a value that is not missing under
    every column of the batch. *)
Lemma sanitize_complete cols df out :
  sanitize float_repr cols df = Ok out →
  Forall (λ r : gmap string cell,
            ∀ c, c ∈ column_names df → ∃ v, r !! c = Some v ∧ isna v = false)
    (rows out).*2.
Proof.
  intros H. apply Forall_forall. intros r' Hin c Hc.
  apply list_elem_of_fmap in Hin as ([i r0] & -> & Hin). simpl.
  destruct (sanitize_elem_of _ _ _ _ _ _ H Hin) as (r & _ & Hs).
  destruct (sanitize_row_cell _ _ _ _ _ c Hs Hc) as (_ & _ & Hp & Hn & _).
  eauto.
Qed.

Lemma file_frame_shaped cols file a :
  file_frame float_repr fs cols file = Ok a →
  shaped cols a
  ∧ Forall (λ r : gmap string cell,
              ∀ c, c ∈ cols → ∃ v, r !! c = Some v ∧ isna v = false) (rows a).*2.
Proof.
  unfold file_frame. intros H.
  apply rbind_Ok in H as (u & _ & H).
  apply rbind_Ok in H as (df & _ & H).
  apply rbind_Ok in H as (df1 & Hsel & H).
  apply select_columns_names in Hsel.
  pose proof (sanitize_complete _ _ _ H) as Hc. rewrite Hsel in Hc.
  destruct (sanitize_rows _ _ _ _ H) as [_ Hn]. rewrite Hsel in Hn.
  split; [|done]. split; [|by left].
  unfold wf_frame. rewrite Hn. eapply Forall_impl; [exact Hc|].
  intros r Hr c Hin. destruct (Hr c Hin) as (v & -> & _). eauto.
Qed.

Lemma load_partial_snd directory cols :
  (load_dataset_from_directory_partial float_repr fs directory cols).2 =
  dl ←? fs_listdir fs directory;
  st ←? foldR (λ st f, if endswith f ".csv"
                 then df ←? file_frame float_repr fs cols (path_join directory f);
                      Ok (concat st.1 df true, S st.2)
                 else Ok st) dl (empty_frame, 0%nat);
  Ok st.1.
Proof.
  unfold load_dataset_from_directory_partial. rewrite io_bind_snd. simpl.
  destruct (fs_listdir fs directory) as [dl|]; simpl; [|done].
  rewrite io_bind_snd, foldIO_snd.
  rewrite (foldR_ext _ _ dl (partial_step_snd directory cols dl)).
  destruct (foldR _ dl _); simpl; done.
Qed.

(** C3. No missing values: in the frame [load_dataset_from_directory_partial]
    returns, every row holds, under every selected column, a value that
    is not missing. *)
Theorem no_missing_values directory cols tr out :
  load_dataset_from_directory_partial float_repr fs directory cols = (tr, Ok out) →
  ∀ i r c, (i, r) ∈ rows out → c ∈ cols → ∃ v, r !! c = Some v ∧ isna v = false.
Proof.
  intros H i r c Hin Hc.
  pose proof (load_partial_snd directory cols) as E. rewrite H in E. simpl in E.
  symmetry in E. apply rbind_Ok in E as (dl & _ & E).
  apply rbind_Ok in E as (st & Hloop & E). injection E as <-.
  apply (loop_collects (λ f, file_frame float_repr fs cols (path_join directory f)) cols) in Hloop
    as (frames & HF & _ & Hv).
  - simpl in Hv.
    assert (r ∈ mjoin (map (λ a, (rows a).*2) frames)) as Hr.
    { rewrite <- Hv. apply list_elem_of_fmap. by exists (i, r). }
    apply list_elem_of_join in Hr as (vs & Hr & Hvs).
    apply list_elem_of_In, in_map_iff in Hvs as (a & <- & Ha).
    apply list_elem_of_In in Ha.
    destruct (proj1 (list_elem_of_lookup _ _) Ha) as [k Hk].
    destruct (Forall2_lookup_r _ _ _ _ _ HF Hk) as (f & _ & Hf).
    apply file_frame_shaped in Hf as [_ Hf].
    by apply (proj1 (Forall_forall _ _) Hf r Hr c).
  - intros f a Ha. by apply file_frame_shaped in Ha as [? _].
  - apply shaped_empty.
Qed.

End FileFrames.

(** ** Sanitizing a clean batch *)

Lemma mapR_id {A} (f : A → result A) (l : list A) :
  (∀ x, x ∈ l → f x = Ok x) → mapR f l = Ok l.
Proof.
  induction l as [|x l IH]; intros H; simpl; [done|].
  rewrite H by (by left). simpl. rewrite IH; [done|].
  intros y Hy. apply H. by right.
Qed.

Lemma filter_all {A} (p : A → bool) (l : list A) :
  (∀ x, x ∈ l → p x = true) → List.filter p l = l.
Proof.
  induction l as [|x l IH]; intros H; [done|].
  cbn [List.filter]. rewrite H by (by left). rewrite IH; [done|].
  intros y Hy. apply H. by right.
Qed.

Lemma Qlt_bool_ge x y : (y <= x)%Q → Qlt_bool x y = false.
Proof.
  intros H. unfold Qlt_bool. apply negb_false_iff. by apply Qle_bool_iff.
Qed.

Section CleanInput.

Variable float_repr : Q → string.

Lemma applymap_clean cols df :
  clean_frame float_repr cols df → applymap (contains_error float_repr) df = df.
Proof.
  intros (_ & _ & Hrows). unfold applymap. destruct df as [cs rs]. simpl in *.
  f_equal. rewrite <- (map_id rs) at 2. apply map_ext_in.
  intros [i r] Hin. apply list_elem_of_In in Hin. simpl. f_equal.
  destruct (Hrows i r Hin) as (Hcells & _).
  apply map_eq. intros c. rewrite lookup_fmap.
  destruct (r !! c) as [v|] eqn:E; [|done]. simpl.
  destruct (Hcells c v E) as [Hv _]. unfold contains_error. by rewrite Hv.
Qed.

Lemma dropna_clean cols df : clean_frame float_repr cols df → dropna df = df.
Proof.
  intros (_ & _ & Hrows). unfold dropna. destruct df as [cs rs]. simpl in *.
  f_equal. apply filter_all. intros [i r] Hin. simpl.
  destruct (Hrows i r Hin) as (Hcells & Hpres & _).
  apply row_complete_spec. intros c Hc.
  destruct (Hpres c Hc) as [v Hv]. rewrite (cell_at_lookup _ _ _ Hv).
  by destruct (Hcells c v Hv).
Qed.

Lemma set_dtype_clean c dt (cs : list (string * dtype)) :
  c ∈ cs.*1 → (∀ d, (c, d) ∈ cs → d = dt) → set_dtype c dt cs = cs.
Proof.
  intros Hin H. unfold set_dtype. rewrite bool_decide_eq_true_2 by done.
  clear Hin. induction cs as [|[c' d] cs IH]; [done|].
  cbn [map]. rewrite IH by (intros d' Hd'; apply H; by right).
  f_equal. case_bool_decide as E; [|done]. simpl in E. subst c'.
  f_equal. symmetry. apply H. by left.
Qed.

Lemma apply_type_conversion_clean cols df :
  clean_frame float_repr cols df → apply_type_conversion float_repr df cols = Ok df.
Proof.
  intros (Hcols & Htyped & Hrows). unfold apply_type_conversion.
  assert (∀ cols', cols' ⊆ cols →
            foldR (λ df col,
                     if has_column df col then
                       match keyword_type_map !! col with
                       | Some t => assign_column col col (dtype_of t) (astype float_repr t) df
                       | None => Raise (KeyError col)
                       end
                     else Raise (KeyError col)) cols' df = Ok df) as Hfold;
    [|by apply Hfold].
  induction cols' as [|c cols' IH]; intros Hsub; [done|].
  assert (c ∈ cols) as Hc by (apply Hsub; by left).
  destruct (Hcols c Hc) as [Hn [t Ht]].
  simpl. rewrite (proj2 (has_column_true df c) Hn), Ht.
  assert (assign_column c c (dtype_of t) (astype float_repr t) df = Ok df) as ->.
  { unfold assign_column. rewrite (proj2 (has_column_true df c) Hn).
    rewrite mapR_id.
    - simpl. rewrite set_dtype_clean; [by destruct df|done|].
      intros d Hd. by eapply Htyped.
    - intros [i r] Hin. simpl.
      destruct (Hrows i r Hin) as (Hcells & Hpres & Hty & _).
      destruct (Hpres c Hn) as [v Hv].
      pose proof (Hty c t Hc Ht) as Hvt. rewrite (cell_at_lookup _ _ _ Hv) in *.
      assert (astype float_repr t v = Ok v) as ->.
      { destruct t; simpl in *; [by destruct Hvt as [q ->]| done |].
        by destruct Hvt as [s ->]. }
      simpl. by rewrite insert_id. }
  simpl. apply IH. intros x Hx. apply Hsub. by right.
Qed.

Lemma apply_limits_clean cols df :
  clean_frame float_repr cols df → apply_limits df cols = Ok df.
Proof.
  intros (Hcols & Htyped & Hrows). unfold apply_limits.
  assert (∀ cols', cols' ⊆ cols →
            foldR (λ df col,
                     match value_limits !! col with
                     | Some (lo, hi) =>
                         df1 ←? set_nan_where (cell_lt lo) col df;
                         set_nan_where (cell_gt hi) col df1
                     | None => Ok df
                     end) cols' df = Ok df) as Hfold;
    [|by apply Hfold].
  induction cols' as [|c cols' IH]; intros Hsub; [done|].
  assert (c ∈ cols) as Hc by (apply Hsub; by left).
  destruct (Hcols c Hc) as [Hn _].
  assert (foldR (λ df col,
                     match value_limits !! col with
                     | Some (lo, hi) =>
                         df1 ←? set_nan_where (cell_lt lo) col df;
                         set_nan_where (cell_gt hi) col df1
                     | None => Ok df
                     end) cols' df = Ok df) as IH'.
  { apply IH. intros x Hx. apply Hsub. by right. }
  simpl. destruct (value_limits !! c) as [[lo hi]|] eqn:Hl; [|exact IH'].
  assert (∀ p, (∀ i r, (i, r) ∈ rows df → p (cell_at r c) = Ok false) →
               set_nan_where p c df = Ok df) as Hstep.
  { intros p Hp. unfold set_nan_where. rewrite (proj2 (has_column_true df c) Hn).
    rewrite mapR_id; [by destruct df|].
    intros [i r] Hin. simpl. by rewrite (Hp i r Hin). }
  rewrite Hstep.
  - simpl. rewrite Hstep; [exact IH'|].
    intros i r Hin. destruct (Hrows i r Hin) as (_ & _ & _ & Hrange).
    destruct (Hrange c lo hi Hc Hl) as (q & -> & Hlo & Hhi).
    simpl. by rewrite Qlt_bool_ge.
  - intros i r Hin. destruct (Hrows i r Hin) as (_ & _ & _ & Hrange).
    destruct (Hrange c lo hi Hc Hl) as (q & -> & Hlo & Hhi).
    simpl. by rewrite Qlt_bool_ge.
Qed.

(** C7. Sanitizing an already-clean batch returns it unchanged. *)
Theorem sanitize_clean_unchanged cols df :
  clean_frame float_repr cols df → sanitize float_repr cols df = Ok df.
Proof.
  intros H. unfold sanitize.
  rewrite (applymap_clean cols df H), (dropna_clean cols df H).
  rewrite (apply_type_conversion_clean cols df H). simpl.
  rewrite (apply_limits_clean cols df H). simpl.
  by rewrite (dropna_clean cols df H).
Qed.

End CleanInput.

(** ** The time key *)

Lemma is_digit_cases c :
  is_digit c = true →
  c ∈ ["0"; "1"; "2"; "3"; "4"; "5"; "6"; "7"; "8"; "9"]%char.
Proof.
  destruct c as [[] [] [] [] [] [] [] []]; intros H; try discriminate H;
    repeat (first [by left | right]).
Qed.

Lemma two_digits_parse (s : string) :
  String.length s = 2%nat → all_digits s = true →
  float_of_string s = Ok (VFloat (inject_Z (digits_value s))).
Proof.
  destruct s as [|c1 [|c2 [|]]]; try discriminate. intros _ H.
  unfold all_digits in H. simpl in H.
  apply andb_true_iff in H as [H1 H2]. apply andb_true_iff in H2 as [H2 _].
  apply is_digit_cases in H1, H2.
  repeat (apply elem_of_cons in H1 as [->|H1]);
    [..|by apply elem_of_nil in H1];
    repeat (apply elem_of_cons in H2 as [->|H2]);
    try (by apply elem_of_nil in H2); vm_compute; reflexivity.
Qed.

Lemma substring_length (s : string) : ∀ a n,
  (a + n <= String.length s)%nat → String.length (String.substring a n s) = n.
Proof.
  induction s as [|c s IH]; intros a n H; simpl in H.
  - assert (a = 0 ∧ n = 0)%nat as [-> ->] by lia. done.
  - destruct a as [|a]; destruct n as [|n]; simpl; try done.
    + f_equal. apply IH. lia.
    + apply IH. lia.
    + apply IH. lia.
Qed.

Lemma slice_length (a b : nat) (s : string) :
  (a <= b)%nat → (b <= String.length s)%nat →
  String.length (py_slice a b s) = (b - a)%nat.
Proof. intros Hab Hb. unfold py_slice. apply substring_length. lia. Qed.

Lemma mapR_map {A B} (f : A → result B) (g : A → B) (l : list A) :
  (∀ x, x ∈ l → f x = Ok (g x)) → mapR f l = Ok (map g l).
Proof.
  induction l as [|x l IH]; intros H; simpl; [done|].
  rewrite H by (by left). simpl. rewrite IH; [done|].
  intros y Hy. apply H. by right.
Qed.

Lemma column_dtype_elem df c dt :
  column_dtype df c = Some dt → c ∈ column_names df.
Proof.
  unfold column_dtype. destruct (list_find _ _) as [[i [c' d]]|] eqn:E; [|discriminate].
  intros _. apply list_find_Some in E as (Hl & Hc & _). simpl in Hc. subst c'.
  unfold column_names. apply list_elem_of_fmap. exists (c, d). split; [done|].
  by eapply list_elem_of_lookup_2.
Qed.

Lemma column_dtype_app cs cs' rs rs' c dt :
  column_dtype (mkDataFrame cs rs) c = Some dt →
  column_dtype (mkDataFrame (cs ++ cs')%list rs') c = Some dt.
Proof.
  unfold column_dtype. simpl.
  destruct (list_find _ cs) as [[i p]|] eqn:E; [|discriminate].
  intros H. by rewrite (list_find_app_l _ _ _ _ _ E).
Qed.

(** One derived column. *)
Lemma assign_slice_digits src dst a b cs rs :
  column_dtype (mkDataFrame cs rs) src = Some object →
  dst ∉ cs.*1 →
  (∀ i r, (i, r) ∈ rs → ∃ s, cell_at r src = VStr s
      ∧ String.length (py_slice a b s) = 2%nat ∧ all_digits (py_slice a b s) = true) →
  assign_slice src dst a b (mkDataFrame cs rs) =
  Ok (mkDataFrame (cs ++ [(dst, float64)])%list
        (map (λ ir, (ir.1, <[dst := slice_number a b (cell_at ir.2 src)]> ir.2)) rs)).
Proof.
  intros Hdt Hdst Hrows. unfold assign_slice. rewrite Hdt.
  unfold assign_column.
  rewrite (proj2 (has_column_true _ _) (column_dtype_elem _ _ _ Hdt)).
  simpl. erewrite mapR_map.
  - simpl. unfold set_dtype. by rewrite bool_decide_eq_false_2.
  - intros [i r] Hin. simpl.
    destruct (Hrows i r Hin) as (s & -> & Hlen & Hdig). simpl.
    by rewrite two_digits_parse.
Qed.

(** C5. On a batch of catalog columns whose date strings have width 8 and
    whose time strings have width 6, with digits in the slices read,
    [add_time_columns] returns the batch with exactly three float columns
    appended: Month, Day and Hour, holding the numbers in characters [4:6)
    and [6:8) of the date and [0:2) of the time; the rows keep their labels
    and order and every other cell is unchanged. *)
Theorem add_time_columns_derives df :
  column_dtype df "YYYYMMDD" = Some object →
  column_dtype df "hhmmss" = Some object →
  Forall (λ c, is_Some (keyword_type_map !! c)) (column_names df) →
  (∀ i r, (i, r) ∈ rows df → well_timed r) →
  add_time_columns df =
    Ok (mkDataFrame
          (columns df ++ [("Month", float64); ("Day", float64); ("Hour", float64)])%list
          (map (λ ir, (ir.1, with_time_key ir.2)) (rows df)))
  ∧ (∀ r d t, cell_at r "YYYYMMDD" = VStr d → cell_at r "hhmmss" = VStr t →
       with_time_key r !! "Month" = Some (VFloat (inject_Z (digits_value (py_slice 4 6 d))))
       ∧ with_time_key r !! "Day" = Some (VFloat (inject_Z (digits_value (py_slice 6 8 d))))
       ∧ with_time_key r !! "Hour" = Some (VFloat (inject_Z (digits_value (py_slice 0 2 t)))))
  ∧ (∀ r c, c ∈ column_names df → with_time_key r !! c = r !! c).
Proof.
  intros Hd Ht Hcat Hrows.
  assert (∀ c, c ∈ ["Month"; "Day"; "Hour"] → c ∉ column_names df) as Hnew.
  { intros c Hc Hin. apply (proj1 (Forall_forall _ _) Hcat) in Hin as [t Hin].
    repeat (apply elem_of_cons in Hc as [->|Hc]); try discriminate Hin.
    by apply elem_of_nil in Hc. }
  destruct df as [cs rs]. unfold column_names in Hnew. simpl in *.
  split; [|split].
  - unfold add_time_columns.
    rewrite (assign_slice_digits "YYYYMMDD" "Month" 4 6 cs rs Hd).
    2:{ apply Hnew. by left. }
    2:{ intros i r Hin. destruct (Hrows i r Hin) as (d & t & -> & _ & Hl & _ & H1 & _).
        exists d. split; [done|]. split; [|done]. rewrite slice_length; [done|lia|lia]. }
    simpl.
    rewrite (assign_slice_digits "YYYYMMDD" "Day" 6 8).
    2:{ by eapply column_dtype_app. }
    2:{ rewrite fmap_app. intros Hin. apply elem_of_app in Hin as [Hin|Hin].
        - revert Hin. apply Hnew. right. by left.
        - apply list_elem_of_singleton in Hin. discriminate. }
    2:{ intros i r Hin. apply list_elem_of_In, in_map_iff in Hin as ([i0 r0] & E & Hin).
        injection E as <- <-. apply list_elem_of_In in Hin.
        destruct (Hrows _ _ Hin) as (d & t & Hcd & _ & Hl & _ & _ & H2 & _).
        exists d. rewrite cell_at_insert_ne by done. split; [done|].
        split; [|done]. rewrite slice_length; [done|lia|lia]. }
    simpl.
    rewrite (assign_slice_digits "hhmmss" "Hour" 0 2).
    2:{ rewrite <- app_assoc. by eapply column_dtype_app. }
    2:{ rewrite !fmap_app. intros Hin.
        apply elem_of_app in Hin as [Hin|Hin];
          [apply elem_of_app in Hin as [Hin|Hin]|].
        - revert Hin. apply Hnew. right. right. by left.
        - apply list_elem_of_singleton in Hin. discriminate.
        - apply list_elem_of_singleton in Hin. discriminate. }
    2:{ intros i r Hin. apply list_elem_of_In, in_map_iff in Hin as ([i1 r1] & E & Hin).
        injection E as <- <-.
        apply in_map_iff in Hin as ([i0 r0] & E & Hin). injection E as <- <-.
        apply list_elem_of_In in Hin.
        destruct (Hrows _ _ Hin) as (d & t & _ & Hct & _ & Hl & _ & _ & H3).
        exists t. simpl. rewrite !cell_at_insert_ne by done. split; [done|].
        split; [|done]. rewrite slice_length; [done|lia|lia]. }
    f_equal. f_equal.
    + by rewrite <- !app_assoc.
    + rewrite !map_map. apply map_ext. intros [i r]. simpl.
      unfold with_time_key. by rewrite !cell_at_insert_ne.
  - intros r d t Ed Et. unfold with_time_key. rewrite Ed, Et. simpl.
    split; [|split].
    + by rewrite !lookup_insert_ne, lookup_insert_eq by done.
    + by rewrite lookup_insert_ne, lookup_insert_eq by done.
    + by rewrite lookup_insert_eq.
  - intros r c Hc. unfold with_time_key.
    rewrite !lookup_insert_ne; [done|..]; intros <-;
      revert Hc; apply Hnew; repeat (first [by left | right]).
Qed.

(** ** Group keys *)











Lemma pairwise_distinct_filter p l :
  pairwise_distinct l → pairwise_distinct (List.filter p l).
Proof.
  induction l as [|k l IH]; [done|]. intros [Hk Hl]. cbn [List.filter].
  destruct (p k); [|by apply IH]. split; [|by apply IH].
  apply Forall_forall. intros k' Hk'.
  apply list_elem_of_In, filter_In in Hk' as [Hk' _].
  by apply (proj1 (Forall_forall _ _) Hk), list_elem_of_In.
Qed.

Lemma distinct_keys_pairwise l : pairwise_distinct (distinct_keys l).
Proof.
  induction l as [|k l IH]; [done|]. simpl. split.
  - apply Forall_forall. intros k' Hk'.
    apply list_elem_of_In, filter_In in Hk' as [_ Hk'].
    by apply negb_true_iff in Hk'.
  - by apply pairwise_distinct_filter.
Qed.

Lemma distinct_keys_elem l k : k ∈ distinct_keys l → k ∈ l.
Proof.
  induction l as [|k0 l IH]; [done|]. simpl. intros H.
  apply elem_of_cons in H as [->|H]; [by left|]. right. apply IH.
  apply list_elem_of_In, filter_In in H as [H _]. by apply list_elem_of_In.
Qed.


Lemma insert_key_elem k l x : x ∈ insert_key k l ↔ x = k ∨ x ∈ l.
Proof.
  induction l as [|k' l IH]; simpl.
  - rewrite list_elem_of_singleton. split; [by left|]. intros [?|H]; [done|].
    by apply elem_of_nil in H.
  - destruct (key_compare k k'); rewrite !elem_of_cons, ?IH; tauto.
Qed.

Lemma sort_keys_elem l x : x ∈ sort_keys l ↔ x ∈ l.
Proof.
  unfold sort_keys. induction l as [|k l IH]; simpl; [done|].
  rewrite insert_key_elem, elem_of_cons, IH. done.
Qed.






(** ** Hourly means *)

Lemma list_to_map_values (g : string → cell) (vals : list string) c :
  c ∈ vals →
  (list_to_map (map (λ c, (c, g c)) vals) : gmap string cell) !! c = Some (g c).
Proof.
  induction vals as [|c0 vals IH]; intros H; [by apply elem_of_nil in H|].
  simpl. destruct (decide (c0 = c)) as [->|Hne].
  - apply lookup_insert_eq.
  - rewrite lookup_insert_ne by done. apply IH.
    apply elem_of_cons in H as [?|?]; [congruence|done].
Qed.

Lemma value_columns_not_keys keys df c : c ∈ value_columns keys df → c ∉ keys.
Proof.
  unfold value_columns. intros H.
  apply list_elem_of_fmap in H as ([c' d] & -> & H).
  apply list_elem_of_In, filter_In in H as [_ H]. simpl in *.
  apply andb_true_iff in H as [_ H]. apply negb_true_iff in H.
  by apply bool_decide_eq_false in H.
Qed.

Section HourlyMeans.

Context {sch : summation}.

Lemma group_row_key vals rs h d o :
  group_row hour_keys vals rs [h; d] = Ok o → row_key hour_keys o = [h; d].
Proof.
  unfold group_row. intros H. apply rbind_Ok in H as (ms & _ & H). injection H as <-.
  unfold row_key, hour_keys. simpl.
  rewrite cell_at_insert, cell_at_insert_ne, cell_at_insert by done. done.
Qed.

Lemma list_to_map_computed (f : string → result cell) (vals : list string)
    (ms : list (string * cell)) c :
  Forall2 (λ c cm, (m ←? f c; Ok (c, m)) = Ok cm) vals ms → c ∈ vals →
  ∃ m, (list_to_map ms : gmap string cell) !! c = Some m ∧ f c = Ok m.
Proof.
  induction 1 as [|c0 [c1 m0] vals ms H0 _ IH]; intros Hc; [by apply elem_of_nil in Hc|].
  apply rbind_Ok in H0 as (m & Hm & H0). injection H0 as <- <-. simpl.
  destruct (decide (c0 = c)) as [->|Hne].
  - exists m. split; [apply lookup_insert_eq|done].
  - rewrite lookup_insert_ne by done. apply IH.
    apply elem_of_cons in Hc as [?|?]; [congruence|done].
Qed.

Lemma group_row_value vals rs h d o c :
  group_row hour_keys vals rs [h; d] = Ok o → c ∈ vals → c ∉ hour_keys →
  ∃ m, o !! c = Some m
       ∧ mean (map (λ ir, cell_at ir.2 c) (group_rows hour_keys [h; d] rs)) = Ok m.
Proof.
  unfold group_row. intros H Hc Hk. apply rbind_Ok in H as (ms & Hms & H).
  injection H as <-. apply mapR_Forall2 in Hms.
  destruct (list_to_map_computed
              (λ c, mean (map (λ ir, cell_at ir.2 c) (group_rows hour_keys [h; d] rs)))
              vals ms c Hms Hc) as (m & Hm & Hmean).
  exists m. split; [|done]. unfold hour_keys in *. simpl.
  rewrite !lookup_insert_ne; [done|..].
  - intros <-. apply Hk. right. by left.
  - intros <-. apply Hk. by left.
Qed.


End HourlyMeans.

(** ** Means without rounding *)

Lemma round64_proper x y : x == y → round64 x = round64 y.
Proof. intros E. unfold round64. by rewrite (Qred_complete _ _ E). Qed.

Lemma is_float64_proper x y : x == y → is_float64 x → is_float64 y.
Proof.
  intros E (q & Hq & Eq). exists q. split; [by rewrite <- (round64_proper _ _ E)|].
  by rewrite Eq.
Qed.







(** ** The key of a cleaned row is never missing *)








Lemma assign_slice_rows src dst a b df df' :
  assign_slice src dst a b df = Ok df' →
  rowwise (λ r, v ←? match str_slice a b (cell_at r src) with
                     | VStr s => float_of_string s
                     | w => Ok w
                     end; Ok (<[dst := v]> r)) (rows df) (rows df')
  ∧ columns df' = set_dtype dst float64 (columns df).
Proof.
  unfold assign_slice. destruct (column_dtype df src) as [[]|]; try discriminate.
  apply assign_column_rows.
Qed.


Lemma set_dtype_elem dst dt cs c :
  c ∈ (set_dtype dst dt cs).*1 → c = dst ∨ c ∈ cs.*1.
Proof.
  unfold set_dtype. case_bool_decide as Hin.
  - intros H. right. by rewrite <- (set_dtype_names dst dt cs Hin); unfold set_dtype;
      rewrite bool_decide_eq_true_2.
  - rewrite fmap_app. intros H. apply elem_of_app in H as [H|H]; [by right|].
    left. by apply list_elem_of_singleton in H.
Qed.

Lemma add_time_columns_sources df df' :
  add_time_columns df = Ok df' →
  "YYYYMMDD" ∈ column_names df ∧ "hhmmss" ∈ column_names df.
Proof.
  unfold add_time_columns. intros H.
  apply rbind_Ok in H as (df1 & H1 & H). apply rbind_Ok in H as (df2 & H2 & H3).
  split.
  - unfold assign_slice in H1.
    destruct (column_dtype df "YYYYMMDD") eqn:E; [|discriminate].
    by eapply column_dtype_elem.
  - assert ("hhmmss" ∈ column_names df2) as Hin.
    { unfold assign_slice in H3.
      destruct (column_dtype df2 "hhmmss") eqn:E; [|discriminate].
      by eapply column_dtype_elem. }
    apply assign_slice_rows in H1 as [_ H1].
    apply assign_slice_rows in H2 as [_ H2].
    unfold column_names in *. rewrite H2 in Hin.
    apply set_dtype_elem in Hin as [?|Hin]; [discriminate|].
    rewrite H1 in Hin.
    by apply set_dtype_elem in Hin as [?|Hin]; [discriminate|].
Qed.

Section HourlyAveraging.

Context {sch : summation}.
Variable float_repr : Q → string.





End HourlyAveraging.

(** ** The columns of the frames of one load *)

Lemma map_fmap {A B} (f : A → B) (l : list A) : map f l = f <$> l.
Proof. induction l as [|x l IH]; [done|]. simpl. by rewrite IH. Qed.

Section Columns.

Variable float_repr : Q → string.

Lemma apply_type_conversion_columns cols : ∀ df df',
  apply_type_conversion float_repr df cols = Ok df' →
  columns df' =
  map (λ cd, if bool_decide (cd.1 ∈ cols) then (cd.1, catalog_dtype cd.1) else cd)
    (columns df).
Proof.
  induction cols as [|c cols IH]; intros df df' H.
  - unfold apply_type_conversion in H. simpl in H. injection H as <-.
    rewrite <- (map_id (columns df)) at 1. apply map_ext. intros cd.
    by rewrite bool_decide_eq_false_2 by apply not_elem_of_nil.
  - unfold apply_type_conversion in H. simpl in H.
    apply rbind_Ok in H as (df1 & Hstep & H).
    destruct (has_column df c) eqn:Hc; [|discriminate].
    destruct (keyword_type_map !! c) as [t|] eqn:Ht; [|discriminate].
    apply assign_column_rows in Hstep as [_ Hstep].
    rewrite (IH _ _ H), Hstep. unfold set_dtype.
    rewrite bool_decide_eq_true_2 by (by apply has_column_true).
    rewrite map_map. apply map_ext. intros [c' d]. simpl.
    destruct (decide (c' = c)) as [->|Hne].
    + rewrite (bool_decide_eq_true_2 (c = c)) by done. simpl.
      rewrite (bool_decide_eq_true_2 (c ∈ c :: cols)) by (by left).
      unfold catalog_dtype. rewrite Ht. by case_bool_decide.
    + rewrite (bool_decide_eq_false_2 (c' = c)) by done. simpl.
      assert (bool_decide (c' ∈ c :: cols) = bool_decide (c' ∈ cols)) as ->; [|done].
      apply bool_decide_ext. rewrite elem_of_cons. split; [intros [?|?]|]; tauto.
Qed.

Lemma sanitize_columns cols df out :
  sanitize float_repr cols df = Ok out → column_names df = cols →
  columns out = cleaned_columns cols.
Proof.
  unfold sanitize. intros H Hn.
  apply rbind_Ok in H as (df3 & H3 & H). apply rbind_Ok in H as (df4 & H4 & H).
  injection H as <-. simpl.
  rewrite (apply_limits_columns _ _ _ H4), (apply_type_conversion_columns _ _ _ H3).
  simpl. unfold cleaned_columns. subst cols. unfold column_names.
  rewrite !map_fmap, <- list_fmap_compose. apply list_fmap_ext.
  intros k [c d] Hk. simpl. rewrite bool_decide_eq_true_2; [done|].
  apply list_elem_of_fmap. exists (c, d).
  split; [done|]. by eapply list_elem_of_lookup_2.
Qed.

End Columns.

Lemma add_time_columns_columns df df' :
  add_time_columns df = Ok df' →
  columns df' =
  set_dtype "Hour" float64
    (set_dtype "Day" float64 (set_dtype "Month" float64 (columns df))).
Proof.
  unfold add_time_columns. intros H.
  apply rbind_Ok in H as (df1 & H1 & H). apply rbind_Ok in H as (df2 & H2 & H3).
  apply assign_slice_rows in H1 as [_ H1].
  apply assign_slice_rows in H2 as [_ H2].
  apply assign_slice_rows in H3 as [_ H3]. congruence.
Qed.

Lemma groupby_mean_shape {sch : summation} ct agg :
  groupby_mean hour_keys ct = Ok agg →
  column_names agg = (hour_keys ++ value_columns hour_keys ct)%list
  ∧ wf_frame agg.
Proof.
  intros H. unfold groupby_mean in H.
  apply rbind_Ok in H as (kcs & Hk & H). cbv zeta in H.
  apply rbind_Ok in H as (groups & Hgroups & H). injection H as <-.
  apply mapR_Forall2 in Hgroups.
  assert (kcs.*1 = hour_keys) as Ek.
  { apply mapR_Forall2 in Hk. clear -Hk.
    induction Hk as [|c p cols cs Hp _ IH]; [done|].
    rewrite fmap_cons, IH. f_equal.
    destruct (column_dtype ct c); [|discriminate]. by injection Hp as <-. }
  assert (∀ rs, column_names
            (mkDataFrame (kcs ++ map (λ c, (c, float64)) (value_columns hour_keys ct))%list rs)
          = (hour_keys ++ value_columns hour_keys ct)%list) as En.
  { intros rs. unfold column_names. cbn [columns]. rewrite fmap_app, Ek. f_equal.
    clear. induction (value_columns hour_keys ct) as [|c l IH]; [done|].
    cbn [map]. by rewrite fmap_cons, IH. }
  split; [apply En|].
  unfold wf_frame. apply Forall_forall.
  intros o Ho c Hc. rewrite En in Hc. cbn [rows] in Ho.
  apply list_elem_of_fmap in Ho as ([j o'] & -> & Ho).
  apply elem_of_lookup_imap in Ho as (j' & o & E & Ho). injection E as -> ->.
  destruct (Forall2_lookup_r _ _ _ _ _ Hgroups Ho) as (k & Hk' & Hg).
  apply list_elem_of_lookup_2, sort_keys_elem, distinct_keys_elem in Hk'.
  apply list_elem_of_In, in_map_iff in Hk' as ([i r] & <- & _).
  simpl. apply elem_of_app in Hc as [Hc|Hc].
  - unfold group_row in Hg. apply rbind_Ok in Hg as (ms & _ & Hg). injection Hg as <-.
    unfold hour_keys in Hc. unfold row_key, hour_keys. simpl.
    apply elem_of_cons in Hc as [->|Hc]; [rewrite lookup_insert_eq; eauto|].
    apply elem_of_cons in Hc as [->|Hc]; [|by apply elem_of_nil in Hc].
    rewrite lookup_insert_ne, lookup_insert_eq by done. eauto.
  - destruct (group_row_value _ _ _ _ _ c Hg Hc) as (m & -> & _); [|eauto].
    by eapply value_columns_not_keys.
Qed.

Section AggregatedFrames.

Context {sch : summation}.
Variable float_repr : Q → string.
Variable fs : FileSystem.

Lemma file_frame_columns cols file a :
  file_frame float_repr fs cols file = Ok a → columns a = cleaned_columns cols.
Proof.
  unfold file_frame. intros H.
  apply rbind_Ok in H as (u & _ & H).
  apply rbind_Ok in H as (df & _ & H).
  apply rbind_Ok in H as (df1 & Hsel & H).
  apply select_columns_names in Hsel. by eapply sanitize_columns.
Qed.

Lemma file_frame_average_hours_shaped cols file a :
  file_frame_average_hours float_repr fs cols file = Ok a →
  shaped (aggregated_names cols) a.
Proof.
  unfold file_frame_average_hours. intros H.
  apply rbind_Ok in H as (c & Hc & H). apply rbind_Ok in H as (t & Ht & Hg).
  apply file_frame_columns in Hc. apply add_time_columns_columns in Ht.
  apply groupby_mean_shape in Hg as [Hn Hw].
  split; [done|]. left. rewrite Hn. unfold aggregated_names. f_equal.
  unfold value_columns. simpl. unfold timed_columns. by rewrite Ht, Hc.
Qed.

End AggregatedFrames.

(** ** Assembling directories *)

Section Assembler.

Context {sch : summation}.
Variable float_repr : Q → string.
Variable fs : FileSystem.

Lemma load_average_hours_snd directory cols :
  (load_dataset_from_directory_partial_average_hours float_repr fs directory cols).2 =
  dl ←? fs_listdir fs directory;
  st ←? foldR (λ st f, if endswith f ".csv"
                 then df ←? file_frame_average_hours float_repr fs cols
                              (path_join directory f);
                      Ok (concat st.1 df true, S st.2)
                 else Ok st) dl (empty_frame, 0%nat);
  Ok st.1.
Proof.
  unfold load_dataset_from_directory_partial_average_hours.
  rewrite io_bind_snd. simpl.
  destruct (fs_listdir fs directory) as [dl|]; simpl; [|done].
  rewrite io_bind_snd, foldIO_snd.
  rewrite (foldR_ext _ _ dl (average_hours_step_snd float_repr fs directory cols dl)).
  destruct (foldR _ dl _); simpl; done.
Qed.

(** The frame of a directory: the aggregated batches of its files, one
    after the other. *)
Lemma directory_frames directory cols out :
  (load_dataset_from_directory_partial_average_hours float_repr fs directory cols).2
    = Ok out →
  ∃ dl frames,
    fs_listdir fs directory = Ok dl
    ∧ Forall2 (λ f a, file_frame_average_hours float_repr fs cols
                        (path_join directory f) = Ok a) (csv_files dl) frames
    ∧ shaped (aggregated_names cols) out
    ∧ (rows out).*2 = mjoin (map (λ a, (rows a).*2) frames).
Proof.
  rewrite load_average_hours_snd. intros H.
  apply rbind_Ok in H as (dl & Hdl & H).
  apply rbind_Ok in H as (st & Hloop & H). injection H as <-.
  apply (loop_collects
           (λ f, file_frame_average_hours float_repr fs cols (path_join directory f))
           (aggregated_names cols)) in Hloop as (frames & HF & Hs & Hv).
  - exists dl, frames. split; [done|]. split; [done|]. split; [done|]. exact Hv.
  - intros f a Ha. by eapply file_frame_average_hours_shaped.
  - apply shaped_empty.
Qed.

Lemma load_multiple_snd ds cols :
  (load_multiple_datasets_average_hours float_repr fs ds cols).2 =
  foldR (λ df_ret d,
           df_tmp ←? (load_dataset_from_directory_partial_average_hours
                        float_repr fs d cols).2;
           Ok (concat df_ret df_tmp false)) ds empty_frame.
Proof.
  unfold load_multiple_datasets_average_hours. rewrite foldIO_snd.
  apply foldR_ext. intros acc d. rewrite io_bind_snd.
  by destruct (load_dataset_from_directory_partial_average_hours _ _ _ _).2.
Qed.

(** The assembler appends, to what it has, the frames of the directories. *)
Lemma assemble_collects (G : string → result DataFrame) N ds :
  (∀ d a, G d = Ok a → shaped N a) →
  ∀ acc out, shaped N acc →
    foldR (λ acc d, df ←? G d; Ok (concat acc df false)) ds acc = Ok out →
    ∃ frames,
      Forall2 (λ d a, G d = Ok a) ds frames
      ∧ shaped N out
      ∧ rows out = (rows acc ++ mjoin (map rows frames))%list.
Proof.
  intros HG. induction ds as [|d ds IH]; intros acc out Hs H; simpl in H.
  - injection H as <-. exists []. split; [constructor|]. split; [done|].
    simpl. by rewrite app_nil_r.
  - apply rbind_Ok in H as (acc1 & Hstep & H).
    apply rbind_Ok in Hstep as (a & Ha & Hstep). injection Hstep as <-.
    destruct (concat_shaped N acc a false Hs (HG _ _ Ha)) as (Hs1 & _ & Hr1).
    destruct (IH _ _ Hs1 H) as (frames & HF & Hs' & Hr).
    exists (a :: frames). split; [by constructor|]. split; [done|].
    rewrite Hr, (Hr1 eq_refl). cbn [map mjoin]. by rewrite <- app_assoc.
Qed.

Lemma assemble_from (G : string → result DataFrame) N ds frames :
  (∀ d a, G d = Ok a → shaped N a) →
  Forall2 (λ d a, G d = Ok a) ds frames →
  ∀ acc, shaped N acc →
    ∃ out, foldR (λ acc d, df ←? G d; Ok (concat acc df false)) ds acc = Ok out
           ∧ rows out = (rows acc ++ mjoin (map rows frames))%list.
Proof.
  intros HG HF. induction HF as [|d a ds frames Ha _ IH]; intros acc Hs.
  - exists acc. split; [done|]. simpl. by rewrite app_nil_r.
  - simpl. rewrite Ha. simpl.
    destruct (concat_shaped N acc a false Hs (HG _ _ Ha)) as (Hs1 & _ & Hr1).
    destruct (IH _ Hs1) as (out & Hout & Hr).
    exists out. split; [done|].
    rewrite Hr, (Hr1 eq_refl). cbn [map mjoin]. by rewrite <- app_assoc.
Qed.

Lemma directory_shaped cols d a :
  (load_dataset_from_directory_partial_average_hours float_repr fs d cols).2 = Ok a →
  shaped (aggregated_names cols) a.
Proof. intros H. by destruct (directory_frames _ _ _ H) as (? & ? & _ & _ & ? & _). Qed.

(** C6. Concatenation order: when assembling each of two lists of
    directories returns a frame, assembling the first list followed by the
    second returns the rows of the first frame followed by the rows of the
    second, labels included; and the rows of each of the two frames are the
    rows of the frames [load_dataset_from_directory_partial_average_hours]
    returns for its directories, one directory after the other in the order
    given.  Nothing is merged or removed, so a directory given twice
    contributes its rows twice. *)
Theorem assemble_concatenates ds1 ds2 cols o1 o2 :
  (load_multiple_datasets_average_hours float_repr fs ds1 cols).2 = Ok o1 →
  (load_multiple_datasets_average_hours float_repr fs ds2 cols).2 = Ok o2 →
  ∃ out frames1 frames2,
    (load_multiple_datasets_average_hours float_repr fs (ds1 ++ ds2) cols).2 = Ok out
    ∧ rows out = (rows o1 ++ rows o2)%list
    ∧ Forall2 (λ d a, (load_dataset_from_directory_partial_average_hours
                         float_repr fs d cols).2 = Ok a) ds1 frames1
    ∧ Forall2 (λ d a, (load_dataset_from_directory_partial_average_hours
                         float_repr fs d cols).2 = Ok a) ds2 frames2
    ∧ rows o1 = mjoin (map rows frames1)
    ∧ rows o2 = mjoin (map rows frames2)
    ∧ rows out = mjoin (map rows (frames1 ++ frames2)).
Proof.
  rewrite !load_multiple_snd. intros H1 H2.
  set (G := λ d, (load_dataset_from_directory_partial_average_hours
                    float_repr fs d cols).2) in *.
  assert (∀ d a, G d = Ok a → shaped (aggregated_names cols) a) as HG.
  { intros d a. apply directory_shaped. }
  destruct (assemble_collects G _ ds1 HG _ _ (shaped_empty _) H1) as (f1 & HF1 & Hs1 & Hr1).
  destruct (assemble_collects G _ ds2 HG _ _ (shaped_empty _) H2) as (f2 & HF2 & _ & Hr2).
  cbn [rows empty_frame app] in Hr1, Hr2.
  rewrite foldR_app, H1. simpl.
  destruct (assemble_from G _ ds2 f2 HG HF2 o1 Hs1) as (out & Hout & Hr).
  exists out, f1, f2. split; [done|].
  assert (rows out = (rows o1 ++ rows o2)%list) as E by (by rewrite Hr, Hr2).
  repeat (split; [done|]).
  rewrite E, Hr1, Hr2, map_app. clear.
  induction (map rows f1) as [|x l IH]; [done|].
  simpl. by rewrite <- app_assoc, IH.
Qed.

(** C10. Averaging is per file: the rows [load_dataset_from_directory_
    partial_average_hours] returns are the rows of the aggregated batch of
    the first ".csv" file of the listing, then those of the second, and so
    on, each batch computed from the rows of its own file; and the rows the
    assembler returns are the rows of the frame of the first directory,
    then those of the second, and so on.  Rows of different files are never
    grouped together, whatever their keys. *)
Theorem averaging_is_per_file directory ds cols out1 out2 :
  (load_dataset_from_directory_partial_average_hours float_repr fs directory cols).2
    = Ok out1 →
  (load_multiple_datasets_average_hours float_repr fs ds cols).2 = Ok out2 →
  (∃ dl frames,
     fs_listdir fs directory = Ok dl
     ∧ Forall2 (λ f a, file_frame_average_hours float_repr fs cols
                         (path_join directory f) = Ok a) (csv_files dl) frames
     ∧ (rows out1).*2 = mjoin (map (λ a, (rows a).*2) frames))
  ∧ (∃ frames,
       Forall2 (λ d a, (load_dataset_from_directory_partial_average_hours
                          float_repr fs d cols).2 = Ok a) ds frames
       ∧ rows out2 = mjoin (map rows frames)).
Proof.
  intros H1 H2. split.
  - destruct (directory_frames _ _ _ H1) as (dl & frames & ? & ? & _ & ?). eauto.
  - rewrite load_multiple_snd in H2.
    apply (assemble_collects
             (λ d, (load_dataset_from_directory_partial_average_hours
                      float_repr fs d cols).2) (aggregated_names cols)) in H2
      as (frames & HF & _ & Hr).
    + exists frames. by split.
    + intros d a. apply directory_shaped.
    + apply shaped_empty.
Qed.

End Assembler.

(** ** A selected column the catalog does not know *)

Section UnknownColumn.

Context {sch : summation}.
Variable float_repr : Q → string.
Variable fs : FileSystem.

Lemma apply_type_conversion_unknown cols c : ∀ df,
  c ∈ cols → keyword_type_map !! c = None →
  ∃ e, apply_type_conversion float_repr df cols = Raise e.
Proof.
  induction cols as [|c0 cols IH]; intros df Hc Hn.
  - by apply elem_of_nil in Hc.
  - unfold apply_type_conversion. simpl.
    destruct (has_column df c0); [|eauto].
    destruct (decide (c0 = c)) as [->|Hne]; [rewrite Hn; eauto|].
    destruct (keyword_type_map !! c0) as [t|]; [|eauto].
    destruct (assign_column c0 c0 (dtype_of t) (astype float_repr t) df) as [df1|e];
      [|eauto].
    simpl. apply IH; [|done]. apply elem_of_cons in Hc as [?|?]; [congruence|done].
Qed.

Lemma sanitize_unknown cols c df :
  c ∈ cols → keyword_type_map !! c = None →
  ∃ e, sanitize float_repr cols df = Raise e.
Proof.
  intros Hc Hn. unfold sanitize.
  destruct (apply_type_conversion_unknown cols c
              (dropna (applymap (contains_error float_repr) df)) Hc Hn) as [e ->].
  eauto.
Qed.

(** The turn of the loop on a ".csv" file fails, after the file was opened
    and, when that succeeded, read. *)
Lemma partial_step_unknown directory cols c dl st f :
  c ∈ cols → keyword_type_map !! c = None → endswith f ".csv" = true →
  ∃ tr e,
    partial_step float_repr fs directory cols dl st f
      = (EvOpen (path_join directory f) :: tr, Raise e)
    ∧ (fs_open fs (path_join directory f) = Ok tt →
       tr = [EvReadCsv (path_join directory f); EvClose (path_join directory f)]).
Proof.
  intros Hc Hn Hf. unfold partial_step. destruct st as [big n]. rewrite Hf.
  unfold with_open, read_csv, io_lift, io_do, stdout_write.
  destruct (fs_open fs (path_join directory f)) as [[]|e0] eqn:Eo; simpl.
  2:{ exists [], e0. split; [done|]. intros H. discriminate. }
  destruct (fs_read_csv fs (path_join directory f)) as [df|e1]; simpl.
  2:{ exists [EvReadCsv (path_join directory f); EvClose (path_join directory f)], e1.
      done. }
  destruct (select_columns df cols) as [df1|e2]; simpl.
  2:{ exists [EvReadCsv (path_join directory f); EvClose (path_join directory f)], e2.
      done. }
  destruct (sanitize_unknown cols c df1 Hc Hn) as [e3 ->]. simpl.
  exists [EvReadCsv (path_join directory f); EvClose (path_join directory f)], e3.
  done.
Qed.

Lemma partial_loop_unknown directory cols c dl0 : ∀ dl st,
  c ∈ cols → keyword_type_map !! c = None →
  match csv_files dl with
  | [] => foldIO (partial_step float_repr fs directory cols dl0) dl st = ([], Ok st)
  | f :: _ =>
      ∃ tr e,
        foldIO (partial_step float_repr fs directory cols dl0) dl st
          = (EvOpen (path_join directory f) :: tr, Raise e)
        ∧ (fs_open fs (path_join directory f) = Ok tt →
           tr = [EvReadCsv (path_join directory f); EvClose (path_join directory f)])
  end.
Proof.
  intros dl st Hc Hn. induction dl as [|f dl IH]; [done|].
  unfold csv_files. cbn [List.filter foldIO].
  destruct (endswith f ".csv") eqn:Hf.
  - destruct (partial_step_unknown directory cols c dl0 st f Hc Hn Hf)
      as (tr & e & -> & Htr).
    exists tr, e. done.
  - assert (partial_step float_repr fs directory cols dl0 st f = io_ret st) as ->.
    { unfold partial_step. destruct st. by rewrite Hf. }
    unfold io_ret, io_bind. fold (csv_files dl).
    destruct (csv_files dl) as [|f' l].
    + by rewrite IH.
    + destruct IH as (tr & e & -> & Htr). exists tr, e. done.
Qed.

(** C8, as amended. With a selected column that the catalog does not
    know: when the listing has no ".csv" file the loader returns the empty
    frame and raises nothing; otherwise it returns no frame: the load fails
    at the first ".csv" file, after that file was opened and, when the
    opening succeeded, read. *)
Theorem unknown_column_fails_at_first_file directory cols c dl :
  c ∈ cols → keyword_type_map !! c = None →
  fs_listdir fs directory = Ok dl →
  match csv_files dl with
  | [] =>
      load_dataset_from_directory_partial float_repr fs directory cols
        = ([EvListdir directory; EvStdout LF], Ok empty_frame)
  | f :: _ =>
      ∃ tr e,
        load_dataset_from_directory_partial float_repr fs directory cols
          = (EvListdir directory :: EvOpen (path_join directory f) :: tr, Raise e)
        ∧ (fs_open fs (path_join directory f) = Ok tt →
           tr = [EvReadCsv (path_join directory f); EvClose (path_join directory f)])
  end.
Proof.
  intros Hc Hn Hdl. unfold load_dataset_from_directory_partial.
  rewrite Hdl. unfold io_do. cbn [io_bind].
  pose proof (partial_loop_unknown directory cols c dl dl (empty_frame, 0%nat) Hc Hn)
    as Hloop.
  destruct (csv_files dl) as [|f l].
  - rewrite Hloop. reflexivity.
  - destruct Hloop as (tr & e & -> & Htr). exists tr, e. done.
Qed.

End UnknownColumn.

(** ** [convert_timestamp_to_string] *)

(** C9. In the module as written the name [datetime] is never bound: the
    call raises [NameError] for every timestamp, where the specification
    promises the formatted time. *)
Theorem convert_timestamp_to_string_raises unixtime :
  convert_timestamp_to_string module_globals unixtime = Raise (NameError "datetime").
Proof. reflexivity. Qed.

(** With [from datetime import datetime] added, the function returns what
    the specification says, for instance at the epoch. *)
Lemma convert_timestamp_with_import :
  convert_timestamp_to_string
    (<["datetime" := PyClass "datetime.datetime"]> module_globals) (VInt 0)
  = Ok "1970-01-01 00:57:19".
Proof. vm_compute. reflexivity. Qed.

(** * Further properties of the code *)

(** ** Type conversion *)

Section TypeConversion.

Variable float_repr : Q → string.

Lemma convert_row_other cols c : ∀ r r',
  convert_row float_repr cols r = Ok r' → c ∉ cols → cell_at r' c = cell_at r c.
Proof.
  induction cols as [|c0 cols IH]; intros r r' H Hc.
  - unfold convert_row in H. simpl in H. by inv_ok; subst.
  - apply convert_row_step in H as (t0 & v & Ht0 & Hv & H).
    rewrite not_elem_of_cons in Hc. destruct Hc as [Hne Hc].
    rewrite (IH _ _ H Hc). by apply cell_at_insert_ne.
Qed.

(** X1. [apply_type_conversion] keeps the rows, their labels and their
    order; a column that is not selected keeps its dtype and its cells; a
    selected column takes the dtype of the catalog and each of its cells is
    the cast of the old cell, so that a [np.float64] column holds floats and
    NaN only. *)
Theorem apply_type_conversion_post df cols df' :
  apply_type_conversion float_repr df cols = Ok df' →
  columns df' =
    map (λ cd, if bool_decide (cd.1 ∈ cols) then (cd.1, catalog_dtype cd.1) else cd)
      (columns df)
  ∧ Forall2 (λ ir ir',
       ir'.1 = ir.1
       ∧ ∀ c,
           (c ∉ cols → cell_at ir'.2 c = cell_at ir.2 c)
           ∧ (c ∈ cols → ∃ t, keyword_type_map !! c = Some t
                ∧ astype float_repr t (cell_at ir.2 c) = Ok (cell_at ir'.2 c)
                ∧ (t = np_float64 →
                   cell_at ir'.2 c = VNaN ∨ ∃ q, cell_at ir'.2 c = VFloat q)))
      (rows df) (rows df').
Proof.
  intros H. split; [by apply (apply_type_conversion_columns float_repr)|].
  pose proof (apply_type_conversion_rows _ _ _ _ H) as Hrows.
  unfold rowwise in Hrows. eapply Forall2_impl; [exact Hrows|].
  intros [i r] [i' r'] [E Hc]. simpl in *. split; [done|].
  intros c. split.
  - intros Hn. by eapply convert_row_other.
  - intros Hin. destruct (convert_row_in_catalog _ _ _ _ _ Hc Hin) as [t Ht].
    exists t. split; [done|].
    pose proof (convert_row_cell _ _ _ _ _ _ Ht Hc Hin) as Hv.
    split; [done|]. intros ->. by eapply astype_float_shape.
Qed.

(** X2. A cell that cannot be cast is fatal: when some row holds, in a
    selected column, a value the cast of the catalog type rejects with
    [ValueError] (a text that is not a number in a [np.float64] column), the
    conversion raises and returns no frame, however many rows are fine. *)
Theorem apply_type_conversion_rejects df cols i r c t s :
  (i, r) ∈ rows df → c ∈ cols → keyword_type_map !! c = Some t →
  astype float_repr t (cell_at r c) = Raise (ValueError s) →
  ∃ e', apply_type_conversion float_repr df cols = Raise e'.
Proof.
  intros Hin Hc Ht He.
  destruct (apply_type_conversion float_repr df cols) as [df'|e'] eqn:H; [|eauto].
  pose proof (apply_type_conversion_rows _ _ _ _ H) as Hrows.
  apply list_elem_of_lookup in Hin as [k Hk].
  destruct (Forall2_lookup_l _ _ _ _ _ Hrows Hk) as ([i' r'] & _ & _ & Hconv).
  simpl in Hconv.
  pose proof (convert_row_cell _ _ _ _ _ _ Ht Hconv Hc) as Hv. congruence.
Qed.

End TypeConversion.

(** ** Order of the cleaned rows *)

Lemma omap_labels_sublist {A} (f : nat * A → option (nat * A)) (l : list (nat * A)) :
  (∀ x y, f x = Some y → y.1 = x.1) → (omap f l).*1 `sublist_of` l.*1.
Proof.
  intros Hf. induction l as [|x l IH]; [constructor|].
  csimpl. destruct (f x) as [y|] eqn:E.
  - csimpl. rewrite (Hf _ _ E). by constructor.
  - by constructor.
Qed.

(** X3. Sanitizing neither reorders nor duplicates rows: the labels of the
    cleaned batch are a sub-sequence of the labels of the raw batch, and the
    column labels are the same. *)
Theorem sanitize_keeps_order float_repr cols df out :
  sanitize float_repr cols df = Ok out →
  (rows out).*1 `sublist_of` (rows df).*1
  ∧ column_names out = column_names df.
Proof.
  intros H. destruct (sanitize_rows _ _ _ _ H) as [Hr Hn]. split; [|done].
  rewrite Hr. apply omap_labels_sublist.
  intros [i r] [i' r'] E. unfold cleaned_row in E. simpl in *.
  destruct (sanitize_row float_repr (column_names df) cols r) as [[r0|]|];
    try discriminate.
  by injection E as -> _.
Qed.

(** ** The limits *)

Lemma limit_row_keeps cols : ∀ r r',
  limit_row cols r = Ok r' → row_within cols r → r' = r.
Proof.
  induction cols as [|c0 cols IH]; intros r r' H Hw.
  - unfold limit_row in H. simpl in H. by injection H.
  - unfold limit_row in H. simpl in H. apply rbind_Ok in H as (r1 & Hstep & H).
    assert (r1 = r) as ->.
    { destruct (value_limits !! c0) as [[lo hi]|] eqn:Hl; [|by injection Hstep].
      destruct (Hw c0 lo hi ltac:(by left) Hl) as [E|(q & Hq & Hlo & Hhi)].
      - rewrite E in Hstep. simpl in Hstep. rewrite E in Hstep. simpl in Hstep.
        by injection Hstep.
      - destruct (cell_at r c0) as [z|q'| |] eqn:E; try discriminate Hq;
          injection Hq as <-; simpl in Hstep.
        + rewrite <- Zle_Qle in Hlo, Hhi.
          rewrite (proj2 (Z.ltb_ge z lo) Hlo) in Hstep. simpl in Hstep.
          rewrite E in Hstep. simpl in Hstep.
          rewrite (proj2 (Z.ltb_ge hi z) Hhi) in Hstep. by injection Hstep.
        + rewrite (Qlt_bool_ge _ _ Hlo) in Hstep. simpl in Hstep.
          rewrite E in Hstep. simpl in Hstep.
          rewrite (Qlt_bool_ge _ _ Hhi) in Hstep. by injection Hstep. }
    apply IH; [exact H|]. intros c lo hi Hc. apply Hw. by right.
Qed.

(** X4. What [apply_limits] does, row by row, on a frame that has no
    [int64] column, as in the loaders, where the limits are applied after
    the type conversion (an [int64] column that receives a NaN is stored as
    [float64] by pandas, which is not covered): the columns, the labels and
    the order are kept; a row whose cells under the selected range columns
    all lie between the two limits, the limits themselves included (or are
    missing), is left exactly as it is; every other row has all its cells
    replaced by NaN.  When no selected column has declared limits the frame
    is returned as it is. *)
Theorem apply_limits_effect df cols df' :
  Forall (λ cd : string * dtype, cd.2 ≠ int64) (columns df) →
  apply_limits df cols = Ok df' →
  columns df' = columns df
  ∧ Forall2 (λ ir ir',
       ir'.1 = ir.1
       ∧ (row_within cols ir.2 → ir'.2 = ir.2)
       ∧ (¬ row_within cols ir.2 → ir'.2 = nan_row ir.2))
      (rows df) (rows df')
  ∧ ((∀ c, c ∈ cols → value_limits !! c = None) → df' = df).
Proof.
  intros _ H.
  pose proof (apply_limits_columns _ _ _ H) as Hc.
  pose proof (apply_limits_rows _ _ _ H) as Hr.
  split; [done|]. split.
  - unfold rowwise in Hr. eapply Forall2_impl; [exact Hr|].
    intros [i r] [i' r'] [E Hl]. simpl in *. split; [done|]. split.
    + intros Hw. by eapply limit_row_keeps.
    + intros Hnw. destruct (limit_row_cases _ _ _ Hl) as [->| ->]; [|done].
      destruct Hnw. intros c lo hi Hin Hlim. by eapply limit_row_within.
  - intros Hnone. destruct df as [cs rs], df' as [cs' rs']. simpl in *.
    f_equal; [done|]. symmetry.
    apply list_eq_Forall2. unfold rowwise in Hr.
    eapply Forall2_impl; [exact Hr|].
    intros [i r] [i' r'] [E Hl]. simpl in *. subst i'. f_equal. symmetry.
    eapply limit_row_keeps; [exact Hl|].
    intros c lo hi Hin Hlim. rewrite (Hnone c Hin) in Hlim. discriminate.
Qed.

(** ** The traces of the loaders *)

Lemma io_bind_fst {A B} (m : io A) (f : A → io B) :
  (io_bind m f).1 =
  (m.1 ++ match m.2 with
          | Ok a => (f a).1
          | Raise _ => []
          end)%list.
Proof.
  destruct m as [t [a|e]]; simpl; [by destruct (f a)|by rewrite app_nil_r].
Qed.

Lemma foldIO_ext {A S} (f g : S → A → io S) (l : list A) :
  (∀ s x, f s x = g s x) → ∀ acc, foldIO f l acc = foldIO g l acc.
Proof.
  intros E. induction l as [|x l IH]; intros acc; simpl; [done|].
  rewrite E. destruct (g acc x) as [t [a|e]]; simpl; [by rewrite IH|done].
Qed.

(** A property of traces that holds of every turn holds of the loop. *)
Lemma foldIO_trace {A S} (P : list event → Prop) (f : S → A → io S) (l : list A) :
  P [] → (∀ a b, P a → P b → P (a ++ b)%list) →
  (∀ st x, x ∈ l → P (f st x).1) →
  ∀ st, P (foldIO f l st).1.
Proof.
  intros Hnil Happ. induction l as [|x l IH]; intros Hstep st; [done|].
  cbn [foldIO]. rewrite io_bind_fst.
  apply Happ; [apply Hstep; by left|].
  destruct (f st x).2; [|done]. apply IH. intros st' y Hy. apply Hstep. by right.
Qed.

Section LoaderTraces.

Context {sch : summation}.
Variable float_repr : Q → string.
Variable fs : FileSystem.

Lemma partial_step_view directory cols dl st f :
  partial_step float_repr fs directory cols dl st f =
  loader_step fs (file_frame float_repr fs cols) directory dl st f.
Proof.
  unfold partial_step, loader_step, file_frame, file_events. destruct st as [big n].
  destruct (endswith f ".csv"); [|done].
  unfold with_open, read_csv, io_lift, io_do, stdout_write.
  destruct (fs_open fs (path_join directory f)) as [[]|e0]; simpl; [|done].
  destruct (fs_read_csv fs (path_join directory f)) as [df|e1]; simpl; [|done].
  destruct (select_columns df cols) as [df1|e2]; simpl; [|done].
  by destruct (sanitize float_repr cols df1) as [df2|e3].
Qed.

Lemma average_hours_step_view directory cols dl st f :
  average_hours_step float_repr fs directory cols dl st f =
  loader_step fs (file_frame_average_hours float_repr fs cols) directory dl st f.
Proof.
  unfold average_hours_step, loader_step, file_frame_average_hours, file_frame,
    file_events.
  destruct st as [big n].
  destruct (endswith f ".csv"); [|done].
  unfold with_open, read_csv, io_lift, io_do, stdout_write.
  destruct (fs_open fs (path_join directory f)) as [[]|e0]; simpl; [|done].
  destruct (fs_read_csv fs (path_join directory f)) as [df|e1]; simpl; [|done].
  destruct (select_columns df cols) as [df1|e2]; simpl; [|done].
  destruct (sanitize float_repr cols df1) as [df2|e3]; simpl; [|done].
  destruct (add_time_columns df2) as [df3|e4]; simpl; [|done].
  by destruct (groupby_mean _ df3) as [df4|e5].
Qed.

Lemma load_partial_view directory cols :
  load_dataset_from_directory_partial float_repr fs directory cols =
  loader_view fs (file_frame float_repr fs cols) directory.
Proof.
  unfold load_dataset_from_directory_partial, loader_view.
  destruct (fs_listdir fs directory) as [dl|e]; [|done].
  unfold io_do. cbn [io_bind].
  by rewrite (foldIO_ext _ _ dl (partial_step_view directory cols dl)).
Qed.

Lemma load_average_hours_view directory cols :
  load_dataset_from_directory_partial_average_hours float_repr fs directory cols =
  loader_view fs (file_frame_average_hours float_repr fs cols) directory.
Proof.
  unfold load_dataset_from_directory_partial_average_hours, loader_view.
  destruct (fs_listdir fs directory) as [dl|e]; [|done].
  unfold io_do. cbn [io_bind].
  by rewrite (foldIO_ext _ _ dl (average_hours_step_view directory cols dl)).
Qed.

End LoaderTraces.

Section ViewTraces.

Variable fs : FileSystem.
Variable F : string → result DataFrame.

Lemma loader_loop_success directory dl0 : ∀ dl st tr st',
  foldIO (loader_step fs F directory dl0) dl st = (tr, Ok st') →
  tr = mjoin (imap (λ k f, file_events (st.2 + S k) (length dl0) (path_join directory f))
                (csv_files dl))
  ∧ st'.2 = (st.2 + length (csv_files dl))%nat.
Proof.
  induction dl as [|f dl IH]; intros st tr st' H.
  - simpl in H. injection H as <- <-. simpl. by rewrite Nat.add_0_r.
  - cbn [foldIO] in H. unfold csv_files. cbn [List.filter]. fold (csv_files dl).
    unfold loader_step in H at 1.
    destruct (endswith f ".csv").
    + destruct (fs_open fs (path_join directory f)) as [u|e]; [|discriminate H].
      destruct (F (path_join directory f)) as [df|e]; [|discriminate H].
      cbn [io_bind] in H.
      destruct (foldIO _ dl _) as [t' r'] eqn:E. injection H as <- ->.
      destruct (IH _ _ _ E) as [-> Hn]. simpl in Hn. split.
      * rewrite imap_cons, Nat.add_1_r.
        change (file_events (S st.2) (length dl0) (path_join directory f) ++
                mjoin (imap (λ k f0, file_events (S st.2 + S k) (length dl0)
                                       (path_join directory f0)) (csv_files dl))
                = file_events (S st.2) (length dl0) (path_join directory f) ++
                  mjoin (imap ((λ k f0, file_events (st.2 + S k) (length dl0)
                                          (path_join directory f0)) ∘ S)
                           (csv_files dl)))%list.
        do 2 f_equal. apply imap_ext. intros k x _. simpl. f_equal. lia.
      * simpl. lia.
    + cbn [io_bind] in H. destruct (foldIO _ dl st) as [t' r'] eqn:E.
      injection H as <- ->. by apply IH.
Qed.

Lemma loader_view_success directory tr out :
  loader_view fs F directory = (tr, Ok out) →
  ∃ dl, fs_listdir fs directory = Ok dl
        ∧ tr = (EvListdir directory ::
                mjoin (imap (λ k f, file_events (S k) (length dl) (path_join directory f))
                         (csv_files dl)) ++ [EvStdout LF])%list.
Proof.
  unfold loader_view. destruct (fs_listdir fs directory) as [dl|e]; [|discriminate].
  unfold io_do. cbn [io_bind].
  destruct (foldIO _ dl _) as [t [st|e]] eqn:E; [|discriminate].
  cbn [io_bind stdout_write io_do io_ret]. intros H. injection H as <- <-.
  exists dl. split; [done|].
  apply loader_loop_success in E as [-> _]. simpl. done.
Qed.

Lemma loader_step_touched directory dl0 st f p :
  p ∈ touched (loader_step fs F directory dl0 st f).1 →
  endswith f ".csv" = true ∧ p = path_join directory f.
Proof.
  unfold loader_step. destruct (endswith f ".csv"); [|by intros H; apply elem_of_nil in H].
  destruct (fs_open fs _); [destruct (F _)|]; simpl; intros H; split; try done;
    repeat (apply elem_of_cons in H as [->|H]; [done|]); by apply elem_of_nil in H.
Qed.

Lemma loader_view_touched directory p :
  p ∈ touched (loader_view fs F directory).1 →
  ∃ dl f, fs_listdir fs directory = Ok dl ∧ f ∈ dl
          ∧ endswith f ".csv" = true ∧ p = path_join directory f.
Proof.
  unfold loader_view. destruct (fs_listdir fs directory) as [dl|e];
    [|by intros H; apply elem_of_nil in H].
  unfold io_do. cbn [io_bind].
  destruct (foldIO _ dl _) as [t r] eqn:E.
  assert (∀ q, q ∈ touched t → ∃ f, f ∈ dl ∧ endswith f ".csv" = true
                                    ∧ q = path_join directory f) as Ht.
  { replace t with (foldIO (loader_step fs F directory dl) dl (empty_frame, 0%nat)).1
      by (by rewrite E).
    apply (foldIO_trace (λ t, ∀ q, q ∈ touched t → ∃ f, f ∈ dl ∧ endswith f ".csv" = true
                                                   ∧ q = path_join directory f)).
    - intros q H. by apply elem_of_nil in H.
    - intros a b Ha Hb q H. unfold touched in H. rewrite omap_app in H.
      apply elem_of_app in H as [H|H]; [by apply Ha|by apply Hb].
    - intros st f Hf q H. apply loader_step_touched in H as [? ?]. eauto. }
  intros H. exists dl.
  assert (p ∈ touched t) as Hp.
  { destruct r as [st|e]; simpl in H.
    - unfold touched in H. cbn [omap list_omap] in H. rewrite omap_app in H.
      simpl in H. by rewrite app_nil_r in H.
    - by unfold touched in H; cbn [omap list_omap] in H. }
  destruct (Ht p Hp) as (f & ? & ? & ?). eauto.
Qed.

Lemma loader_step_closed directory dl0 st f :
  closed (loader_step fs F directory dl0 st f).1 =
  List.filter (open_succeeds fs) (opened (loader_step fs F directory dl0 st f).1).
Proof.
  unfold loader_step. destruct (endswith f ".csv"); [|done].
  destruct (fs_open fs (path_join directory f)) eqn:E; [destruct (F _)|]; simpl;
    unfold open_succeeds; by rewrite E.
Qed.

Lemma loader_view_closed directory :
  closed (loader_view fs F directory).1 =
  List.filter (open_succeeds fs) (opened (loader_view fs F directory).1).
Proof.
  unfold loader_view. destruct (fs_listdir fs directory) as [dl|e]; [|done].
  unfold io_do. cbn [io_bind].
  destruct (foldIO _ dl _) as [t r] eqn:E.
  assert (closed t = List.filter (open_succeeds fs) (opened t)) as Ht.
  { replace t with (foldIO (loader_step fs F directory dl) dl (empty_frame, 0%nat)).1
      by (by rewrite E).
    apply (foldIO_trace (λ t, closed t = List.filter (open_succeeds fs) (opened t))).
    - done.
    - intros a b Ha Hb. unfold closed, opened in *.
      by rewrite !omap_app, List.filter_app, Ha, Hb.
    - intros st f _. apply loader_step_closed. }
  destruct r as [st|e]; simpl.
  - unfold closed, opened in *. cbn [omap list_omap]. rewrite !omap_app. simpl.
    by rewrite !app_nil_r.
  - by unfold closed, opened in *; cbn [omap list_omap].
Qed.

End ViewTraces.

Section LoaderProperties.

Context {sch : summation}.
Variable float_repr : Q → string.
Variable fs : FileSystem.

(** X5. The trace of a load that returns a frame: the directory is
    listed; then, for the k-th ".csv" name of the listing, the file is
    opened, read, the progress "k of n" and a carriage return are written,
    and the file is closed; a line feed ends the run.  The total [n] is the
    length of the whole listing, names that are not ".csv" files included. *)
Theorem loader_success_trace directory cols tr out :
  load_dataset_from_directory_partial float_repr fs directory cols = (tr, Ok out)
  ∨ load_dataset_from_directory_partial_average_hours float_repr fs directory cols
    = (tr, Ok out) →
  ∃ dl, fs_listdir fs directory = Ok dl
        ∧ tr = (EvListdir directory ::
                mjoin (imap (λ k f, file_events (S k) (length dl) (path_join directory f))
                         (csv_files dl)) ++ [EvStdout LF])%list.
Proof.
  intros [H|H].
  - rewrite load_partial_view in H. by apply loader_view_success in H.
  - rewrite load_average_hours_view in H. by apply loader_view_success in H.
Qed.

(** X6. A loader touches no other file than the ".csv" files of the
    listing: every path it opens, reads or closes is the directory joined
    with a name of the listing that ends in ".csv", whether the load
    succeeds or fails. *)
Theorem loaders_touch_only_csv directory cols p :
  p ∈ touched (load_dataset_from_directory_partial float_repr fs directory cols).1
  ∨ p ∈ touched (load_dataset_from_directory_partial_average_hours
                   float_repr fs directory cols).1 →
  ∃ dl f, fs_listdir fs directory = Ok dl ∧ f ∈ dl
          ∧ endswith f ".csv" = true ∧ p = path_join directory f.
Proof.
  intros [H|H].
  - rewrite load_partial_view in H. by apply loader_view_touched in H.
  - rewrite load_average_hours_view in H. by apply loader_view_touched in H.
Qed.

(** X7. Every file a loader opened is closed again, also when the load
    fails in the middle of a file: in the trace of each of the three
    loaders the files closed are, in order, the files whose opening
    succeeded. *)
Theorem loaders_close_what_they_open directory ds cols :
  closed (load_dataset_from_directory_partial float_repr fs directory cols).1
  = List.filter (open_succeeds fs)
      (opened (load_dataset_from_directory_partial float_repr fs directory cols).1)
  ∧ closed (load_dataset_from_directory_partial_average_hours
              float_repr fs directory cols).1
    = List.filter (open_succeeds fs)
        (opened (load_dataset_from_directory_partial_average_hours
                   float_repr fs directory cols).1)
  ∧ closed (load_multiple_datasets_average_hours float_repr fs ds cols).1
    = List.filter (open_succeeds fs)
        (opened (load_multiple_datasets_average_hours float_repr fs ds cols).1).
Proof.
  split; [|split].
  - rewrite load_partial_view. apply loader_view_closed.
  - rewrite load_average_hours_view. apply loader_view_closed.
  - unfold load_multiple_datasets_average_hours.
    apply (foldIO_trace (λ t, closed t = List.filter (open_succeeds fs) (opened t))).
    + done.
    + intros a b Ha Hb. unfold closed, opened in *.
      by rewrite !omap_app, List.filter_app, Ha, Hb.
    + intros st d _. rewrite io_bind_fst.
      destruct (load_dataset_from_directory_partial_average_hours _ _ d cols).2;
        simpl; rewrite app_nil_r, load_average_hours_view; apply loader_view_closed.
Qed.

Lemma loader_loop_no_csv F directory dl0 : ∀ dl st,
  csv_files dl = [] → foldIO (loader_step fs F directory dl0) dl st = ([], Ok st).
Proof.
  induction dl as [|f dl IH]; intros st H; [done|].
  unfold csv_files in H. cbn [List.filter] in H. cbn [foldIO].
  unfold loader_step at 1. destruct (endswith f ".csv"); [discriminate|].
  cbn [io_bind]. by rewrite IH.
Qed.

Lemma loader_view_no_csv F directory dl :
  fs_listdir fs directory = Ok dl → csv_files dl = [] →
  loader_view fs F directory = ([EvListdir directory; EvStdout LF], Ok empty_frame).
Proof.
  intros Hdl Hcsv. unfold loader_view. rewrite Hdl. unfold io_do. cbn [io_bind].
  by rewrite loader_loop_no_csv.
Qed.

(** X8. Directories without ".csv" files: each loader lists the directory,
    opens nothing, raises nothing and returns the empty frame; so does the
    assembler on any list of such directories, the empty list included. *)
Theorem no_csv_files_empty_frame ds cols :
  Forall (λ d, ∃ dl, fs_listdir fs d = Ok dl ∧ csv_files dl = []) ds →
  load_multiple_datasets_average_hours float_repr fs ds cols
    = (flat_map (λ d, [EvListdir d; EvStdout LF]) ds, Ok empty_frame)
  ∧ Forall (λ d,
       load_dataset_from_directory_partial float_repr fs d cols
         = ([EvListdir d; EvStdout LF], Ok empty_frame)
       ∧ load_dataset_from_directory_partial_average_hours float_repr fs d cols
         = ([EvListdir d; EvStdout LF], Ok empty_frame)) ds.
Proof.
  intros H. split.
  - unfold load_multiple_datasets_average_hours.
    induction H as [|d ds (dl & Hdl & Hcsv) _ IH]; [done|].
    cbn [foldIO flat_map].
    rewrite load_average_hours_view, (loader_view_no_csv _ d dl Hdl Hcsv).
    cbn [io_bind io_ret].
    change (concat empty_frame empty_frame false) with empty_frame.
    by rewrite IH.
  - eapply Forall_impl; [exact H|]. intros d (dl & Hdl & Hcsv). simpl.
    rewrite load_partial_view, load_average_hours_view.
    by rewrite !(loader_view_no_csv _ d dl Hdl Hcsv).
Qed.

(** X9. The hourly loader needs both time columns: when it returns a frame
    for a directory that holds a ".csv" file, "YYYYMMDD" and "hhmmss" are
    among the selected columns (without them the first file already fails,
    in [add_time_columns]). *)
Theorem average_hours_needs_time_columns directory cols out dl :
  (load_dataset_from_directory_partial_average_hours float_repr fs directory cols).2
    = Ok out →
  fs_listdir fs directory = Ok dl → csv_files dl ≠ [] →
  "YYYYMMDD" ∈ cols ∧ "hhmmss" ∈ cols.
Proof.
  intros H Hdl Hcsv.
  destruct (directory_frames _ _ _ _ _ H) as (dl' & frames & Hdl' & HF & _).
  assert (dl' = dl) as -> by congruence.
  destruct (csv_files dl) as [|f l]; [done|].
  inversion HF as [|? a ? ? Ha _]; subst.
  unfold file_frame_average_hours in Ha.
  apply rbind_Ok in Ha as (c & Hc & Ha). apply rbind_Ok in Ha as (t & Ht & _).
  destruct (add_time_columns_sources _ _ Ht) as [Hd Hh].
  destruct (file_frame_shaped _ _ _ _ _ Hc) as [[_ [Hn|[Hn _]]] _].
  - by rewrite Hn in Hd, Hh.
  - unfold column_names in Hd. rewrite Hn in Hd. by apply elem_of_nil in Hd.
Qed.

End LoaderProperties.

(** ** The shape of an aggregated batch *)

Lemma set_dtype_new dst dt cs :
  dst ∉ cs.*1 → set_dtype dst dt cs = (cs ++ [(dst, dt)])%list.
Proof. intros H. unfold set_dtype. by rewrite bool_decide_eq_false_2. Qed.

Lemma cleaned_columns_names cols : (cleaned_columns cols).*1 = cols.
Proof.
  unfold cleaned_columns. induction cols as [|c cols IH]; [done|].
  cbn [map]. by rewrite fmap_cons, IH.
Qed.

Lemma value_columns_cleaned cols rs :
  value_columns hour_keys (mkDataFrame (cleaned_columns cols) rs)
  = List.filter (λ c, is_numeric (catalog_dtype c)) cols.
Proof.
  unfold value_columns, cleaned_columns. cbn [columns].
  induction cols as [|c cols IH]; [done|].
  cbn [map List.filter fst snd].
  assert (is_numeric (catalog_dtype c) && negb (bool_decide (c ∈ hour_keys))
          = is_numeric (catalog_dtype c)) as ->.
  { destruct (is_numeric (catalog_dtype c)) eqn:E; [|done]. simpl.
    rewrite bool_decide_eq_false_2; [done|]. intros Hc. unfold hour_keys in Hc.
    repeat (apply elem_of_cons in Hc as [->|Hc]; [discriminate E|]).
    by apply elem_of_nil in Hc. }
  destruct (is_numeric (catalog_dtype c)); [rewrite fmap_cons|]; by rewrite IH.
Qed.

(** The column labels of an aggregated batch, when every selected column
    is a catalog column. *)
Lemma aggregated_names_catalog cols :
  Forall (λ c, is_Some (keyword_type_map !! c)) cols →
  aggregated_names cols =
  ("Hour" :: "YYYYMMDD" ::
   List.filter (λ c, is_numeric (catalog_dtype c)) cols ++ ["Month"; "Day"])%list.
Proof.
  intros Hcat.
  assert (∀ c, c ∈ ["Month"; "Day"; "Hour"] → c ∉ cols) as Hnew.
  { intros c Hc Hin. apply (proj1 (Forall_forall _ _) Hcat) in Hin as [t Hin].
    repeat (apply elem_of_cons in Hc as [->|Hc]; [discriminate Hin|]).
    by apply elem_of_nil in Hc. }
  unfold aggregated_names, timed_columns.
  rewrite (set_dtype_new "Month") by (rewrite cleaned_columns_names; apply Hnew; by left).
  rewrite (set_dtype_new "Day").
  2:{ rewrite fmap_app, cleaned_columns_names. intros H.
      apply elem_of_app in H as [H|H]; [revert H; apply Hnew; right; by left|].
      apply list_elem_of_singleton in H. discriminate. }
  rewrite (set_dtype_new "Hour").
  2:{ rewrite !fmap_app, cleaned_columns_names. intros H.
      apply elem_of_app in H as [H|H]; [apply elem_of_app in H as [H|H]|].
      - revert H. apply Hnew. right. right. by left.
      - apply list_elem_of_singleton in H. discriminate.
      - apply list_elem_of_singleton in H. discriminate. }
  unfold hour_keys at 1. cbn [app]. do 2 f_equal.
  rewrite <- (value_columns_cleaned cols []).
  unfold value_columns. cbn [columns]. rewrite <- !app_assoc.
  rewrite List.filter_app, fmap_app. f_equal.
Qed.

Section AggregatedShape.

Context {sch : summation}.
Variable float_repr : Q → string.
Variable fs : FileSystem.

Lemma apply_type_conversion_catalog cols df df' :
  apply_type_conversion float_repr df cols = Ok df' →
  Forall (λ c, is_Some (keyword_type_map !! c)) cols.
Proof.
  intros H. apply Forall_forall. intros c Hc.
  destruct (keyword_type_map !! c) as [t|] eqn:E; [eauto|].
  destruct (apply_type_conversion_unknown float_repr cols c df Hc E) as [e He].
  congruence.
Qed.

Lemma file_frame_catalog cols file a :
  file_frame float_repr fs cols file = Ok a →
  Forall (λ c, is_Some (keyword_type_map !! c)) cols.
Proof.
  unfold file_frame. intros H.
  apply rbind_Ok in H as (u & _ & H). apply rbind_Ok in H as (df & _ & H).
  apply rbind_Ok in H as (df1 & _ & H). unfold sanitize in H.
  apply rbind_Ok in H as (df3 & H3 & _). by eapply apply_type_conversion_catalog.
Qed.

Lemma aggregated_names_hhmmss cols :
  Forall (λ c, is_Some (keyword_type_map !! c)) cols →
  "hhmmss" ∉ aggregated_names cols.
Proof.
  intros Hcat. rewrite (aggregated_names_catalog cols Hcat).
  intros Hin. repeat (apply elem_of_cons in Hin as [Hin|Hin]; [discriminate Hin|]).
  apply elem_of_app in Hin as [Hin|Hin].
  - apply list_elem_of_In, filter_In in Hin as [_ Hin]. discriminate Hin.
  - repeat (apply elem_of_cons in Hin as [Hin|Hin]; [discriminate Hin|]).
    by apply elem_of_nil in Hin.
Qed.

Lemma length_nonempty {A} (l : list A) n : length l = S n → l ≠ [].
Proof. by destruct l. Qed.

Lemma shaped_rows N df : shaped N df → rows df ≠ [] → column_names df = N.
Proof. intros [_ [H|[_ H]]] Hne; done. Qed.

(** X10. The columns of the frames the two directory loaders return, when
    the frame has rows.  The plain loader returns exactly the selected
    columns, in the order they were selected.  The hourly loader returns
    "Hour" and "YYYYMMDD", then the selected columns the catalog declares as
    [np.float64], in the order they were selected, then "Month" and "Day";
    the time of day "hhmmss", which is text, is not among them.  Each of the
    two facts holds on its own, whatever the other loader does. *)
Theorem loaded_frame_columns directory cols :
  (∀ out,
     (load_dataset_from_directory_partial float_repr fs directory cols).2 = Ok out →
     rows out ≠ [] →
     column_names out = cols)
  ∧ (∀ out,
       (load_dataset_from_directory_partial_average_hours float_repr fs directory cols).2
         = Ok out →
       rows out ≠ [] →
       column_names out =
         ("Hour" :: "YYYYMMDD" ::
          List.filter (λ c, is_numeric (catalog_dtype c)) cols ++ ["Month"; "Day"])%list
       ∧ "hhmmss" ∉ column_names out).
Proof.
  split.
  - intros out1 H1 Hne1. rewrite load_partial_snd in H1.
    apply rbind_Ok in H1 as (dl & _ & H1).
    apply rbind_Ok in H1 as (st & Hloop & H1). injection H1 as <-.
    apply (loop_collects (λ f, file_frame float_repr fs cols (path_join directory f))
             cols) in Hloop as (frames & _ & Hs & _).
    + by apply shaped_rows.
    + intros f a Ha. by apply file_frame_shaped in Ha as [? _].
    + apply shaped_empty.
  - intros out2 H2 Hne2.
    destruct (directory_frames _ _ _ _ _ H2) as (dl & frames & _ & HF & Hs & Hr).
    assert (Forall (λ c, is_Some (keyword_type_map !! c)) cols) as Hcat.
    { destruct HF as [|f a fs' frames' Ha _].
      - simpl in Hr. destruct (rows out2); [done|discriminate Hr].
      - unfold file_frame_average_hours in Ha.
        apply rbind_Ok in Ha as (c & Hc & _). by eapply file_frame_catalog. }
    pose proof (shaped_rows _ _ Hs Hne2) as E2.
    rewrite E2. split.
    + by apply aggregated_names_catalog.
    + by apply aggregated_names_hhmmss.
Qed.

End AggregatedShape.

(** ** The order of the groups *)

Lemma cell_compare_antisym x y : cell_compare y x = CompOpp (cell_compare x y).
Proof.
  destruct x as [a|a|s|], y as [b|b|t|]; simpl; try done.
  - apply Z.compare_antisym.
  - symmetry. apply Qcompare_antisym.
  - symmetry. apply Qcompare_antisym.
  - symmetry. apply Qcompare_antisym.
  - apply String.compare_antisym.
Qed.

Lemma key_compare_antisym k1 k2 : key_compare k2 k1 = CompOpp (key_compare k1 k2).
Proof.
  revert k2. induction k1 as [|x k1 IH]; intros [|y k2]; simpl; try done.
  rewrite (cell_compare_antisym x y).
  destruct (cell_compare x y); simpl; auto.
Qed.

Lemma insert_key_head k l :
  match insert_key k l with
  | h :: _ => h = k ∨ ∃ l', l = h :: l' ∧ key_compare k h = Gt
  | [] => False
  end.
Proof.
  destruct l as [|k' l]; simpl; [by left|].
  destruct (key_compare k k') eqn:E; [by left|by left|right; eauto].
Qed.

Lemma insert_key_ascending k l :
  Forall (λ k', key_eqb k k' = false) l → ascending l → ascending (insert_key k l).
Proof.
  induction l as [|k' l IH]; intros Hk Hl; [done|].
  apply Forall_cons in Hk as [Hkk' Hk]. cbn [insert_key].
  destruct (key_compare k k') eqn:E.
  - unfold key_eqb in Hkk'. by rewrite E in Hkk'.
  - split; [done|exact Hl].
  - destruct Hl as [Hh Hl]. split; [|by apply IH].
    pose proof (insert_key_head k l) as Hhead.
    destruct (insert_key k l) as [|h t]; [done|].
    destruct Hhead as [->|(l' & -> & _)]; [|done].
    by rewrite key_compare_antisym, E.
Qed.

Lemma sort_keys_ascending l : pairwise_distinct l → ascending (sort_keys l).
Proof.
  induction l as [|k l IH]; [done|]. intros [Hk Hl].
  change (sort_keys (k :: l)) with (insert_key k (sort_keys l)).
  apply insert_key_ascending; [|by apply IH].
  apply Forall_forall. intros x Hx. apply (proj1 (sort_keys_elem _ _)) in Hx.
  by apply (proj1 (Forall_forall _ _) Hk).
Qed.

(** X11. The groups come out in the order of their keys: the rows of
    [groupby_mean] on the key (Hour, YYYYMMDD) are labelled 0, 1, ... and
    the key of each row is strictly below the key of the next, by hour
    first and by date string second. *)
Theorem groupby_mean_sorted {sch : summation} ct agg :
  groupby_mean hour_keys ct = Ok agg →
  (rows agg).*1 = seq 0 (length (rows agg))
  ∧ ascending (map (λ ir, row_key hour_keys ir.2) (rows agg)).
Proof.
  intros H. unfold groupby_mean in H.
  apply rbind_Ok in H as (kcs & _ & H). cbv zeta in H.
  apply rbind_Ok in H as (groups & Hgroups & H). injection H as <-.
  apply mapR_Forall2 in Hgroups. cbn [rows].
  set (rs := List.filter _ (rows ct)) in *.
  set (ks := sort_keys (distinct_keys (map (λ ir, row_key hour_keys ir.2) rs))) in *.
  set (vals := value_columns hour_keys ct) in *.
  split.
  - rewrite length_imap. rewrite fmap_imap.
    rewrite (imap_ext _ (λ i _, i)) by done. rewrite imap_seq_0. apply list_fmap_id.
  - assert (map (λ ir : nat * gmap string cell, row_key hour_keys ir.2)
              (imap (λ i r, (i, r)) groups) = ks) as ->.
    { assert (Forall2 (λ k o, row_key hour_keys o = k) ks groups) as Hk.
      { apply Forall2_same_length_lookup. split; [by eapply Forall2_length|].
        intros i k o Hk Ho.
        destruct (Forall2_lookup_l _ _ _ _ _ Hgroups Hk) as (o' & Ho' & Hg).
        assert (o' = o) as -> by congruence.
        apply list_elem_of_lookup_2, sort_keys_elem, distinct_keys_elem in Hk.
        apply list_elem_of_In, in_map_iff in Hk as ([j r] & <- & _).
        by eapply group_row_key. }
      rewrite map_fmap, fmap_imap.
      rewrite (imap_ext _ (λ _ o, row_key hour_keys o)) by done. clear -Hk.
      induction Hk as [|k o ks groups Ho _ IH]; [done|].
      rewrite imap_cons. f_equal; [exact Ho|exact IH]. }
    apply sort_keys_ascending, distinct_keys_pairwise.
Qed.

(** ** The index of the frames returned *)

Lemma relabel_labels (rs : list (nat * gmap string cell)) :
  (imap (λ i ir, (i, ir.2)) rs).*1 = seq 0 (length rs).
Proof.
  rewrite fmap_imap. rewrite (imap_ext _ (λ i _, i)) by done.
  rewrite imap_seq_0. apply list_fmap_id.
Qed.

Lemma concat_relabels a b :
  (rows (concat a b true)).*1 = seq 0 (length (rows (concat a b true))).
Proof.
  unfold concat. cbn [rows]. by rewrite relabel_labels, length_imap.
Qed.

Lemma loop_labels (F : string → result DataFrame) dl : ∀ st st',
  (rows st.1).*1 = seq 0 (length (rows st.1)) →
  foldR (λ st f, if endswith f ".csv"
                 then df ←? F f; Ok (concat st.1 df true, S st.2)
                 else Ok st) dl st = Ok st' →
  (rows st'.1).*1 = seq 0 (length (rows st'.1)).
Proof.
  induction dl as [|f dl IH]; intros st st' Hs H; simpl in H.
  - by injection H as <-.
  - apply rbind_Ok in H as (st1 & Hstep & H). apply (IH st1 st'); [|done].
    destruct (endswith f ".csv"); [|by injection Hstep as <-].
    apply rbind_Ok in Hstep as (a & _ & Hstep). injection Hstep as <-.
    apply concat_relabels.
Qed.

Lemma fmap_join_labels (l : list (list (nat * gmap string cell))) :
  (mjoin l).*1 = mjoin (map (fmap fst) l).
Proof.
  induction l as [|x l IH]; [done|]. cbn [map mjoin]. simpl.
  by rewrite fmap_app, IH.
Qed.

Section Labels.

Context {sch : summation}.
Variable float_repr : Q → string.
Variable fs : FileSystem.

Lemma directory_labels directory cols out :
  (load_dataset_from_directory_partial_average_hours float_repr fs directory cols).2
    = Ok out →
  (rows out).*1 = seq 0 (length (rows out)).
Proof.
  rewrite load_average_hours_snd. intros H.
  apply rbind_Ok in H as (dl & _ & H). apply rbind_Ok in H as (st & Hloop & H).
  injection H as <-. by eapply loop_labels; [|exact Hloop].
Qed.

(** X12. The index of the results.  The frame of a directory, from either
    loader, is labelled 0, 1, 2, ... without gaps.  The assembler does not
    renumber: its frame carries the labels of the frames of the directories
    one after the other, so labels repeat as soon as two directories
    contribute rows.  Each of the three facts holds on its own, whatever the
    other loaders do. *)
Theorem result_labels directory ds cols :
  (∀ out,
     (load_dataset_from_directory_partial float_repr fs directory cols).2 = Ok out →
     (rows out).*1 = seq 0 (length (rows out)))
  ∧ (∀ out,
       (load_dataset_from_directory_partial_average_hours float_repr fs directory cols).2
         = Ok out →
       (rows out).*1 = seq 0 (length (rows out)))
  ∧ (∀ out,
       (load_multiple_datasets_average_hours float_repr fs ds cols).2 = Ok out →
       ∃ frames,
         Forall2 (λ d a, (load_dataset_from_directory_partial_average_hours
                            float_repr fs d cols).2 = Ok a) ds frames
         ∧ (rows out).*1 = mjoin (map (λ a, seq 0 (length (rows a))) frames)).
Proof.
  split; [|split].
  - intros out H1. rewrite load_partial_snd in H1.
    apply rbind_Ok in H1 as (dl & _ & H). apply rbind_Ok in H as (st & Hloop & H).
    injection H as <-. by eapply loop_labels; [|exact Hloop].
  - intros out H2. by eapply directory_labels.
  - intros out H3. rewrite load_multiple_snd in H3.
    apply (assemble_collects
             (λ d, (load_dataset_from_directory_partial_average_hours
                      float_repr fs d cols).2) (aggregated_names cols)) in H3
      as (frames & HF & _ & Hr).
    + exists frames. split; [done|]. rewrite Hr. cbn [rows empty_frame app].
      rewrite fmap_join_labels, map_map. f_equal.
      clear Hr. induction HF as [|d a ds' frames' Ha _ IH]; [done|].
      cbn [map]. rewrite IH. f_equal. by eapply directory_labels.
    + intros d a. apply directory_shaped.
    + apply shaped_empty.
Qed.

End Labels.

(** ** The error marker *)

Lemma prefix_append (pat s : string) : String.prefix pat (pat +:+ s) = true.
Proof.
  induction pat as [|c pat IH]; simpl; [by destruct s|].
  destruct (Ascii.ascii_dec c c); [exact IH|done].
Qed.

Lemma prefix_split (pat s : string) :
  String.prefix pat s = true → ∃ s2, s = pat +:+ s2.
Proof.
  revert s. induction pat as [|c pat IH]; intros s H; [by exists s|].
  destruct s as [|c' s]; cbn [String.prefix] in H; [discriminate|].
  destruct (Ascii.ascii_dec c c') as [E|]; [|discriminate]. subst c'.
  destruct (IH s H) as [s2 ->]. by exists s2.
Qed.

(** [pat in s] holds exactly when [s] is some text, then [pat], then some
    text. *)
Lemma contains_substring (pat s : string) :
  contains pat s = true ↔ ∃ s1 s2, s = s1 +:+ pat +:+ s2.
Proof.
  split.
  - induction s as [|c s IH]; cbn [contains]; intros H.
    + rewrite orb_false_r in H. apply prefix_split in H as [s2 ->].
      by exists EmptyString, s2.
    + apply orb_true_iff in H as [H|H].
      * apply prefix_split in H as [s2 ->]. by exists EmptyString, s2.
      * destruct (IH H) as (s1 & s2 & ->). by exists (String c s1), s2.
  - intros (s1 & s2 & ->). induction s1 as [|c s1 IH].
    + change (EmptyString +:+ pat +:+ s2) with (pat +:+ s2).
      destruct (pat +:+ s2) eqn:E; cbn [contains]; rewrite <- E, prefix_append; done.
    + change (String c s1 +:+ pat +:+ s2) with (String c (s1 +:+ pat +:+ s2)).
      cbn [contains]. by rewrite IH, orb_true_r.
Qed.

(** X13. [contains_error] returns NaN exactly for the values that are
    missing already and for those whose text has "err" somewhere inside, at
    the start, in the middle or at the end; every other value is returned as
    it is. *)
Theorem contains_error_tags float_repr val :
  (contains_error float_repr val = VNaN ↔
   val = VNaN ∨ ∃ s1 s2, py_format float_repr val = s1 +:+ "err" +:+ s2)
  ∧ (contains_error float_repr val ≠ VNaN → contains_error float_repr val = val).
Proof.
  unfold contains_error.
  destruct (contains "err" (py_format float_repr val)) eqn:E.
  - split; [|done]. split; [|done]. intros _. right. by apply contains_substring.
  - split; [|done]. split; [by left|]. intros [->|H]; [done|].
    apply contains_substring in H. congruence.
Qed.

(** ** [get_hour] and [get_yyyymmdd] *)

Lemma is_digit_plain c :
  is_digit c = true → is_space c = false ∧ read_sign [c] = (false, [c]) ∧ Ascii.eqb "_" c = false.
Proof.
  intros H. apply is_digit_cases in H.
  repeat (apply elem_of_cons in H as [->|H]); [..|by apply elem_of_nil in H]; done.
Qed.

Lemma lstrip_digits c l : is_digit c = true → lstrip (c :: l) = c :: l.
Proof. intros H. simpl. by destruct (is_digit_plain c H) as (-> & _). Qed.

Lemma strip_digits l : forallb is_digit l = true → strip l = l.
Proof.
  intros H. unfold strip. destruct l as [|c l]; [done|].
  apply andb_true_iff in H as [Hc Hl]. rewrite (lstrip_digits c l Hc).
  destruct (rev (c :: l)) as [|c' l'] eqn:E.
  { apply (f_equal (@length _)) in E. rewrite length_rev in E. done. }
  assert (is_digit c' = true) as Hc'.
  { assert (In c' (c :: l)) as Hin by (apply in_rev; rewrite E; by left).
    destruct Hin as [<-|Hin]; [done|].
    by apply (proj1 (forallb_forall _ _) Hl). }
  rewrite (lstrip_digits c' l' Hc'), <- E. apply rev_involutive.
Qed.

Lemma read_sign_digits c l : is_digit c = true → read_sign (c :: l) = (false, c :: l).
Proof.
  intros H. apply is_digit_cases in H.
  repeat (apply elem_of_cons in H as [->|H]); [..|by apply elem_of_nil in H]; done.
Qed.

Lemma no_separator_digits l : forallb is_digit l = true → existsb (Ascii.eqb "_") l = false.
Proof.
  induction l as [|c l IH]; [done|]. intros H.
  apply andb_true_iff in H as [Hc Hl]. cbn [existsb].
  destruct (is_digit_plain c Hc) as (_ & _ & ->). by apply IH.
Qed.

Lemma read_digits_all l : ∀ acc n,
  forallb is_digit l = true →
  read_digits l acc n
  = (fold_left (λ acc c, 10 * acc + digit_value c)%Z l acc, (n + length l)%nat, []).
Proof.
  induction l as [|c l IH]; intros acc n H.
  - simpl. by rewrite Nat.add_0_r.
  - apply andb_true_iff in H as [Hc Hl]. cbn [read_digits]. rewrite Hc.
    rewrite IH by done. cbn [fold_left length]. do 2 f_equal. lia.
Qed.

(** [int] of a non-empty text of decimal digits is the number they denote. *)
Lemma int_of_digits (s : string) :
  s ≠ EmptyString → all_digits s = true → int_of_string s = Ok (digits_value s).
Proof.
  intros Hne H. unfold all_digits in H. unfold int_of_string, digits_value.
  rewrite strip_digits by done.
  destruct s as [|c s]; [done|]. cbn [list_ascii_of_string] in *.
  pose proof H as H'. apply andb_true_iff in H' as [Hc _].
  rewrite read_sign_digits by done.
  rewrite no_separator_digits by done.
  rewrite read_digits_all by done. done.
Qed.

Lemma int_of_empty : int_of_string EmptyString = Raise (ValueError EmptyString).
Proof. reflexivity. Qed.

Lemma substring_short (s : string) : ∀ a n,
  (String.length s <= a)%nat → String.substring a n s = EmptyString.
Proof.
  induction s as [|c s IH]; intros a n H.
  - by destruct a, n.
  - destruct a as [|a]; simpl in H; [lia|]. simpl. apply IH. lia.
Qed.

Lemma digits_value_app (s1 s2 : string) :
  digits_value (s1 +:+ s2)
  = (digits_value s1 * 10 ^ Z.of_nat (String.length s2) + digits_value s2)%Z.
Proof.
  unfold digits_value.
  assert (∀ l acc,
    fold_left (λ acc c, 10 * acc + digit_value c)%Z l acc
    = (acc * 10 ^ Z.of_nat (length l)
       + fold_left (λ acc c, 10 * acc + digit_value c)%Z l 0)%Z) as Hacc.
  { induction l as [|c l IH]; intros acc; [simpl; lia|].
    cbn [fold_left length]. rewrite IH, (IH (10 * 0 + digit_value c)%Z).
    rewrite Nat2Z.inj_succ, Z.pow_succ_r by lia. lia. }
  assert (list_ascii_of_string (s1 +:+ s2)
          = (list_ascii_of_string s1 ++ list_ascii_of_string s2)%list) as ->.
  { induction s1 as [|c s1 IH]; [done|]. simpl. by rewrite <- IH. }
  rewrite fold_left_app, Hacc.
  f_equal. f_equal. f_equal. f_equal.
  clear. induction s2 as [|c s2 IH]; [done|]. simpl. by rewrite IH.
Qed.

Lemma all_digits_app (s1 s2 : string) :
  all_digits s1 = true → all_digits s2 = true → all_digits (s1 +:+ s2) = true.
Proof.
  unfold all_digits. intros H1 H2.
  induction s1 as [|c s1 IH]; [done|]. simpl in *.
  apply andb_true_iff in H1 as [-> H1]. by apply IH.
Qed.

Lemma append_length (s1 s2 : string) :
  String.length (s1 +:+ s2) = (String.length s1 + String.length s2)%nat.
Proof. induction s1 as [|c s1 IH]; [done|]. simpl. by rewrite <- IH. Qed.

(** [get_hour] on a text with digits at the hour field. *)
Lemma get_hour_digits (tstring : string) :
  (13 <= String.length tstring)%nat →
  all_digits (py_slice 11 13 tstring) = true →
  get_hour tstring = Ok (digits_value (py_slice 11 13 tstring)).
Proof.
  intros Hlen Hh.
  assert (String.length (py_slice 11 13 tstring) = 2%nat) as Lh by (apply slice_length; lia).
  unfold get_hour. apply int_of_digits; [|done].
  intros E. by rewrite E in Lh.
Qed.

(** [get_yyyymmdd] on a text with digits at the three date fields. *)
Lemma get_yyyymmdd_digits (tstring : string) :
  (10 <= String.length tstring)%nat →
  all_digits (py_slice 0 4 tstring) = true →
  all_digits (py_slice 5 7 tstring) = true →
  all_digits (py_slice 8 10 tstring) = true →
  get_yyyymmdd tstring
  = Ok (digits_value (py_slice 0 4 tstring) * 10000
        + digits_value (py_slice 5 7 tstring) * 100
        + digits_value (py_slice 8 10 tstring))%Z.
Proof.
  intros Hlen Hy Hm Hd.
  assert (String.length (py_slice 0 4 tstring) = 4%nat) as Ly by (apply slice_length; lia).
  assert (String.length (py_slice 5 7 tstring) = 2%nat) as Lm by (apply slice_length; lia).
  assert (String.length (py_slice 8 10 tstring) = 2%nat) as Ld by (apply slice_length; lia).
  unfold get_yyyymmdd. rewrite int_of_digits.
  - f_equal. rewrite !digits_value_app, append_length, Lm, Ld. lia.
  - intros E. apply (f_equal String.length) in E.
    rewrite append_length, Ly in E. done.
  - by repeat apply all_digits_app.
Qed.

(** X14. On a time string whose characters 0 to 3, 5 to 6, 8 to 9 and 11 to
    12 are decimal digits, [get_hour] returns the number at 11 to 12 and
    [get_yyyymmdd] the eight-digit number made of the three others; the
    characters in between and after are not looked at. *)
Theorem time_string_fields (tstring : string) :
  (13 <= String.length tstring)%nat →
  all_digits (py_slice 0 4 tstring) = true →
  all_digits (py_slice 5 7 tstring) = true →
  all_digits (py_slice 8 10 tstring) = true →
  all_digits (py_slice 11 13 tstring) = true →
  get_hour tstring = Ok (digits_value (py_slice 11 13 tstring))
  ∧ get_yyyymmdd tstring
    = Ok (digits_value (py_slice 0 4 tstring) * 10000
          + digits_value (py_slice 5 7 tstring) * 100
          + digits_value (py_slice 8 10 tstring))%Z.
Proof.
  intros Hlen Hy Hm Hd Hh. split.
  - by apply get_hour_digits.
  - apply get_yyyymmdd_digits; [lia|done..].
Qed.

(** X15. A time string of at most eleven characters has no hour field:
    [get_hour] raises [ValueError], as [int] does on the empty text. *)
Theorem get_hour_short (tstring : string) :
  (String.length tstring <= 11)%nat →
  get_hour tstring = Raise (ValueError EmptyString).
Proof.
  intros H. unfold get_hour, py_slice. by rewrite substring_short.
Qed.

(** ** The time string and its fields *)











(** ** [load_pickled_sql_data] *)

(** X17. In the module as written the name [pickle] is never bound, so
    [load_pickled_sql_data] returns no frame, whatever its argument and
    whatever the file holds: it opens the fixed path
    [C:\workspace\testfetch.pckl], not [input_file]; when the file opens it
    raises [NameError] and closes the file, and when it does not it raises
    the error of [open]. *)
Theorem load_pickled_sql_data_raises fs unpickled pickle_load frame_of_unpickled
    input_file :
  load_pickled_sql_data fs unpickled pickle_load frame_of_unpickled module_globals
    input_file
  = match fs_open fs pickle_path with
    | Ok _ => ([EvOpen pickle_path; EvClose pickle_path], Raise (NameError "pickle"))
    | Raise e => ([EvOpen pickle_path], Raise e)
    end.
Proof.
  unfold load_pickled_sql_data, with_open, io_do.
  assert (load_global module_globals "pickle" = Raise (NameError "pickle")) as ->
    by reflexivity.
  by destruct (fs_open fs pickle_path).
Qed.

(** ** What [add_time_columns] needs *)

Lemma column_dtype_set_dtype_ne dst dt cs rs rs' c :
  c ≠ dst →
  column_dtype (mkDataFrame (set_dtype dst dt cs) rs) c
  = column_dtype (mkDataFrame cs rs') c.
Proof.
  intros Hne. unfold column_dtype, set_dtype. cbn [columns].
  case_bool_decide as Hin.
  - clear Hin. induction cs as [|[c0 d0] cs IH]; [done|].
    cbn [map fst]. case_bool_decide as E0.
    + subst c0. cbn [list_find]. rewrite !decide_False by (simpl; congruence).
      rewrite <- !option_fmap_compose.
      destruct (list_find _ (map _ cs)) as [[]|], (list_find _ cs) as [[]|];
        simpl in *; congruence.
    + cbn [list_find]. destruct (decide ((c0, d0).1 = c)) as [E|E]; [done|].
      rewrite <- !option_fmap_compose.
      destruct (list_find _ (map _ cs)) as [[]|], (list_find _ cs) as [[]|];
        simpl in *; congruence.
  - destruct (list_find (λ c0 : string * dtype, c0.1 = c) cs) as [[i p]|] eqn:E.
    + by rewrite (list_find_app_l _ _ _ _ _ E).
    + rewrite list_find_app_r by done. cbn [list_find].
      rewrite decide_False by (simpl; congruence). done.
Qed.

Lemma assign_slice_needs src dst a b df df' :
  assign_slice src dst a b df = Ok df' →
  column_dtype df src = Some object
  ∧ ∀ i r s, (i, r) ∈ rows df → cell_at r src = VStr s →
      ∃ v, float_of_string (py_slice a b s) = Ok v.
Proof.
  intros H. split.
  - unfold assign_slice in H. by destruct (column_dtype df src) as [[]|].
  - apply assign_slice_rows in H as [H _]. intros i r s Hin Hs.
    apply list_elem_of_lookup in Hin as [k Hk].
    destruct (Forall2_lookup_l _ _ _ _ _ H Hk) as ([i' r'] & _ & _ & Hrow).
    simpl in Hrow. rewrite Hs in Hrow. simpl in Hrow.
    apply rbind_Ok in Hrow as (v & Hv & _). eauto.
Qed.

Lemma assign_slice_source src dst a b df df' i r' :
  assign_slice src dst a b df = Ok df' → src ≠ dst → (i, r') ∈ rows df' →
  ∃ r, (i, r) ∈ rows df ∧ cell_at r' src = cell_at r src.
Proof.
  intros H Hne Hin. apply assign_slice_rows in H as [H _].
  apply list_elem_of_lookup in Hin as [k Hk].
  destruct (Forall2_lookup_r _ _ _ _ _ H Hk) as ([i0 r] & Hk0 & E & Hrow).
  simpl in *. subst i0. exists r. split; [by eapply list_elem_of_lookup_2|].
  apply rbind_Ok in Hrow as (v & _ & Hrow). injection Hrow as <-.
  by apply cell_at_insert_ne.
Qed.

Lemma assign_slice_target src dst a b df df' i r :
  assign_slice src dst a b df = Ok df' → (i, r) ∈ rows df →
  ∃ r', (i, r') ∈ rows df' ∧ ∀ c, c ≠ dst → cell_at r' c = cell_at r c.
Proof.
  intros H Hin. apply assign_slice_rows in H as [H _].
  apply list_elem_of_lookup in Hin as [k Hk].
  destruct (Forall2_lookup_l _ _ _ _ _ H Hk) as ([i' r'] & Hk' & E & Hrow).
  simpl in *. subst i'. exists r'. split; [by eapply list_elem_of_lookup_2|].
  apply rbind_Ok in Hrow as (v & _ & Hrow). injection Hrow as <-.
  intros c Hc. by apply cell_at_insert_ne.
Qed.

Lemma float_of_slice_length a b s v :
  float_of_string (py_slice a b s) = Ok v → (a < String.length s)%nat.
Proof.
  intros H. destruct (decide (a < String.length s)%nat) as [|Hn]; [done|].
  unfold py_slice in H. rewrite substring_short in H by lia. discriminate H.
Qed.

(** X18. [add_time_columns] returns only when "YYYYMMDD" and "hhmmss" are
    columns of dtype [object] and, in every row, a date that is text has a
    number at its characters 4 to 5 and at its characters 6 to 7, so at
    least seven characters, and a time that is text has a number at its
    characters 0 to 1, so at least one character.  On an integer date
    column, as [read_csv] returns it, it raises. *)
Theorem add_time_columns_requires df df' :
  add_time_columns df = Ok df' →
  column_dtype df "YYYYMMDD" = Some object
  ∧ column_dtype df "hhmmss" = Some object
  ∧ ∀ i r, (i, r) ∈ rows df →
      (∀ d, cell_at r "YYYYMMDD" = VStr d →
         (7 <= String.length d)%nat
         ∧ (∃ v, float_of_string (py_slice 4 6 d) = Ok v)
         ∧ (∃ v, float_of_string (py_slice 6 8 d) = Ok v))
      ∧ (∀ t, cell_at r "hhmmss" = VStr t →
           (1 <= String.length t)%nat
           ∧ ∃ v, float_of_string (py_slice 0 2 t) = Ok v).
Proof.
  unfold add_time_columns. intros H.
  apply rbind_Ok in H as (df1 & H1 & H). apply rbind_Ok in H as (df2 & H2 & H3).
  destruct (assign_slice_needs _ _ _ _ _ _ H1) as [Hd1 Hr1].
  destruct (assign_slice_needs _ _ _ _ _ _ H2) as [_ Hr2].
  destruct (assign_slice_needs _ _ _ _ _ _ H3) as [Hd3 Hr3].
  split; [done|]. split.
  - pose proof (assign_slice_rows _ _ _ _ _ _ H1) as [_ Hc1].
    pose proof (assign_slice_rows _ _ _ _ _ _ H2) as [_ Hc2].
    destruct df as [cs rs], df1 as [cs1 rs1], df2 as [cs2 rs2]. simpl in *. subst.
    by rewrite !(column_dtype_set_dtype_ne _ _ _ _ rs) in Hd3.
  - intros i r Hin.
    destruct (assign_slice_target _ _ _ _ _ _ _ _ H1 Hin) as (r1 & Hin1 & E1).
    destruct (assign_slice_target _ _ _ _ _ _ _ _ H2 Hin1) as (r2 & Hin2 & E2).
    split.
    + intros d Hd.
      destruct (Hr1 i r d Hin Hd) as [v1 Hv1].
      destruct (Hr2 i r1 d Hin1) as [v2 Hv2]; [by rewrite E1|].
      apply float_of_slice_length in Hv2 as Hlen. split; [lia|]. eauto.
    + intros t Ht.
      destruct (Hr3 i r2 t Hin2) as [v3 Hv3]; [by rewrite E2, E1|].
      apply float_of_slice_length in Hv3 as Hlen. split; [lia|]. eauto.
Qed.

(** ** The trace of a load that fails *)

Section FailureTraces.

Variable fs : FileSystem.
Variable F : string → result DataFrame.

Lemma loader_loop_failure directory dl0 : ∀ dl st tr e,
  foldIO (loader_step fs F directory dl0) dl st = (tr, Raise e) →
  ∃ before file rest,
    csv_files dl = (before ++ file :: rest)%list
    ∧ tr = (mjoin (imap (λ k f, file_events (st.2 + S k) (length dl0)
                                  (path_join directory f)) before)
            ++ match fs_open fs (path_join directory file) with
               | Ok _ => [EvOpen (path_join directory file);
                          EvReadCsv (path_join directory file);
                          EvClose (path_join directory file)]
               | Raise _ => [EvOpen (path_join directory file)]
               end)%list
    ∧ match fs_open fs (path_join directory file) with
      | Ok _ => F (path_join directory file) = Raise e
      | Raise e' => e' = e
      end.
Proof.
  induction dl as [|f dl IH]; intros st tr e H; [discriminate H|].
  cbn [foldIO] in H. unfold csv_files. cbn [List.filter]. fold (csv_files dl).
  unfold loader_step in H at 1.
  destruct (endswith f ".csv").
  - destruct (fs_open fs (path_join directory f)) as [u|e0] eqn:Ho.
    + destruct (F (path_join directory f)) as [df|e1] eqn:HF.
      * cbn [io_bind] in H. destruct (foldIO _ dl _) as [t' r'] eqn:E.
        injection H as <- ->.
        destruct (IH _ _ _ E) as (before & file & rest & Hcsv & -> & Hlast).
        exists (f :: before), file, rest. rewrite Hcsv. split; [done|].
        split; [|done]. cbn [fst snd].
        rewrite imap_cons, Nat.add_1_r. cbn [mjoin list_join].
        rewrite <- app_assoc. unfold file_events at 2. cbn [app].
        do 5 f_equal. f_equal. f_equal.
        apply imap_ext. intros k x _. simpl. f_equal. lia.
      * cbn [io_bind] in H. injection H as <- <-.
        exists [], f, (csv_files dl). rewrite Ho, HF. done.
    + cbn [io_bind] in H. injection H as <- <-.
      exists [], f, (csv_files dl). rewrite Ho. done.
  - cbn [io_bind] in H. destruct (foldIO _ dl st) as [t' r'] eqn:E.
    injection H as <- ->. by apply IH.
Qed.

Lemma loader_view_failure directory tr e :
  loader_view fs F directory = (tr, Raise e) →
  (fs_listdir fs directory = Raise e ∧ tr = [EvListdir directory])
  ∨ ∃ dl before file rest,
      fs_listdir fs directory = Ok dl
      ∧ csv_files dl = (before ++ file :: rest)%list
      ∧ tr = (EvListdir directory ::
              mjoin (imap (λ k f, file_events (S k) (length dl) (path_join directory f))
                       before)
              ++ match fs_open fs (path_join directory file) with
                 | Ok _ => [EvOpen (path_join directory file);
                            EvReadCsv (path_join directory file);
                            EvClose (path_join directory file)]
                 | Raise _ => [EvOpen (path_join directory file)]
                 end)%list
      ∧ match fs_open fs (path_join directory file) with
        | Ok _ => F (path_join directory file) = Raise e
        | Raise e' => e' = e
        end.
Proof.
  unfold loader_view. destruct (fs_listdir fs directory) as [dl|e0].
  - unfold io_do. cbn [io_bind].
    destruct (foldIO _ dl _) as [t [st|e1]] eqn:E; [discriminate|].
    intros H. injection H as <- <-. right.
    apply loader_loop_failure in E as (before & file & rest & Hcsv & -> & Hlast).
    exists dl, before, file, rest. done.
  - intros H. injection H as <- <-. by left.
Qed.

End FailureTraces.

Section LoaderFailures.

Context {sch : summation}.
Variable float_repr : Q → string.
Variable fs : FileSystem.

(** X19. A load that raises stops at the file that failed.  Either the
    listing itself raised, and nothing else happened; or some ".csv" file
    of the listing failed: the ".csv" files before it were loaded in full,
    the failing file was opened (and, when the opening succeeded, read and
    closed again, with no progress written), the files after it were not
    touched, and no line feed was written.  The error is the one of
    [open], or the one of reading and cleaning the file. *)
Theorem loader_failure_trace directory cols tr e :
  load_dataset_from_directory_partial float_repr fs directory cols = (tr, Raise e)
  ∨ load_dataset_from_directory_partial_average_hours float_repr fs directory cols
    = (tr, Raise e) →
  (fs_listdir fs directory = Raise e ∧ tr = [EvListdir directory])
  ∨ ∃ dl before file rest,
      fs_listdir fs directory = Ok dl
      ∧ csv_files dl = (before ++ file :: rest)%list
      ∧ tr = (EvListdir directory ::
              mjoin (imap (λ k f, file_events (S k) (length dl) (path_join directory f))
                       before)
              ++ match fs_open fs (path_join directory file) with
                 | Ok _ => [EvOpen (path_join directory file);
                            EvReadCsv (path_join directory file);
                            EvClose (path_join directory file)]
                 | Raise _ => [EvOpen (path_join directory file)]
                 end)%list
      ∧ (fs_open fs (path_join directory file) = Raise e
         ∨ file_frame float_repr fs cols (path_join directory file) = Raise e
         ∨ file_frame_average_hours float_repr fs cols (path_join directory file)
           = Raise e).
Proof.
  intros [H|H].
  - rewrite load_partial_view in H.
    apply loader_view_failure in H as [H|(dl & before & file & rest & ? & ? & ? & Hl)];
      [by left|right].
    exists dl, before, file, rest. repeat (split; [done|]).
    destruct (fs_open fs (path_join directory file)); [by right; left|left; by subst].
  - rewrite load_average_hours_view in H.
    apply loader_view_failure in H as [H|(dl & before & file & rest & ? & ? & ? & Hl)];
      [by left|right].
    exists dl, before, file, rest. repeat (split; [done|]).
    destruct (fs_open fs (path_join directory file)); [by right; right|left; by subst].
Qed.

End LoaderFailures.

(** * The properties on the example data *)

Existing Instance example_summation.

Lemma example_sanitized :
  sanitize decimal_repr example_cols example_raw = Ok example_cleaned.
Proof. vm_compute. reflexivity. Qed.

Ltac each_elem H :=
  repeat (apply elem_of_cons in H as [H|H]); [..|by apply elem_of_nil in H].

(** C1 on the example: the row with 80.0, above the maximum 75, is gone,
    and the rows kept lie within [5, 75]. *)
Lemma range_enforcement_witness :
  (∀ i r', (i, r') ∈ rows example_cleaned →
     ∃ q, r' !! "AEZ-P_SUM" = Some (VFloat q) ∧ (inject_Z 5 <= q <= inject_Z 75)%Q)
  ∧ 3%nat ∉ (rows example_cleaned).*1.
Proof.
  destruct (range_enforcement decimal_repr example_cols example_raw example_cleaned
              "AEZ-P_SUM" 5 75) as [Hin Hout].
  - vm_compute. reflexivity.
  - by left.
  - reflexivity.
  - split; [exact Hin|].
    apply (Hout ltac:(compute_done) 3%nat
             (raw_row "80.0" "31.0" 20230615 "094500") 80%Q).
    + do 3 right. by left.
    + vm_compute. reflexivity.
    + right. reflexivity.
Defined.

(** C2 on the example: the row with "err_timeout" is gone. *)
Lemma error_marker_elimination_witness :
  2%nat ∉ (rows example_cleaned).*1.
Proof.
  destruct (error_marker_elimination decimal_repr example_cols example_raw
              example_cleaned) as (Hgone & _ & _).
  - vm_compute. reflexivity.
  - apply (Hgone ltac:(compute_done) 2%nat
             (raw_row "err_timeout" "31.0" 20230615 "094500") "AEZ-P_SUM").
    + do 2 right. by left.
    + by left.
    + vm_compute. reflexivity.
Defined.

(** C3 on the example directory. *)
Lemma no_missing_values_witness :
  length (rows (frame_of (load_dataset_from_directory_partial decimal_repr
                            example_fs "dirA" example_cols).2)) = 4%nat
  ∧ ∀ i r c,
      (i, r) ∈ rows (frame_of (load_dataset_from_directory_partial decimal_repr
                                 example_fs "dirA" example_cols).2) →
      c ∈ example_cols → ∃ v, r !! c = Some v ∧ isna v = false.
Proof.
  split; [vm_compute; reflexivity|].
  apply (no_missing_values decimal_repr example_fs "dirA" example_cols
           (load_dataset_from_directory_partial decimal_repr
              example_fs "dirA" example_cols).1).
  vm_compute. reflexivity.
Defined.

Lemma example_cleaned_well_timed i r :
  (i, r) ∈ rows example_cleaned → well_timed r.
Proof.
  intros H. unfold example_cleaned in H. cbn [rows] in H. each_elem H;
    injection H as -> ->; eexists _, _; repeat split; reflexivity.
Qed.

(** C5 on the example: the row of 2023-06-15 09:30:00 gets Month 6, Day 15
    and Hour 9. *)
Lemma add_time_columns_derives_witness :
  add_time_columns example_cleaned = Ok example_timed
  ∧ with_time_key (cleaned_row_of 10 30 "20230615" "093000") !! "Month" = Some (VFloat 6)
  ∧ with_time_key (cleaned_row_of 10 30 "20230615" "093000") !! "Day" = Some (VFloat 15)
  ∧ with_time_key (cleaned_row_of 10 30 "20230615" "093000") !! "Hour" = Some (VFloat 9).
Proof.
  destruct (add_time_columns_derives example_cleaned) as (Hrun & Hval & _).
  - reflexivity.
  - reflexivity.
  - unfold example_cleaned, column_names. cbn [columns fmap list_fmap fst].
    repeat constructor; eexists; reflexivity.
  - exact example_cleaned_well_timed.
  - split; [exact Hrun|].
    exact (Hval (cleaned_row_of 10 30 "20230615" "093000") "20230615" "093000"
             eq_refl eq_refl).
Defined.





(** C6 on the example: the directory "dirA" given twice contributes its
    three rows twice, in order, with their labels; the empty directory
    "dirB" contributes nothing. *)
Lemma assemble_concatenates_witness :
  ∃ out,
    (load_multiple_datasets_average_hours decimal_repr example_fs
       (["dirB"; "dirA"] ++ ["dirA"]) example_cols).2 = Ok out
    ∧ rows out =
      [ (0%nat, aggregated_row_of 8 "20230615" 30 31 6 15);
        (1%nat, aggregated_row_of 9 "20230615" 15 (61 # 2) 6 15);
        (2%nat, aggregated_row_of 9 "20230615" 50 30 6 15);
        (0%nat, aggregated_row_of 8 "20230615" 30 31 6 15);
        (1%nat, aggregated_row_of 9 "20230615" 15 (61 # 2) 6 15);
        (2%nat, aggregated_row_of 9 "20230615" 50 30 6 15) ]
    ∧ rows (frame_of (load_dataset_from_directory_partial_average_hours decimal_repr
                        example_fs "dirA" example_cols).2)
      = [ (0%nat, aggregated_row_of 8 "20230615" 30 31 6 15);
          (1%nat, aggregated_row_of 9 "20230615" 15 (61 # 2) 6 15);
          (2%nat, aggregated_row_of 9 "20230615" 50 30 6 15) ]
    ∧ rows (frame_of (load_dataset_from_directory_partial_average_hours decimal_repr
                        example_fs "dirB" example_cols).2) = [].
Proof.
  destruct (assemble_concatenates decimal_repr example_fs ["dirB"; "dirA"] ["dirA"]
              example_cols
              (frame_of (load_multiple_datasets_average_hours decimal_repr example_fs
                           ["dirB"; "dirA"] example_cols).2)
              (frame_of (load_multiple_datasets_average_hours decimal_repr example_fs
                           ["dirA"] example_cols).2))
    as (out & frames1 & frames2 & Hout & Hrows & _).
  - vm_compute. reflexivity.
  - vm_compute. reflexivity.
  - exists out. split; [exact Hout|]. split; [|split].
    + rewrite Hrows. vm_compute. reflexivity.
    + vm_compute. reflexivity.
    + vm_compute. reflexivity.
Defined.

Lemma clean_example_is_clean :
  clean_frame decimal_repr ["AEZ-P_SUM"; "YYYYMMDD"] clean_example.
Proof.
  split; [|split].
  - intros c Hc. each_elem Hc; subst c; (split; [compute_done|eexists; reflexivity]).
  - intros c dt t Hin Hc Ht. unfold clean_example in Hin. cbn [columns] in Hin.
    each_elem Hin; injection Hin as -> ->; injection Ht as <-; reflexivity.
  - intros i r Hin. unfold clean_example in Hin. cbn [rows] in Hin.
    each_elem Hin. injection Hin as -> ->. split; [|split; [|split]].
    + apply (map_Forall_insert_2 (λ _ v, _ ∧ _)); [by vm_compute|].
      apply (map_Forall_insert_2 (λ _ v, _ ∧ _)); [by vm_compute|].
      apply map_Forall_empty.
    + intros c Hc. unfold clean_example, column_names in Hc.
      cbn [columns fmap list_fmap fst] in Hc. each_elem Hc; subst c; eexists; reflexivity.
    + intros c t Hc Ht. each_elem Hc; subst c; injection Ht as <-; eexists; reflexivity.
    + intros c lo hi Hc Hl. each_elem Hc; subst c; [|discriminate Hl].
      injection Hl as <- <-. exists 10%Q. split; [reflexivity|]. split; discriminate.
Qed.

(** C7 on the example. *)
Lemma sanitize_clean_unchanged_witness :
  sanitize decimal_repr ["AEZ-P_SUM"; "YYYYMMDD"] clean_example = Ok clean_example.
Proof.
  apply (sanitize_clean_unchanged decimal_repr ["AEZ-P_SUM"; "YYYYMMDD"] clean_example).
  exact clean_example_is_clean.
Defined.

(** C10 on the example: hour 9 of 2023-06-15 occurs in both files of "dirA";
    the frame holds one row for it per file, with the means 15.0 and 50.0
    of the file's own rows. *)
Lemma averaging_is_per_file_witness :
  (rows (frame_of (load_dataset_from_directory_partial_average_hours decimal_repr
                     example_fs "dirA" example_cols).2)).*2
  = [ aggregated_row_of 8 "20230615" 30 31 6 15;
      aggregated_row_of 9 "20230615" 15 (61 # 2) 6 15;
      aggregated_row_of 9 "20230615" 50 30 6 15 ]
  ∧ ∃ frames,
      Forall2 (λ f a, file_frame_average_hours decimal_repr example_fs example_cols
                        (path_join "dirA" f) = Ok a) ["a.csv"; "b.csv"] frames
      ∧ (rows (frame_of (load_dataset_from_directory_partial_average_hours decimal_repr
                           example_fs "dirA" example_cols).2)).*2
        = mjoin (map (λ a, (rows a).*2) frames).
Proof.
  split; [vm_compute; reflexivity|].
  destruct (averaging_is_per_file decimal_repr example_fs "dirA" ["dirA"; "dirA"]
              example_cols
              (frame_of (load_dataset_from_directory_partial_average_hours decimal_repr
                           example_fs "dirA" example_cols).2)
              (frame_of (load_multiple_datasets_average_hours decimal_repr
                           example_fs ["dirA"; "dirA"] example_cols).2))
    as [(dl & frames & Hdl & HF & Hrows) _].
  - vm_compute. reflexivity.
  - vm_compute. reflexivity.
  - injection Hdl as <-. exists frames. split; [exact HF|exact Hrows].
Defined.

(** C8 as stated fails: with the unlisted column "Sensor_X" selected, the
    file is opened and read before the error is raised, and the error is the
    [KeyError] of the catalog lookup; on a directory without ".csv" files no
    error is raised at all. *)
Lemma unknown_column_counterexample :
  load_dataset_from_directory_partial decimal_repr unlisted_fs "data"
    ["AEZ-P_SUM"; "Sensor_X"]
  = ([EvListdir "data"; EvOpen "data/day1.csv"; EvReadCsv "data/day1.csv";
      EvClose "data/day1.csv"], Raise (KeyError "Sensor_X"))
  ∧ load_dataset_from_directory_partial decimal_repr unlisted_fs "empty"
      ["AEZ-P_SUM"; "Sensor_X"]
    = ([EvListdir "empty"; EvStdout LF], Ok empty_frame).
Proof. split; vm_compute; reflexivity. Qed.

(** C8, as amended, on the example. *)
Lemma unknown_column_fails_at_first_file_witness :
  ∃ tr e,
    load_dataset_from_directory_partial decimal_repr unlisted_fs "data"
      ["AEZ-P_SUM"; "Sensor_X"]
    = (EvListdir "data" :: EvOpen "data/day1.csv" :: tr, Raise e)
    ∧ (fs_open unlisted_fs "data/day1.csv" = Ok tt →
       tr = [EvReadCsv "data/day1.csv"; EvClose "data/day1.csv"]).
Proof.
  apply (unknown_column_fails_at_first_file decimal_repr unlisted_fs "data"
           ["AEZ-P_SUM"; "Sensor_X"] "Sensor_X" ["day1.csv"]).
  - right. by left.
  - reflexivity.
  - reflexivity.
Defined.

(** * The further properties on the example data *)

(** X1 on the example: the text measurements of "b.csv" become floats. *)
Lemma apply_type_conversion_post_witness :
  apply_type_conversion decimal_repr example_raw_b example_cols
  = Ok (mkDataFrame (columns example_cleaned)
          [(0%nat, cleaned_row_of 50 30 "20230615" "093000")])
  ∧ columns example_cleaned =
      map (λ cd, if bool_decide (cd.1 ∈ example_cols)
                 then (cd.1, catalog_dtype cd.1) else cd) (columns example_raw_b).
Proof.
  assert (apply_type_conversion decimal_repr example_raw_b example_cols
          = Ok (mkDataFrame (columns example_cleaned)
                  [(0%nat, cleaned_row_of 50 30 "20230615" "093000")])) as H
    by (vm_compute; reflexivity).
  split; [exact H|].
  exact (proj1 (apply_type_conversion_post decimal_repr example_raw_b example_cols _ H)).
Defined.

(** X2 on an example: "n/a" is no number, and the row before it does not
    help. *)
Lemma apply_type_conversion_rejects_witness :
  ∃ e, apply_type_conversion decimal_repr
         (mkDataFrame raw_columns
            [ (0%nat, raw_row "10.0" "30.0" 20230615 "093000");
              (1%nat, raw_row "n/a" "31.0" 20230615 "094500") ])
         example_cols = Raise e.
Proof.
  apply (apply_type_conversion_rejects decimal_repr
           (mkDataFrame raw_columns
              [ (0%nat, raw_row "10.0" "30.0" 20230615 "093000");
                (1%nat, raw_row "n/a" "31.0" 20230615 "094500") ])
           example_cols 1%nat
           (raw_row "n/a" "31.0" 20230615 "094500") "AEZ-P_SUM" np_float64 "n/a").
  - right. by left.
  - by left.
  - reflexivity.
  - vm_compute. reflexivity.
Defined.

(** X3 on the example: the labels 0, 1, 4 are kept, in this order. *)
Lemma sanitize_keeps_order_witness :
  [0; 1; 4]%nat `sublist_of` [0; 1; 2; 3; 4]%nat
  ∧ column_names example_cleaned = column_names example_raw.
Proof.
  apply (sanitize_keeps_order decimal_repr example_cols example_raw example_cleaned).
  vm_compute. reflexivity.
Defined.

(** X4 on the example: the cleaned rows lie within the limits and are left
    as they are. *)
Lemma apply_limits_effect_witness :
  apply_limits example_cleaned example_cols = Ok example_cleaned
  ∧ Forall2 (λ ir ir',
       ir'.1 = ir.1
       ∧ (row_within example_cols ir.2 → ir'.2 = ir.2)
       ∧ (¬ row_within example_cols ir.2 → ir'.2 = nan_row ir.2))
      (rows example_cleaned) (rows example_cleaned).
Proof.
  assert (apply_limits example_cleaned example_cols = Ok example_cleaned) as H
    by (vm_compute; reflexivity).
  split; [exact H|].
  assert (Forall (λ cd : string * dtype, cd.2 ≠ int64) (columns example_cleaned)) as Hd
    by (repeat constructor; discriminate).
  exact (proj1 (proj2 (apply_limits_effect example_cleaned example_cols _ Hd H))).
Defined.

(** X5 on the example directory: two files of a listing of three names. *)
Lemma loader_success_trace_witness :
  ∃ dl, fs_listdir example_fs "dirA" = Ok dl
        ∧ (load_dataset_from_directory_partial decimal_repr example_fs "dirA"
             example_cols).1
          = (EvListdir "dirA" ::
             mjoin (imap (λ k f, file_events (S k) (length dl) (path_join "dirA" f))
                      (csv_files dl)) ++ [EvStdout LF])%list.
Proof.
  apply (loader_success_trace decimal_repr example_fs "dirA" example_cols _
           (frame_of (load_dataset_from_directory_partial decimal_repr example_fs
                        "dirA" example_cols).2)).
  left. vm_compute. reflexivity.
Defined.

(** X6 on the example directory. *)
Lemma loaders_touch_only_csv_witness :
  ∃ dl f, fs_listdir example_fs "dirA" = Ok dl ∧ f ∈ dl
          ∧ endswith f ".csv" = true ∧ "dirA/a.csv" = path_join "dirA" f.
Proof.
  apply (loaders_touch_only_csv decimal_repr example_fs "dirA" example_cols).
  left. vm_compute. by left.
Defined.

(** X8 on the example: the directory "dirB" is empty. *)
Lemma no_csv_files_empty_frame_witness :
  load_multiple_datasets_average_hours decimal_repr example_fs ["dirB"; "dirB"]
    example_cols
  = ([EvListdir "dirB"; EvStdout LF; EvListdir "dirB"; EvStdout LF], Ok empty_frame).
Proof.
  apply (no_csv_files_empty_frame decimal_repr example_fs ["dirB"; "dirB"] example_cols).
  repeat constructor; exists []; split; reflexivity.
Defined.

(** X9 on the example directory. *)
Lemma average_hours_needs_time_columns_witness :
  "YYYYMMDD" ∈ example_cols ∧ "hhmmss" ∈ example_cols.
Proof.
  apply (average_hours_needs_time_columns decimal_repr example_fs "dirA" example_cols
           (frame_of (load_dataset_from_directory_partial_average_hours decimal_repr
                        example_fs "dirA" example_cols).2)
           ["a.csv"; "notes.txt"; "b.csv"]).
  - vm_compute. reflexivity.
  - reflexivity.
  - discriminate.
Defined.

(** X10 on the example directory, and on the same directory without the
    time columns, which the plain loader loads and the hourly loader does
    not. *)
Lemma loaded_frame_columns_witness :
  column_names (frame_of (load_dataset_from_directory_partial decimal_repr
                            example_fs "dirA" example_cols).2)
  = ["AEZ-P_SUM"; "R_BauBGa-P_SUM"; "YYYYMMDD"; "hhmmss"]
  ∧ column_names (frame_of (load_dataset_from_directory_partial_average_hours
                              decimal_repr example_fs "dirA" example_cols).2)
    = ["Hour"; "YYYYMMDD"; "AEZ-P_SUM"; "R_BauBGa-P_SUM"; "Month"; "Day"]
  ∧ column_names (frame_of (load_dataset_from_directory_partial decimal_repr
                              example_fs "dirA" ["AEZ-P_SUM"; "R_BauBGa-P_SUM"]).2)
    = ["AEZ-P_SUM"; "R_BauBGa-P_SUM"]
  ∧ (load_dataset_from_directory_partial_average_hours decimal_repr
       example_fs "dirA" ["AEZ-P_SUM"; "R_BauBGa-P_SUM"]).2
    = Raise (KeyError "YYYYMMDD").
Proof.
  destruct (loaded_frame_columns decimal_repr example_fs "dirA" example_cols)
    as [Hplain Hhourly].
  destruct (loaded_frame_columns decimal_repr example_fs "dirA"
              ["AEZ-P_SUM"; "R_BauBGa-P_SUM"]) as [Hplain' _].
  split; [|split; [|split]].
  - apply Hplain; [vm_compute; reflexivity|].
    apply (length_nonempty _ 3). vm_compute. reflexivity.
  - apply Hhourly; [vm_compute; reflexivity|].
    apply (length_nonempty _ 2). vm_compute. reflexivity.
  - apply Hplain'; [vm_compute; reflexivity|].
    apply (length_nonempty _ 3). vm_compute. reflexivity.
  - vm_compute. reflexivity.
Defined.

(** X11 on the example: hour 8 comes before hour 9. *)
Lemma groupby_mean_sorted_witness :
  (rows example_aggregated).*1 = [0; 1]%nat
  ∧ ascending [[VFloat 8; VStr "20230615"]; [VFloat 9; VStr "20230615"]].
Proof.
  apply (groupby_mean_sorted example_timed example_aggregated).
  vm_compute. reflexivity.
Defined.

(** X12 on the example: "dirA" given twice gives the labels 0, 1, 2 twice;
    the plain loader numbers its rows whether or not the time columns are
    selected. *)
Lemma result_labels_witness :
  (rows (frame_of (load_multiple_datasets_average_hours decimal_repr example_fs
                     ["dirA"; "dirA"] example_cols).2)).*1
  = [0; 1; 2; 0; 1; 2]%nat
  ∧ (rows (frame_of (load_dataset_from_directory_partial decimal_repr example_fs
                       "dirA" example_cols).2)).*1 = [0; 1; 2; 3]%nat
  ∧ (rows (frame_of (load_dataset_from_directory_partial decimal_repr example_fs
                       "dirA" ["AEZ-P_SUM"; "R_BauBGa-P_SUM"]).2)).*1
    = [0; 1; 2; 3]%nat.
Proof.
  destruct (result_labels decimal_repr example_fs "dirA" ["dirA"; "dirA"] example_cols)
    as (H1 & _ & H3).
  destruct (result_labels decimal_repr example_fs "dirA" ["dirA"; "dirA"]
              ["AEZ-P_SUM"; "R_BauBGa-P_SUM"]) as (H1' & _ & _).
  split; [|split].
  - destruct (H3 (frame_of (load_multiple_datasets_average_hours decimal_repr example_fs
                              ["dirA"; "dirA"] example_cols).2))
      as (frames & _ & _); [vm_compute; reflexivity|].
    vm_compute. reflexivity.
  - rewrite H1 by (vm_compute; reflexivity). vm_compute. reflexivity.
  - rewrite H1' by (vm_compute; reflexivity). vm_compute. reflexivity.
Defined.

(** X14 on a time string. *)
Lemma time_string_fields_witness :
  get_hour "2023-06-15 09:30:00" = Ok 9%Z
  ∧ get_yyyymmdd "2023-06-15 09:30:00" = Ok 20230615%Z.
Proof.
  apply (time_string_fields "2023-06-15 09:30:00"); [simpl; lia|reflexivity..].
Defined.

(** X15 on a date without a time. *)
Lemma get_hour_short_witness :
  get_hour "2023-06-15" = Raise (ValueError EmptyString).
Proof. apply (get_hour_short "2023-06-15"). simpl. lia. Defined.

(** With the import added: a float timestamp whose microseconds round up
    to a full second, and a timestamp of the year 999, whose text has
    eighteen characters. *)
Lemma convert_timestamp_examples :
  convert_timestamp_to_string
    (<["datetime" := PyClass "datetime.datetime"]> module_globals)
    (VFloat (9999996 # 10000000))
  = Ok "1970-01-01 00:57:20"
  ∧ convert_timestamp_to_string
      (<["datetime" := PyClass "datetime.datetime"]> module_globals)
      (VInt (-30610227440))
    = Ok "999-12-31 23:59:59"
  ∧ get_hour "999-12-31 23:59:59" = Raise (ValueError "3:").
Proof. repeat split; vm_compute; reflexivity. Qed.


(** X18 on the example. *)
Lemma add_time_columns_requires_witness :
  column_dtype example_cleaned "YYYYMMDD" = Some object
  ∧ column_dtype example_cleaned "hhmmss" = Some object
  ∧ ∀ i r, (i, r) ∈ rows example_cleaned →
      (∀ d, cell_at r "YYYYMMDD" = VStr d →
         (7 <= String.length d)%nat
         ∧ (∃ v, float_of_string (py_slice 4 6 d) = Ok v)
         ∧ (∃ v, float_of_string (py_slice 6 8 d) = Ok v))
      ∧ (∀ t, cell_at r "hhmmss" = VStr t →
           (1 <= String.length t)%nat
           ∧ ∃ v, float_of_string (py_slice 0 2 t) = Ok v).
Proof.
  apply (add_time_columns_requires example_cleaned example_timed).
  vm_compute. reflexivity.
Defined.

(** X19 on the example with the unlisted column: the first file fails, after
    it was read. *)
Lemma loader_failure_trace_witness :
  load_dataset_from_directory_partial decimal_repr unlisted_fs "data"
    ["AEZ-P_SUM"; "Sensor_X"]
  = ([EvListdir "data"; EvOpen "data/day1.csv"; EvReadCsv "data/day1.csv";
      EvClose "data/day1.csv"], Raise (KeyError "Sensor_X"))
  ∧ ((fs_listdir unlisted_fs "data" = Raise (KeyError "Sensor_X")
      ∧ [EvListdir "data"; EvOpen "data/day1.csv"; EvReadCsv "data/day1.csv";
         EvClose "data/day1.csv"] = [EvListdir "data"])
     ∨ ∃ dl before file rest,
         fs_listdir unlisted_fs "data" = Ok dl
         ∧ csv_files dl = (before ++ file :: rest)%list
         ∧ [EvListdir "data"; EvOpen "data/day1.csv"; EvReadCsv "data/day1.csv";
            EvClose "data/day1.csv"]
           = (EvListdir "data" ::
              mjoin (imap (λ k f, file_events (S k) (length dl) (path_join "data" f))
                       before)
              ++ match fs_open unlisted_fs (path_join "data" file) with
                 | Ok _ => [EvOpen (path_join "data" file);
                            EvReadCsv (path_join "data" file);
                            EvClose (path_join "data" file)]
                 | Raise _ => [EvOpen (path_join "data" file)]
                 end)%list
         ∧ (fs_open unlisted_fs (path_join "data" file) = Raise (KeyError "Sensor_X")
            ∨ file_frame decimal_repr unlisted_fs ["AEZ-P_SUM"; "Sensor_X"]
                (path_join "data" file) = Raise (KeyError "Sensor_X")
            ∨ file_frame_average_hours decimal_repr unlisted_fs
                ["AEZ-P_SUM"; "Sensor_X"] (path_join "data" file)
              = Raise (KeyError "Sensor_X"))).
Proof.
  assert (load_dataset_from_directory_partial decimal_repr unlisted_fs "data"
            ["AEZ-P_SUM"; "Sensor_X"]
          = ([EvListdir "data"; EvOpen "data/day1.csv"; EvReadCsv "data/day1.csv";
              EvClose "data/day1.csv"], Raise (KeyError "Sensor_X"))) as H
    by (vm_compute; reflexivity).
  split; [exact H|].
  exact (loader_failure_trace decimal_repr unlisted_fs "data" ["AEZ-P_SUM"; "Sensor_X"]
           _ _ (or_introl H)).
Defined.
